(** * pyMec.geometry: a shallow embedding of the session and vector core

    The development follows [src/pyMec/geometry.py].  Python exceptions are
    values of [exn]; a method is a function from the state it can touch to a
    [result] together with the state it leaves behind, so that what a method
    has already written when it raises stays written, as in Python. *)

From Stdlib Require Import ZArith List Bool Ascii String Sorted Lia Floats.
From stdpp Require Import base option list gmap strings.

Local Open Scope Z_scope.

(** ** Exceptions and results *)

(** A [pathlib.Path], as the list of its components. *)
Abbreviation path := (list string).

(** [str(p)]: the components joined by slashes; the path without components
    is the working directory, [.]. *)
Definition path_str (p : path) : string :=
  match p with
  | [] => "."
  | _ => String.concat "/" p
  end.

(** [Path.parent]: the path without its last component. *)
Definition parent (p : path) : path := removelast p.

Inductive exn :=
| TypeError (msg : string)
| ValueError (msg : string)
| KeyError (key : string)
| IndexError (msg : string)
| AttributeError (msg : string)
| OverflowError (msg : string)
| FileExistsError (msg : string)
| FileNotFoundError (p : path)
| IsADirectoryError (p : path)
| NotADirectoryError (p : path).

Inductive result (A : Type) :=
| Return (a : A)
| Raise (e : exn).
Arguments Return {A} a.
Arguments Raise {A} e.

(** Pure computations that may raise. *)
Definition rbind {A B} (r : result A) (k : A -> result B) : result B :=
  match r with
  | Return a => k a
  | Raise e => Raise e
  end.

(** Computations on a state [S] that may raise; the state survives a raise. *)
Definition M (S A : Type) : Type := S -> result A * S.

Definition ret {S A} (a : A) : M S A := fun s => (Return a, s).
Definition raise {S A} (e : exn) : M S A := fun s => (Raise e, s).
Definition bind {S A B} (m : M S A) (k : A -> M S B) : M S B :=
  fun s => match m s with
           | (Return a, s') => k a s'
           | (Raise e, s') => (Raise e, s')
           end.
Definition get {S} : M S S := fun s => (Return s, s).
Definition put {S} (s : S) : M S unit := fun _ => (Return tt, s).
Definition lift {S A} (r : result A) : M S A := fun s => (r, s).

(** stdpp's monad notations ([x ← m; k] and [m;; k]) are used for both. *)
Global Instance result_ret : MRet result := @Return.
Global Instance result_bind : MBind result := fun A B k r => rbind r k.
Global Instance M_ret {S} : MRet (M S) := @ret S.
Global Instance M_bind {S} : MBind (M S) := fun A B k m => bind m k.

(** ** Numbers

    Coordinates are Python floats, that is IEEE 754 binary64 values; they are
    modelled by Rocq's primitive floats, which are the same numbers with the
    same rounding (to nearest, ties to even). *)

Inductive number :=
| PyInt (z : Z)
| PyFloat (f : float).

(** The nearest binary64 value of an integer. *)
Definition float_of_Z (z : Z) : float :=
  SF2Prim (binary_normalize prec emax z 0 false).

(** [float(i)]: a float is returned as it is, an int is rounded to the nearest
    float and refused when that is out of range. *)
Definition py_float (i : number) : result float :=
  match i with
  | PyFloat f => Return f
  | PyInt z =>
      let f := float_of_Z z in
      if is_infinity f
      then Raise (OverflowError "int too large to convert to float")
      else Return f
  end.

(** [l[k]] on a list. *)
Definition getitem {A} (l : list A) (k : nat) : result A :=
  match l !! k with
  | Some a => Return a
  | None => Raise (IndexError "list index out of range")
  end.

(** [[f(x) for x in l]] where [f] may raise. *)
Fixpoint comprehension {A B} (f : A -> result B) (l : list A) : result (list B) :=
  match l with
  | [] => Return []
  | x :: l' => y ← f x; ys ← comprehension f l'; Return (y :: ys)
  end.

(** [sum(x)] for a tuple of floats: the accumulator starts at the int [0]. *)
Definition py_sum (x : list float) : float :=
  fold_left PrimFloat.add x 0%float.

(** [zip(l1, l2)], stopping at the shorter list. *)
Fixpoint zip {A B} (l1 : list A) (l2 : list B) : list (A * B) :=
  match l1, l2 with
  | x :: l1', y :: l2' => (x, y) :: zip l1' l2'
  | _, _ => []
  end.

(** [l1 == l2] on lists of floats: equal lengths and [==] on each pair of
    elements.  [==] on floats is the IEEE comparison: a NaN differs from every
    float, itself included, and the two zeros are equal.  CPython answers
    True without comparing when the two elements are one and the same object,
    which changes the answer only for a NaN that both lists share; the
    vectors compared in the properties below come out of separate operations,
    whose floats are new objects. *)
Fixpoint list_eq (l1 l2 : list float) : bool :=
  match l1, l2 with
  | [], [] => true
  | x :: l1', y :: l2' => PrimFloat.eqb x y && list_eq l1' l2'
  | _, _ => false
  end.

(** ** Division

    [x / num] raises ZeroDivisionError on a zero divisor, which nothing else
    of the module raises.  The outcome of a computation that divides is a
    value, one of the exceptions of [exn], or ZeroDivisionError; its message
    differs between versions of Python and is left out. *)
Inductive outcome (A : Type) :=
| Value (a : A)
| Error (e : exn)
| ZeroDivisionError.
Arguments Value {A} a.
Arguments Error {A} e.
Arguments ZeroDivisionError {A}.

Definition obind {A B} (o : outcome A) (k : A -> outcome B) : outcome B :=
  match o with
  | Value a => k a
  | Error e => Error e
  | ZeroDivisionError => ZeroDivisionError
  end.

Global Instance outcome_ret : MRet outcome := @Value.
Global Instance outcome_bind : MBind outcome := fun A B k o => obind o k.

Definition of_result {A} (r : result A) : outcome A :=
  match r with
  | Return a => Value a
  | Raise e => Error e
  end.

(** [[f(x) for x in l]] where [f] may divide. *)
Fixpoint dividing_comprehension {A B} (f : A -> outcome B) (l : list A)
  : outcome (list B) :=
  match l with
  | [] => Value []
  | x :: l' => y ← f x; ys ← dividing_comprehension f l'; Value (y :: ys)
  end.

(** [x / num] on a float [x]: an int divisor is converted to a float, and a
    zero divisor, of either sign, is refused. *)
Definition float_truediv (x : float) (num : number) : outcome float :=
  d ← of_result (py_float num);
  if (d =? 0)%float then ZeroDivisionError else Value (x / d)%float.

(** ** Objects *)

(** [PyMecObject]: the uid is drawn by [uuid.uuid4()] when the object is built;
    the constructors below receive the drawn value as their first argument. *)
Record PyMecObject := mkPyMecObject { uid : string; name : string }.

Record Vector := mkVector {
  vector_object : PyMecObject;
  coordinates : list float }.

Record Point := mkPoint {
  point_object : PyMecObject;
  position : Vector }.

Record Segment := mkSegment {
  segment_object : PyMecObject;
  start : Point;
  end_ : Point }.

Record Contour := mkContour {
  contour_object : PyMecObject;
  segments : list Segment }.

Module Vector.

(** [Vector(coord, name)] *)
Definition __init__ (u : string) (coord : list number) (name : string)
  : result Vector :=
  cs ← comprehension py_float coord;
  Return (mkVector (mkPyMecObject u name) cs).

(** The same constructor on a list that already holds floats, where
    [float(i)] returns [i]. *)
Definition of_floats (u : string) (cs : list float) : Vector :=
  mkVector (mkPyMecObject u "") cs.

Definition dim (self : Vector) : nat := length (coordinates self).

Definition check_dim (self vect : Vector) : result unit :=
  if negb (dim self =? dim vect)%nat
  then Raise (ValueError "Vectors are not the same dimension")
  else Return tt.

Definition __add__ (u : string) (self vect : Vector) : result Vector :=
  check_dim self vect;;
  Return (of_floats u
    (map (fun x => py_sum [x.1; x.2]) (zip (coordinates self) (coordinates vect)))).

Definition __sub__ (u : string) (self vect : Vector) : result Vector :=
  check_dim self vect;;
  Return (of_floats u
    (map (fun x => (x.1 - x.2)%float) (zip (coordinates self) (coordinates vect)))).

(** [self * num]; an int factor is converted to a float by the product. *)
Definition __mul__ (u : string) (self : Vector) (num : number) : result Vector :=
  cs ← comprehension (fun coord => n ← py_float num; Return (n * coord)%float)
       (coordinates self);
  Return (of_floats u cs).

(** [self / num] *)
Definition __truediv__ (u : string) (self : Vector) (num : number)
  : outcome Vector :=
  cs ← dividing_comprehension (fun coord => float_truediv coord num)
       (coordinates self);
  Value (of_floats u cs).

Definition __eq__ (self vector : Vector) : bool :=
  list_eq (coordinates self) (coordinates vector).

(** [range(3)] *)
Definition range3 : list nat := [0; 1; 2]%nat.

Definition cross_product (u : string) (self vect : Vector) : result Vector :=
  check_dim self vect;;
  if negb (dim self =? 3)%nat
  then Raise (ValueError "Cross product doesn't exist for vector not indimension 3")
  else
    cs ← comprehension (fun i : nat =>
           a1 ← getitem (coordinates self) ((i + 1) mod 3);
           b2 ← getitem (coordinates vect) ((i + 2) mod 3);
           a2 ← getitem (coordinates self) ((i + 2) mod 3);
           b1 ← getitem (coordinates vect) ((i + 1) mod 3);
           Return (a1 * b2 - a2 * b1)%float) range3;
    Return (of_floats u cs).

End Vector.

(** Anything the workspace may hold: an instance of [PyMecObject] or of one of
    its subclasses. *)
Inductive Object :=
| OPyMecObject (o : PyMecObject)
| OVector (v : Vector)
| OPoint (p : Point)
| OSegment (s : Segment)
| OContour (c : Contour).

Definition object_of (x : Object) : PyMecObject :=
  match x with
  | OPyMecObject o => o
  | OVector v => vector_object v
  | OPoint p => point_object p
  | OSegment s => segment_object s
  | OContour c => contour_object c
  end.

Definition uid_of (x : Object) : string := uid (object_of x).
Definition name_of (x : Object) : string := name (object_of x).

(** Python values that reach the session: header entries and the argument of
    [append]. *)
Inductive value :=
| VNone
| VStr (s : string)
| VPath (p : path)
| VDatetime (t : Z)
| VObject (o : Object).

(** ** Points and segments

    The functions below build more than one object.  They receive the uids
    that [uuid.uuid4()] draws as a supply [uuid4]: [uuid4 k] is the uid of
    the [k]-th object that the body may build, counted in the order of the
    text, and a call inside the body receives the part of the supply that
    starts at its own first object.  The uid of an object that is not built,
    such as a default value that is not needed, is not used. *)
Definition shift (n : nat) (uuid4 : nat -> string) : nat -> string :=
  fun k => uuid4 (n + k)%nat.

Module Point.

(** [Point(pos, name)]: object 0 is the vector [Vector()] of a point built
    without a position, object 1 the point. *)
Definition __init__ (uuid4 : nat -> string) (pos : value) (name : string)
  : result Point :=
  pos ← match pos with
        | VNone => v ← Vector.__init__ (uuid4 0%nat) [] ""; Return (VObject (OVector v))
        | _ => Return pos
        end;
  match pos with
  | VObject (OVector v) => Return (mkPoint (mkPyMecObject (uuid4 1%nat) name) v)
  | _ => Raise (TypeError "Point position can't be non-Vector")
  end.

(** [self.position = pos] *)
Definition set_position (self : Point) (pos : value) : result Point :=
  match pos with
  | VObject (OVector v) => Return (mkPoint (point_object self) v)
  | _ => Raise (TypeError "Point position can't be non-Vector")
  end.

(** [self + vect]: object 0 is the sum of the vectors, the objects from 1 on
    are those of [Point(...)]. *)
Definition __add__ (uuid4 : nat -> string) (self : Point) (vect : value)
  : result Point :=
  match vect with
  | VObject (OVector v) =>
      s ← Vector.__add__ (uuid4 0%nat) (position self) v;
      __init__ (shift 1 uuid4) (VObject (OVector s)) ""
  | _ => Raise (TypeError "can't add non-Vector to Point")
  end.

(** [self - point] *)
Definition __sub__ (u : string) (self point : Point) : result Vector :=
  Vector.__sub__ u (position self) (position point).

End Point.

Module Segment.

(** [Segment(start, end, name)]: objects 0 and 1 are those of the default
    start point, 2 and 3 those of the default end point, 4 is the segment. *)
Definition __init__ (uuid4 : nat -> string) (start end_ : option Point)
  (name : string) : result Segment :=
  start ← match start with
          | Some p => Return p
          | None => Point.__init__ uuid4 VNone ""
          end;
  end_ ← match end_ with
         | Some p => Return p
         | None => Point.__init__ (shift 2 uuid4) VNone ""
         end;
  Return (mkSegment (mkPyMecObject (uuid4 4%nat) name) start end_).

(** [self.midpoint()]: object 0 is the difference of the end points, object
    1 its half, the objects from 2 on are those of the sum. *)
Definition midpoint (uuid4 : nat -> string) (self : Segment) : outcome Point :=
  d ← of_result (Point.__sub__ (uuid4 0%nat) (end_ self) (start self));
  h ← Vector.__truediv__ (uuid4 1%nat) d (PyInt 2);
  of_result (Point.__add__ (shift 2 uuid4) (start self) (VObject (OVector h))).

End Segment.

(** ** The session's state and the disk *)

Record PyMecSession := mkSession {
  workspace : list Object;
  header_common : gmap string value;
  header : gmap string value }.

(** What [pickle.load] returns on a file: the three-part list written by
    [save_to_file], or some other sized value, of a length that is not 3. *)
Inductive unpickled :=
| Saved (hc h : gmap string value) (ws : list Object)
| Other (n : nat) (Hn : (n =? 3)%nat = false).

Definition len (loaded : unpickled) : nat :=
  match loaded with
  | Saved _ _ _ => 3
  | Other n _ => n
  end.

Inductive node :=
| File (content : unpickled)
| Dir.

(** The disk: what lies at each path; the empty path is the current
    directory. *)
Abbreviation filesystem := (gmap path node).

Definition node_at (fs : filesystem) (p : path) : option node :=
  match p with
  | [] => Some Dir
  | _ => fs !! p
  end.

(** [Path.exists()] *)
Definition exists_ (fs : filesystem) (p : path) : bool :=
  match node_at fs p with
  | Some _ => true
  | None => false
  end.

(** The ancestors of a path and the path itself, shortest first. *)
Definition prefixes (p : path) : list path :=
  map (fun n => take n p) (seq 1 (length p)).

(** A regular file lies at [q]. *)
Definition is_file (fs : filesystem) (q : path) : bool :=
  match node_at fs q with
  | Some (File _) => true
  | _ => false
  end.

(** [d.mkdir(parents=True, exist_ok=True)]; when a regular file lies on the
    way, [os.mkdir(d)] fails with the path [d] it was asked to make. *)
Definition mkdir (d : path) : M filesystem unit :=
  fold_left (fun (m : M filesystem unit) (q : path) =>
    m;;
    fs ← get;
    match node_at fs q with
    | Some Dir => ret tt
    | Some (File _) =>
        if decide (q = d)
        then raise (FileExistsError (path_str q))
        else raise (NotADirectoryError d)
    | None => put (<[q := Dir]> fs)
    end) (prefixes d) (ret tt).

(** [open(p, 'bw')] followed by [pickle.dump(content, savefile)] *)
Definition dump (p : path) (content : unpickled) : M filesystem unit :=
  fs ← get;
  match node_at fs p with
  | Some Dir => raise (IsADirectoryError p)
  | _ =>
      match node_at fs (parent p) with
      | Some Dir => put (<[p := File content]> fs)
      | Some (File _) => raise (NotADirectoryError p)
      | None =>
          if existsb (is_file fs) (prefixes (parent p))
          then raise (NotADirectoryError p)
          else raise (FileNotFoundError p)
      end
  end.

(** [open(p, 'br')] followed by [pickle.load(savefile)]; a path through a
    regular file is refused as not a directory. *)
Definition load (p : path) : M filesystem unpickled :=
  fs ← get;
  match node_at fs p with
  | Some (File content) => ret content
  | Some Dir => raise (IsADirectoryError p)
  | None =>
      if existsb (is_file fs) (prefixes (parent p))
      then raise (NotADirectoryError p)
      else raise (FileNotFoundError p)
  end.

(** [pathlib.Path(filename)] on a string: its components between slashes,
    without the empty ones and the dots, which [pathlib] drops.  The slash
    that opens an absolute name is not kept: the disk of the model is seen
    from its root, where a name with and without it is the same file. *)
Fixpoint split_slash (acc : string) (s : string) : list string :=
  match s with
  | EmptyString => [String.rev acc]
  | String c s' =>
      if Ascii.eqb c "/"%char
      then String.rev acc :: split_slash "" s'
      else split_slash (String c acc) s'
  end.

Definition Path (filename : string) : path :=
  filter (fun c => c ≠ "" ∧ c ≠ ".") (split_slash "" filename).

(** [max(l)] on a list of ints. *)
Definition py_max (l : list Z) : result Z :=
  match l with
  | [] => Raise (ValueError "max() arg is an empty sequence")
  | x :: l' => Return (fold_left Z.max l' x)
  end.

(** The truth value of a list: it is not empty. *)
Definition truth {A} (l : list A) : bool :=
  match l with
  | [] => false
  | _ => true
  end.

(** [enumerate(l)], counting from [i]. *)
Fixpoint enumerate_from {A} (i : nat) (l : list A) : list (nat * A) :=
  match l with
  | [] => []
  | x :: l' => (i, x) :: enumerate_from (S i) l'
  end.

Definition enumerate {A} (l : list A) : list (nat * A) := enumerate_from 0 l.

Abbreviation world := (PyMecSession * filesystem)%type.

Definition on_session {A} (m : M PyMecSession A) : M world A :=
  fun w => let '(r, s) := m w.1 in (r, (s, w.2)).

Definition on_disk {A} (m : M filesystem A) : M world A :=
  fun w => let '(r, fs) := m w.2 in (r, (w.1, fs)).

Module Session.

(** [PyMecSession()] *)
Definition __init__ : PyMecSession :=
  mkSession [] {[ "pyMec version" := VStr "0.0.1" ]} ∅.

(** [self.__header[key]] *)
Definition header_getitem (key : string) : M PyMecSession value :=
  s ← get;
  match header s !! key with
  | Some v => ret v
  | None => raise (KeyError key)
  end.

(** [self.__header[key] = v] *)
Definition header_setitem (key : string) (v : value) : M PyMecSession unit :=
  s ← get;
  put (mkSession (workspace s) (header_common s) (<[key := v]> (header s))).

(** The [header] setter and deleter. *)
Definition set_header (v : gmap string value) : M PyMecSession unit :=
  s ← get; put (mkSession (workspace s) (header_common s) v).

Definition del_header : M PyMecSession unit :=
  s ← get; put (mkSession (workspace s) (header_common s) ∅).

Definition set_workspace (ws : list Object) : M PyMecSession unit :=
  s ← get; put (mkSession ws (header_common s) (header s)).

Definition append (obj : value) : M PyMecSession unit :=
  match obj with
  | VObject o =>
      s ← get; set_workspace (workspace s ++ [o])
  | _ => raise (TypeError "can't add non-PyMecObject to workspace")
  end.

(** The loop of [search_by_uid] over [enumerate(self.__workspace)]; [None]
    is Python's [None]. *)
Fixpoint search_uid_loop (uid : string) (l : list (nat * Object))
  : option (list (Object * nat)) :=
  match l with
  | [] => None
  | (i, obj) :: l' =>
      if decide (uid_of obj = uid) then Some [(obj, i)]
      else search_uid_loop uid l'
  end.

Definition search_by_uid (uid : string) (s : PyMecSession)
  : option (list (Object * nat)) :=
  search_uid_loop uid (enumerate (workspace s)).

(** [self.__workspace.pop(i)], for an index that is not negative. *)
Definition pop (i : nat) : M PyMecSession Object :=
  s ← get;
  match workspace s !! i with
  | Some x => set_workspace (delete i (workspace s));; ret x
  | None => raise (IndexError "pop index out of range")
  end.

Definition delete (obj : Object) : M PyMecSession unit :=
  s ← get;
  match search_by_uid (uid_of obj) s with
  | None => raise (TypeError "'NoneType' object is not subscriptable")
  | Some result =>
      r ← lift (getitem result 0);
      pop r.2;; ret tt
  end.

Definition wipe_workspace : M PyMecSession unit := set_workspace [].

Definition add_to_header (h : gmap string value) : M PyMecSession unit :=
  s ← get; set_header (h ∪ header s).

Section Search.
(** [fuzz.ratio] of the fuzzywuzzy package. *)
Variable ratio : string -> string -> Z.

(** [[(x, i) for i, x in enumerate(ws) if scores[i] == best]] *)
Fixpoint select (scores : list Z) (best : Z) (l : list (nat * Object))
  : result (list (Object * nat)) :=
  match l with
  | [] => Return []
  | (i, x) :: l' =>
      sc ← getitem scores i;
      rest ← select scores best l';
      Return (if (sc =? best)%Z then (x, i) :: rest else rest)
  end.

Definition search_by_name (name : string) (s : PyMecSession)
  : result (list (Object * nat)) :=
  let scores := map (fun obj => ratio (name_of obj) name) (workspace s) in
  best ← py_max scores;
  if (best <? 70)%Z then Return []
  else select scores best (enumerate (workspace s)).
End Search.

(** [filename] when it is given, as a path, and the header's entry
    otherwise. *)
Definition resolve (filename : option string) : M PyMecSession value :=
  match filename with
  | None => header_getitem "filename"
  | Some f => ret (VPath (Path f))
  end.

(** [now] is the value of [datetime.now()] during the call. *)
Definition save_to_file (now : Z) (filename : option string) (overwrite : bool)
  : M world unit :=
  filepath ← on_session (resolve filename);
  on_session (header_setitem "filename" filepath);;
  on_session (header_setitem "savedate" (VDatetime now));;
  match filepath with
  | VPath p =>
      fs ← on_disk get;
      if exists_ fs p && negb overwrite
      then raise (FileExistsError
             ("File '" ++ path_str p ++ "' already exist. Set overwrite to True to overwrite"))
      else
        on_disk (mkdir (parent p));;
        s ← on_session get;
        on_disk (dump p (Saved (header_common s) (header s) (workspace s)))
  | _ => raise (AttributeError "exists")
  end.

(** [open(filepath, 'br')] accepts a path or a string. *)
Definition openable (filepath : value) : result path :=
  match filepath with
  | VPath p => Return p
  | VStr f => Return (Path f)
  | _ => Raise (TypeError "expected str, bytes or os.PathLike object")
  end.

Definition load_file (filename : option string) (overwrite : bool)
  : M world unit :=
  s ← on_session get;
  if truth (workspace s) && negb overwrite
  then raise (FileExistsError "Workspace is not empty. Set overwrite to True to overwrite")
  else
    filepath ← on_session (resolve filename);
    p ← lift (openable filepath);
    loaded ← on_disk (load p);
    if negb (len loaded =? 3)%nat
    then raise (TypeError "Loaded file is not in the appropriate format.")
    else
      match loaded with
      | Saved hc h ws => on_session (put (mkSession ws hc h))
      | Other _ _ => raise (TypeError "Loaded file is not in the appropriate format.")
      end.

End Session.

(** ** Contours *)

Module Contour.

Definition __init__ (u : string) (name : string) : Contour :=
  mkContour (mkPyMecObject u name) [].

Definition add_segment (self : Contour) (segment : Segment) : Contour :=
  mkContour (contour_object self) (segments self ++ [segment]).

(** Two points coincide when their positions are equal vectors. *)
Definition same_point (p q : Point) : bool :=
  Vector.__eq__ (position p) (position q).

(** Walking the segments [l] in order: each end meets the start of the
    following segment, and the end of the last one meets the start of
    [first]. *)
Fixpoint walk (first : Segment) (l : list Segment) : bool :=
  match l with
  | [] => true
  | s :: l' =>
      match l' with
      | [] => same_point (end_ s) (start first)
      | s' :: _ => same_point (end_ s) (start s') && walk first l'
      end
  end.

(** Modelled from the spec: [Contour.is_closed], which the tests call and
    geometry.py does not define.  A contour of fewer than 3 segments is never
    closed; otherwise it is closed when the walk over its segments, wrapping
    from the last segment back to the first, finds each end point equal to
    the next start point. *)
Definition is_closed (self : Contour) : bool :=
  match segments self with
  | [] => false
  | first :: _ => (3 <=? length (segments self))%nat && walk first (segments self)
  end.

End Contour.

(** ** The parallelogram factory *)

(** [parallelogram(corner, vect_1, vect_2, name)]: objects 0 and 1 are those
    of the default corner, 2 and 3 the default vectors, 4 the contour; the
    three corners built by sums start at 5, 8 (the sum [corner + vect_1]
    inside [c_3], then [c_3] itself at 11) and 14, and the four segments at
    17, 22, 27 and 32. *)
Definition parallelogram (uuid4 : nat -> string) (corner : option Point)
  (vect_1 vect_2 : option Vector) (name : string) : result Contour :=
  corner ← match corner with
           | Some p => Return p
           | None => Point.__init__ uuid4 VNone ""
           end;
  vect_1 ← match vect_1 with
           | Some v => Return v
           | None => Vector.__init__ (uuid4 2%nat) [] ""
           end;
  vect_2 ← match vect_2 with
           | Some v => Return v
           | None => Vector.__init__ (uuid4 3%nat) [] ""
           end;
  let ret := Contour.__init__ (uuid4 4%nat) name in
  let c_1 := corner in
  c_2 ← Point.__add__ (shift 5 uuid4) corner (VObject (OVector vect_1));
  c_12 ← Point.__add__ (shift 8 uuid4) corner (VObject (OVector vect_1));
  c_3 ← Point.__add__ (shift 11 uuid4) c_12 (VObject (OVector vect_2));
  c_4 ← Point.__add__ (shift 14 uuid4) corner (VObject (OVector vect_2));
  s_1 ← Segment.__init__ (shift 17 uuid4) (Some c_1) (Some c_2) "";
  let ret := Contour.add_segment ret s_1 in
  s_2 ← Segment.__init__ (shift 22 uuid4) (Some c_2) (Some c_3) "";
  let ret := Contour.add_segment ret s_2 in
  s_3 ← Segment.__init__ (shift 27 uuid4) (Some c_3) (Some c_4) "";
  let ret := Contour.add_segment ret s_3 in
  s_4 ← Segment.__init__ (shift 32 uuid4) (Some c_4) (Some c_1) "";
  let ret := Contour.add_segment ret s_4 in
  Return ret.

(** * Vocabulary of the statements and of the proofs *)

(** [best] is the maximum of the scores of the objects of [ws]. *)
Definition is_best (score : Object -> Z) (ws : list Object) (best : Z) : Prop :=
  (forall x, x ∈ ws -> score x <= best) /\ (exists x, x ∈ ws /\ score x = best).

(** Unfolding one layer of the state monad. *)
Ltac monad_unfold :=
  unfold mbind, mret, M_bind, M_ret, result_bind, result_ret, bind, rbind,
    get, put, ret, raise, lift, on_session, on_disk in *.

(** A call of one of the session's public operations. *)
Inductive call :=
| Append (obj : value)
| Delete (obj : Object)
| WipeWorkspace
| AddToHeader (h : gmap string value)
| SetHeader (h : gmap string value)
| DelHeader
| SaveToFile (now : Z) (filename : option string) (overwrite : bool)
| LoadFile (filename : option string) (overwrite : bool).

(** The call on the session and the disk. *)
Definition exec (c : call) : M world unit :=
  match c with
  | Append obj => on_session (Session.append obj)
  | Delete obj => on_session (Session.delete obj)
  | WipeWorkspace => on_session Session.wipe_workspace
  | AddToHeader h => on_session (Session.add_to_header h)
  | SetHeader h => on_session (Session.set_header h)
  | DelHeader => on_session Session.del_header
  | SaveToFile now filename overwrite => Session.save_to_file now filename overwrite
  | LoadFile filename overwrite => Session.load_file filename overwrite
  end.

(** The state after a sequence of calls; a call that raises leaves the state
    it reached and the next call goes on from there. *)
Definition run (cs : list call) (w : world) : world :=
  fold_left (fun w c => (exec c w).2) cs w.

Definition uids (s : PyMecSession) : list string := map uid_of (workspace s).

(** Every object appended during the run has a uid that the workspace does not
    hold at that moment. *)
Fixpoint appends_fresh (cs : list call) (w : world) : Prop :=
  match cs with
  | [] => True
  | c :: cs' =>
      match c with
      | Append (VObject o) => uid_of o ∉ uids w.1
      | _ => True
      end /\ appends_fresh cs' (exec c w).2
  end.

(** Every workspace saved on the disk has distinct uids. *)
Definition disk_distinct (fs : filesystem) : Prop :=
  forall p hc h ws, fs !! p = Some (File (Saved hc h ws)) -> NoDup (map uid_of ws).

(** Case analysis on the next test of a computation. *)
Ltac case_step :=
  match goal with
  | |- context [match ?x with _ => _ end] =>
      lazymatch x with
      | context [match _ with _ => _ end] => fail
      | _ => first [is_var x; destruct x | destruct x eqn:?]
      end
  end; cbn [fst snd] in *.

(** Distinct uids in the workspace and in every saved workspace. *)
Definition distinct (w : world) : Prop :=
  NoDup (uids w.1) /\ disk_distinct w.2.


(** [m * 2^k] on positive numbers. *)
Definition pshl (k : nat) (m : positive) : positive := Nat.iter k xO m.

(** Equal, or two zeros of any signs. *)
Definition SFsim (x y : spec_float) : Prop :=
  x = y \/ exists s s', x = S754_zero s /\ y = S754_zero s'.

(** The float of the integer [z], as [float(z)] computes it. *)
Definition SF_of_Z (z : Z) : spec_float := binary_normalize prec emax z 0 false.

(** The number of low zero bits of the mantissa of a float that holds the
    integer [n] of at most 53 bits. *)
Definition padding (n : positive) : nat := Z.to_nat (53 - Z.pos (digits2_pos n)).

(** The float of sign [s] that holds the integer [n]. *)
Definition SF_int (s : bool) (n : positive) : spec_float :=
  S754_finite s (pshl (padding n) n) (- Z.of_nat (padding n)).

(** [x] holds the integer [z]: it is the float of [z], or the negative zero
    when [z] is zero. *)
Definition holds (z : Z) (x : spec_float) : Prop :=
  x = SF_of_Z z \/ (z = 0 /\ x = S754_zero true).

Definition float_holds (z : Z) (f : float) : Prop := holds z (Prim2SF f).

(** The coordinates of [v] hold the integers [zs]. *)
Definition integral (zs : list Z) (v : Vector) : Prop :=
  Forall2 float_holds zs (coordinates v).

(** One step of [mkdir]: after [m], make the directory [q] of the path to
    [d]. *)
Definition mkdir_step (d : path) (m : M filesystem unit) (q : path)
  : M filesystem unit :=
  m;;
  fs ← get;
  match node_at fs q with
  | Some Dir => ret tt
  | Some (File _) =>
      if decide (q = d)
      then raise (FileExistsError (path_str q))
      else raise (NotADirectoryError d)
  | None => put (<[q := Dir]> fs)
  end.

(** The first step of [binary_round]: the mantissa brought to the exponent
    of the format, with the bits shifted out. *)
Definition aligned (m : positive) (e : Z) : shr_record * Z :=
  let '(mz, ez) :=
    shl_align m e (fexp prec emax (Z.pos (digits2_pos m) + e)) in
  shr_fexp prec emax (Z.pos mz) ez loc_Exact.

(** The value of a finite float counted in units of [2^-1074], the smallest
    positive float: an integer. *)
Definition SFunits (x : spec_float) : Z :=
  match x with
  | S754_finite s m e => cond_Zopp s (Z.pos m * 2 ^ (e + 1074))
  | _ => 0
  end.

Definition units (f : float) : Z := SFunits (Prim2SF f).

(** [a] and [b] are parallel: their coordinates are finite and one vector
    is a scalar multiple of the other, the zero vector included.  With
    integers [k] and [l], not both zero, [k * a = l * b] says that [b] is
    [k / l] times [a] when [l] is not zero and that [a] is [l / k] times [b]
    when [k] is not zero; a real factor between two vectors of floats, one of
    them not zero, is such a quotient. *)
Definition parallel (a b : Vector) : Prop :=
  Forall (fun c => is_finite c = true) (coordinates a) /\
  Forall (fun c => is_finite c = true) (coordinates b) /\
  exists k l : Z,
    (k <> 0 \/ l <> 0) /\
    map (fun c => k * units c) (coordinates a)
    = map (fun c => l * units c) (coordinates b).


(** * Properties *)

(** ** Searching by name *)

(** C10: on a session whose workspace is empty, [search_by_name] raises the
    ValueError of [max] on an empty sequence, whatever the name searched and
    whatever the scoring function; it does not return an empty result. *)
Theorem search_by_name_empty_raises
  (ratio : string -> string -> Z) (s : PyMecSession) (name : string) :
  workspace s = [] ->
  Session.search_by_name ratio name s
  = Raise (ValueError "max() arg is an empty sequence").
Proof.
  intros Hws. unfold Session.search_by_name. rewrite Hws. reflexivity.
Qed.

Lemma search_by_name_empty_raises_witness :
  Session.search_by_name (fun _ _ => 100) "Object_2" Session.__init__
  = Raise (ValueError "max() arg is an empty sequence").
Proof.
  apply search_by_name_empty_raises. reflexivity.
Defined.

(** [fold_left Z.max] computes an upper bound that is attained. *)
Lemma fold_max_ge (l : list Z) (x : Z) :
  x <= fold_left Z.max l x /\ Forall (fun y => y <= fold_left Z.max l x) l.
Proof.
  revert x. induction l as [|y l IH]; intros x; simpl.
  - split; [lia | constructor].
  - destruct (IH (Z.max x y)) as [H1 H2]. split; [lia|].
    constructor; [lia | exact H2].
Qed.

Lemma fold_max_attained (l : list Z) (x : Z) :
  fold_left Z.max l x = x \/ fold_left Z.max l x ∈ l.
Proof.
  revert x. induction l as [|y l IH]; intros x; simpl.
  - now left.
  - destruct (IH (Z.max x y)) as [H | H].
    + rewrite H. destruct (Z.max_spec x y) as [[_ ->] | [_ ->]].
      * right. constructor.
      * now left.
    + right. now constructor.
Qed.

Lemma lookup_map {A B} (f : A -> B) (l : list A) (i : nat) :
  map f l !! i = f <$> l !! i.
Proof.
  revert i. induction l as [|x l IH]; intros [|i]; simpl; auto.
Qed.

Lemma py_max_scores (score : Object -> Z) (ws : list Object) :
  ws <> [] ->
  exists best, py_max (map score ws) = Return best /\ is_best score ws best.
Proof.
  destruct ws as [|x ws]; [congruence|]. intros _. simpl.
  eexists; split; [reflexivity|].
  destruct (fold_max_ge (map score ws) (score x)) as [Hx Hall].
  split.
  - intros y Hy. apply elem_of_cons in Hy as [-> | Hy]; [exact Hx|].
    rewrite Forall_forall in Hall. apply Hall.
    apply list_elem_of_In, in_map. now apply list_elem_of_In.
  - destruct (fold_max_attained (map score ws) (score x)) as [H | H].
    + exists x. split; [constructor | now rewrite H].
    + apply list_elem_of_In, in_map_iff in H as (y & Hy1 & Hy2).
      exists y. split; [constructor; now apply list_elem_of_In | exact Hy1].
Qed.

(** The comprehension of [search_by_name] on the part [ws] of the workspace
    that starts at index [k]: it does not raise, and it keeps, in order, the
    entries whose score is [best]. *)
Lemma select_spec (score : Object -> Z) (scores : list Z) (best : Z)
  (ws : list Object) (k : nat) :
  (forall j x, ws !! j = Some x -> scores !! (k + j)%nat = Some (score x)) ->
  exists r,
    Session.select scores best (enumerate_from k ws) = Return r /\
    (forall x i, (x, i) ∈ r <->
       exists j, i = (k + j)%nat /\ ws !! j = Some x /\ score x = best) /\
    Forall (fun p => (k <= p.2)%nat) r /\
    StronglySorted lt (map snd r).
Proof.
  revert k. induction ws as [|x ws IH]; intros k Hsc.
  - exists []. simpl. repeat split.
    + intros H. inversion H.
    + intros (j & _ & H & _). discriminate.
    + constructor.
    + constructor.
  - destruct (IH (S k)) as (r & Hr & Hin & Hge & Hsorted).
    { intros j y Hj. replace (S k + j)%nat with (k + S j)%nat by lia.
      now apply Hsc. }
    simpl. unfold getitem.
    specialize (Hsc 0%nat x eq_refl) as H0. rewrite Nat.add_0_r in H0.
    rewrite H0. simpl. rewrite Hr. simpl.
    destruct (Z.eqb_spec (score x) best) as [Heq | Hne].
    + exists ((x, k) :: r). repeat split.
      * intros H. apply elem_of_cons in H as [H | H].
        -- inversion H; subst. exists 0%nat. repeat split; auto.
        -- apply Hin in H as (j & -> & Hj & Hb). exists (S j).
           repeat split; auto; lia.
      * intros (j & -> & Hj & Hb). destruct j as [|j].
        -- simpl in Hj. inversion Hj; subst. rewrite Nat.add_0_r. constructor.
        -- apply elem_of_cons. right. apply Hin. exists j.
           repeat split; auto; lia.
      * constructor; [simpl; lia|].
        eapply Forall_impl; [exact Hge|]. simpl. intros; lia.
      * simpl. constructor; [exact Hsorted|].
        apply Forall_map. eapply Forall_impl; [exact Hge|]. simpl. intros; lia.
    + exists r. repeat split.
      * intros H. apply Hin in H as (j & -> & Hj & Hb). exists (S j).
        repeat split; auto; lia.
      * intros (j & -> & Hj & Hb). destruct j as [|j].
        -- simpl in Hj. inversion Hj; subst. contradiction.
        -- apply Hin. exists j. repeat split; auto; lia.
      * eapply Forall_impl; [exact Hge|]. simpl. intros; lia.
      * exact Hsorted.
Qed.

(** C4: on a session whose workspace is not empty, [search_by_name] returns a
    list (it does not raise).  With [best] the maximum of the scores of the
    workspace objects' names against the query: the list is empty when
    [best < 70]; otherwise it holds exactly the pairs (object, index) of the
    workspace entries whose score is [best], ties included, by increasing
    index, that is in workspace order. *)
Theorem search_by_name_spec
  (ratio : string -> string -> Z) (s : PyMecSession) (name : string) :
  workspace s <> [] ->
  exists best r,
    is_best (fun x => ratio (name_of x) name) (workspace s) best /\
    Session.search_by_name ratio name s = Return r /\
    (best < 70 -> r = []) /\
    (70 <= best ->
       (forall x i, (x, i) ∈ r <->
          workspace s !! i = Some x /\ ratio (name_of x) name = best) /\
       StronglySorted lt (map snd r)).
Proof.
  intros Hne. set (score := fun x => ratio (name_of x) name).
  destruct (py_max_scores score (workspace s) Hne) as (best & Hmax & Hbest).
  destruct (select_spec score (map score (workspace s)) best (workspace s) 0)
    as (r & Hr & Hin & _ & Hsorted).
  { intros j x Hj. simpl. rewrite lookup_map, Hj. reflexivity. }
  unfold Session.search_by_name. fold score. rewrite Hmax. simpl.
  destruct (Z.ltb_spec best 70) as [Hlt | Hge].
  - exists best, []. split; [exact Hbest|]. split; [reflexivity|].
    split; [reflexivity | lia].
  - exists best, r. split; [exact Hbest|]. split; [exact Hr|].
    split; [lia|]. intros _. split; [|exact Hsorted].
    intros x i. rewrite Hin. split.
    + intros (j & -> & Hj & Hb). auto.
    + intros [Hi Hb]. exists i. auto.
Qed.

Lemma search_by_name_spec_witness :
  exists best r,
    is_best (fun x => (if String.eqb (name_of x) "Object_2" then 100 else 0))
      [OPyMecObject (mkPyMecObject "u1" "Object_1");
       OPyMecObject (mkPyMecObject "u2" "Object_2")] best /\
    Session.search_by_name (fun a b => if String.eqb a b then 100 else 0)
      "Object_2"
      (mkSession [OPyMecObject (mkPyMecObject "u1" "Object_1");
                  OPyMecObject (mkPyMecObject "u2" "Object_2")] ∅ ∅)
    = Return r /\
    (best < 70 -> r = []) /\
    (70 <= best ->
       (forall x i, (x, i) ∈ r <->
          [OPyMecObject (mkPyMecObject "u1" "Object_1");
           OPyMecObject (mkPyMecObject "u2" "Object_2")] !! i = Some x /\
          (if String.eqb (name_of x) "Object_2" then 100 else 0) = best) /\
       StronglySorted lt (map snd r)).
Proof.
  apply (search_by_name_spec (fun a b => if String.eqb a b then 100 else 0)
           (mkSession [OPyMecObject (mkPyMecObject "u1" "Object_1");
                       OPyMecObject (mkPyMecObject "u2" "Object_2")] ∅ ∅)
           "Object_2").
  simpl. discriminate.
Defined.

(** ** Deleting an object *)

(** [search_by_uid] finds the first entry with the uid searched. *)
Lemma search_uid_loop_found (u : string) (l1 l2 : list Object) (x : Object) (k : nat) :
  uid_of x = u ->
  (forall y, y ∈ l1 -> uid_of y <> u) ->
  Session.search_uid_loop u (enumerate_from k (l1 ++ x :: l2))
  = Some [(x, (k + length l1)%nat)].
Proof.
  intros Hx. revert k. induction l1 as [|y l1 IH]; intros k Hl1; simpl.
  - rewrite decide_True by exact Hx. now rewrite Nat.add_0_r.
  - rewrite decide_False by (apply Hl1; constructor).
    rewrite IH by (intros z Hz; apply Hl1; now constructor).
    do 3 f_equal. lia.
Qed.

Lemma search_uid_loop_absent (u : string) (l : list Object) (k : nat) :
  (forall y, y ∈ l -> uid_of y <> u) ->
  Session.search_uid_loop u (enumerate_from k l) = None.
Proof.
  revert k. induction l as [|y l IH]; intros k Hl; simpl; [reflexivity|].
  rewrite decide_False by (apply Hl; constructor).
  apply IH. intros z Hz. apply Hl. now constructor.
Qed.

Lemma delete_middle {A} (l1 l2 : list A) (x : A) :
  base.delete (List.length l1) (l1 ++ x :: l2) = l1 ++ l2.
Proof.
  induction l1 as [|y l1 IH]; simpl; [reflexivity | now rewrite IH].
Qed.

(** C8: when some workspace entry has the uid of [obj], [delete] removes the
    first such entry and leaves the others in their order; when none has, it
    fails and leaves the session as it was.  The failure is the TypeError
    raised by subscripting the [None] that [search_by_uid] returned. *)
Theorem delete_spec (s : PyMecSession) (obj : Object) :
  (forall l1 x l2,
     workspace s = l1 ++ x :: l2 ->
     uid_of x = uid_of obj ->
     (forall y, y ∈ l1 -> uid_of y <> uid_of obj) ->
     Session.delete obj s
     = (Return tt, mkSession (l1 ++ l2) (header_common s) (header s)))
  /\
  ((forall y, y ∈ workspace s -> uid_of y <> uid_of obj) ->
   Session.delete obj s
   = (Raise (TypeError "'NoneType' object is not subscriptable"), s)).
Proof.
  split.
  - intros l1 x l2 Hws Hx Hl1.
    unfold Session.delete, Session.search_by_uid, enumerate.
    monad_unfold. rewrite Hws.
    rewrite (search_uid_loop_found _ l1 l2 x 0 Hx Hl1).
    unfold getitem, Session.pop, Session.set_workspace. monad_unfold.
    cbn. rewrite Hws.
    rewrite list_lookup_middle by reflexivity.
    now rewrite delete_middle.
  - intros Habs.
    unfold Session.delete, Session.search_by_uid, enumerate.
    monad_unfold.
    now rewrite (search_uid_loop_absent _ _ 0 Habs).
Qed.

Lemma delete_spec_witness :
  Session.delete (OPyMecObject (mkPyMecObject "u2" "to be deleted"))
    (mkSession [OPyMecObject (mkPyMecObject "u1" "");
                OPyMecObject (mkPyMecObject "u2" "to be deleted");
                OPyMecObject (mkPyMecObject "u3" "");
                OPyMecObject (mkPyMecObject "u2" "again")] ∅ ∅)
  = (Return tt,
     mkSession [OPyMecObject (mkPyMecObject "u1" "");
                OPyMecObject (mkPyMecObject "u3" "");
                OPyMecObject (mkPyMecObject "u2" "again")] ∅ ∅)
  /\
  Session.delete (OPyMecObject (mkPyMecObject "u2" "to be deleted"))
    (mkSession [OPyMecObject (mkPyMecObject "u1" "")] ∅ ∅)
  = (Raise (TypeError "'NoneType' object is not subscriptable"),
     mkSession [OPyMecObject (mkPyMecObject "u1" "")] ∅ ∅).
Proof.
  split.
  - apply (proj1 (delete_spec
       (mkSession [OPyMecObject (mkPyMecObject "u1" "");
                   OPyMecObject (mkPyMecObject "u2" "to be deleted");
                   OPyMecObject (mkPyMecObject "u3" "");
                   OPyMecObject (mkPyMecObject "u2" "again")] ∅ ∅)
       (OPyMecObject (mkPyMecObject "u2" "to be deleted")))
       [OPyMecObject (mkPyMecObject "u1" "")]
       (OPyMecObject (mkPyMecObject "u2" "to be deleted"))
       [OPyMecObject (mkPyMecObject "u3" "");
        OPyMecObject (mkPyMecObject "u2" "again")]).
    + reflexivity.
    + reflexivity.
    + intros y Hy. apply list_elem_of_singleton in Hy. subst y. discriminate.
  - apply (proj2 (delete_spec
       (mkSession [OPyMecObject (mkPyMecObject "u1" "")] ∅ ∅)
       (OPyMecObject (mkPyMecObject "u2" "to be deleted")))).
    intros y Hy. apply list_elem_of_singleton in Hy. subst y. discriminate.
Defined.

(** ** Saving and loading *)

(** C3: on a session whose workspace is not empty, [load_file] without
    [overwrite] raises the FileExistsError that reports a workspace that is
    not empty, and leaves the session (common header, header and workspace)
    and the disk as they were: the guard comes before any file is read. *)
Theorem load_file_guard (s : PyMecSession) (fs : filesystem)
  (filename : option string) :
  workspace s <> [] ->
  Session.load_file filename false (s, fs)
  = (Raise (FileExistsError
       "Workspace is not empty. Set overwrite to True to overwrite"), (s, fs)).
Proof.
  intros Hne. unfold Session.load_file. monad_unfold. simpl.
  destruct (workspace s) as [|x ws]; [congruence | reflexivity].
Qed.

Lemma load_file_guard_witness :
  Session.load_file (Some "test_save_load.pymec"%string) false
    (mkSession [OPyMecObject (mkPyMecObject "u1" "an object")] ∅ ∅, ∅)
  = (Raise (FileExistsError
       "Workspace is not empty. Set overwrite to True to overwrite"),
     (mkSession [OPyMecObject (mkPyMecObject "u1" "an object")] ∅ ∅, ∅)).
Proof.
  apply load_file_guard. simpl. discriminate.
Defined.

(** What [save_to_file] does when the target exists and [overwrite] is false:
    it raises FileExistsError after it has written [filename] and [savedate]
    into the header. *)
Lemma save_to_file_existing (s : PyMecSession) (fs : filesystem)
  (now : Z) (filename : string) :
  exists_ fs (Path filename) = true ->
  Session.save_to_file now (Some filename) false (s, fs)
  = (Raise (FileExistsError
       ("File '" ++ path_str (Path filename)
        ++ "' already exist. Set overwrite to True to overwrite")),
     (mkSession (workspace s) (header_common s)
        (<["savedate"%string := VDatetime now]>
           (<["filename"%string := VPath (Path filename)]> (header s))),
      fs)).
Proof.
  intros Hex. unfold Session.save_to_file, Session.resolve,
    Session.header_setitem.
  monad_unfold. simpl. rewrite Hex. reflexivity.
Qed.

(** C1 fails on the code.  A session with an empty header saves to a path
    where a file lies, without [overwrite]: the call raises FileExistsError,
    and the header, which had no [savedate] and no [filename], has both after
    the call. *)
Theorem save_to_file_existing_changes_header :
  let fs : filesystem := {[ ["a.pymec"%string] := File (Saved ∅ ∅ []) ]} in
  let out := Session.save_to_file 7 (Some "a.pymec"%string) false
               (Session.__init__, fs) in
  out.1 = Raise (FileExistsError
            "File 'a.pymec' already exist. Set overwrite to True to overwrite")
  /\ header Session.__init__ !! "savedate"%string = None
  /\ header Session.__init__ !! "filename"%string = None
  /\ header out.2.1 !! "savedate"%string = Some (VDatetime 7)
  /\ header out.2.1 !! "filename"%string = Some (VPath ["a.pymec"%string]).
Proof.
  cbv zeta. rewrite save_to_file_existing by reflexivity.
  repeat split.
Qed.

(** A computation that returns has gone through each of its steps. *)
Lemma bind_Return {S A B} (m : M S A) (k : A -> M S B) (s s'' : S) (b : B) :
  (m ≫= k) s = (Return b, s'') ->
  exists a s', m s = (Return a, s') /\ k a s' = (Return b, s'').
Proof.
  monad_unfold. destruct (m s) as [[a|e] s']; [eauto | discriminate].
Qed.

Lemma on_session_Return {A} (m : M PyMecSession A) (w w' : world) (a : A) :
  on_session m w = (Return a, w') ->
  m w.1 = (Return a, w'.1) /\ w'.2 = w.2.
Proof.
  unfold on_session. destruct (m w.1) as [r s]. now intros [= -> <-].
Qed.

Lemma on_disk_Return {A} (m : M filesystem A) (w w' : world) (a : A) :
  on_disk m w = (Return a, w') ->
  m w.2 = (Return a, w'.2) /\ w'.1 = w.1.
Proof.
  unfold on_disk. destruct (m w.2) as [r s]. now intros [= -> <-].
Qed.

(** A successful [dump] leaves the content at the path. *)
Lemma dump_success (p : path) (c : unpickled) (fs fs' : filesystem) :
  dump p c fs = (Return tt, fs') ->
  node_at fs' p = Some (File c).
Proof.
  unfold dump. monad_unfold. destruct p as [|a p]; [discriminate|].
  assert (Hins : node_at (<[a :: p := File c]> fs) (a :: p) = Some (File c))
    by apply lookup_insert_eq.
  destruct (node_at fs (a :: p)) as [[c0|]|]; try discriminate;
    destruct (node_at fs (parent (a :: p))) as [[c1|]|]; try discriminate;
    try (destruct (existsb _ _); discriminate);
    now intros [= <-].
Qed.

Lemma resolve_Return (filename : option string) (s s' : PyMecSession) (v : value) :
  Session.resolve filename s = (Return v, s') ->
  s' = s /\
  match filename with
  | Some f => v = VPath (Path f)
  | None => header s !! "filename"%string = Some v
  end.
Proof.
  unfold Session.resolve, Session.header_getitem. monad_unfold.
  destruct filename as [f|].
  - now intros [= <- <-].
  - destruct (header s !! "filename"%string) as [v'|]; [|discriminate].
    now intros [= <- <-].
Qed.

(** A successful [save_to_file] has written the header entries, leaves the
    workspace and the common header alone, and leaves on the disk, at the
    path it recorded, the three parts of the session. *)
Lemma save_to_file_success (s s' : PyMecSession) (fs fs' : filesystem)
  (now : Z) (filename : option string) (overwrite : bool) :
  Session.save_to_file now filename overwrite (s, fs) = (Return tt, (s', fs')) ->
  exists p,
    header s' = <["savedate"%string := VDatetime now]>
                  (<["filename"%string := VPath p]> (header s)) /\
    workspace s' = workspace s /\
    header_common s' = header_common s /\
    node_at fs' p = Some (File (Saved (header_common s') (header s') (workspace s'))) /\
    match filename with
    | Some f => p = Path f
    | None => header s !! "filename"%string = Some (VPath p)
    end.
Proof.
  unfold Session.save_to_file. intros H.
  apply bind_Return in H as (v & [s1 fs1] & H1 & H).
  apply on_session_Return in H1 as [H1 Hfs1]. simpl in H1, Hfs1. subst fs1.
  apply resolve_Return in H1 as [-> Hv].
  apply bind_Return in H as ([] & [s2 fs2] & H2 & H).
  apply on_session_Return in H2 as [H2 Hfs2]. simpl in H2, Hfs2. subst fs2.
  apply bind_Return in H as ([] & [s3 fs3] & H3 & H).
  apply on_session_Return in H3 as [H3 Hfs3]. simpl in H3, Hfs3. subst fs3.
  unfold Session.header_setitem in H2, H3. monad_unfold.
  injection H2 as <-. injection H3 as <-.
  destruct v as [|f|p|t|o]; try discriminate.
  cbn [fst snd] in H.
  destruct (exists_ fs p && negb overwrite); [discriminate|].
  cbn [fst snd] in H.
  destruct (mkdir (parent p) fs) as [[[]|e] fs0]; [|discriminate].
  cbn [fst snd] in H.
  destruct (dump p _ fs0) as [[[]|e] fs4] eqn:Hdump; [|discriminate].
  injection H as <- <-. exists p. cbn [header workspace header_common].
  repeat split.
  - exact (dump_success _ _ _ _ Hdump).
  - destruct filename; [now inversion Hv | exact Hv].
Qed.

(** C9: when [save_to_file] succeeds on a session [s], it has recorded a path
    in the header, and [load_file] of that path into a fresh session succeeds
    and yields the workspace of [s], hence the same sequence of uids, the
    common header of [s], and the header of [s] with the [filename] and
    [savedate] entries written by the save: every other key is as in [s]. *)
Theorem save_load_round_trip (s s' : PyMecSession) (fs fs' : filesystem)
  (now : Z) (filename : option string) (overwrite : bool) :
  Session.save_to_file now filename overwrite (s, fs) = (Return tt, (s', fs')) ->
  exists p,
    header s' !! "filename"%string = Some (VPath p) /\
    forall (g : string) (ov : bool),
      Path g = p ->
      exists t,
        Session.load_file (Some g) ov (Session.__init__, fs')
        = (Return tt, (t, fs')) /\
        map uid_of (workspace t) = map uid_of (workspace s) /\
        workspace t = workspace s /\
        header_common t = header_common s /\
        header t = header s' /\
        header t !! "filename"%string = Some (VPath p) /\
        header t !! "savedate"%string = Some (VDatetime now) /\
        (forall k : string,
           k <> "filename"%string -> k <> "savedate"%string ->
           header t !! k = header s !! k).
Proof.
  intros Hsave.
  apply save_to_file_success in Hsave as (p & Hh & Hws & Hhc & Hnode & _).
  exists p. split.
  { rewrite Hh. rewrite lookup_insert_ne by discriminate.
    apply lookup_insert_eq. }
  intros g ov <-.
  exists (mkSession (workspace s') (header_common s') (header s')).
  split.
  { unfold Session.load_file, Session.resolve, Session.openable, load.
    monad_unfold. cbn [fst snd workspace Session.__init__ truth andb].
    rewrite Hnode. reflexivity. }
  cbn [workspace header header_common]. rewrite Hws, Hhc.
  repeat split.
  - rewrite Hh. rewrite lookup_insert_ne by discriminate.
    apply lookup_insert_eq.
  - rewrite Hh. apply lookup_insert_eq.
  - intros k Hk1 Hk2. rewrite Hh.
    rewrite lookup_insert_ne by congruence.
    now rewrite lookup_insert_ne by congruence.
Qed.

Lemma save_load_round_trip_witness :
  let s := mkSession [OPyMecObject (mkPyMecObject "u1" "an object")]
             {[ "pyMec version"%string := VStr "0.0.1" ]}
             {[ "author"%string := VStr "Yann Roth" ]} in
  let out := Session.save_to_file 42 (Some "tests/test_save_load.pymec"%string)
               true (s, ∅) in
  exists p,
    header out.2.1 !! "filename"%string = Some (VPath p) /\
    forall (g : string) (ov : bool),
      Path g = p ->
      exists t,
        Session.load_file (Some g) ov (Session.__init__, out.2.2)
        = (Return tt, (t, out.2.2)) /\
        map uid_of (workspace t) = map uid_of (workspace s) /\
        workspace t = workspace s /\
        header_common t = header_common s /\
        header t = header out.2.1 /\
        header t !! "filename"%string = Some (VPath p) /\
        header t !! "savedate"%string = Some (VDatetime 42) /\
        (forall k : string,
           k <> "filename"%string -> k <> "savedate"%string ->
           header t !! k = header s !! k).
Proof.
  cbv zeta.
  apply (save_load_round_trip _ _ ∅ _ 42
           (Some "tests/test_save_load.pymec"%string) true).
  vm_compute. reflexivity.
Defined.

(** ** Uids of the workspace *)

(** C2 fails on the code: [append] does not look at the uids.  Appending one
    object twice to a new session gives a workspace that holds its uid
    twice. *)
Lemma append_twice_duplicates :
  let o := OPyMecObject (mkPyMecObject "u1" "") in
  uids (run [Append (VObject o); Append (VObject o)] (Session.__init__, ∅)).1
  = ["u1"%string; "u1"%string]
  /\ ~ (forall cs : list call, NoDup (uids (run cs (Session.__init__, ∅)).1)).
Proof.
  cbv zeta. split; [reflexivity|].
  intros H.
  specialize (H [Append (VObject (OPyMecObject (mkPyMecObject "u1" "")));
                 Append (VObject (OPyMecObject (mkPyMecObject "u1" "")))]).
  change (NoDup ["u1"%string; "u1"%string]) in H.
  apply NoDup_cons_1_1 in H. apply H. constructor.
Qed.

Lemma NoDup_map_delete {A B} (f : A -> B) (l : list A) (i : nat) :
  NoDup (map f l) -> NoDup (map f (base.delete i l)).
Proof.
  revert i. induction l as [|x l IH]; intros i H; [destruct i; exact H|].
  simpl in H. apply NoDup_cons in H as [Hx Hl].
  destruct i as [|i]; [exact Hl|].
  change (NoDup (f x :: map f (base.delete i l))).
  apply NoDup_cons. split; [|now apply IH].
  intros Hin. apply Hx. apply list_elem_of_In, in_map_iff in Hin as (y & <- & Hy).
  apply list_elem_of_In, in_map. apply list_elem_of_In.
  apply list_elem_of_In in Hy. exact (list_elem_of_delete_inv _ _ _ Hy).
Qed.

(** [delete] leaves the session as it was or pops one entry. *)
Lemma delete_state (obj : Object) (s : PyMecSession) :
  (Session.delete obj s).2 = s \/
  exists i, (Session.delete obj s).2
            = mkSession (base.delete i (workspace s)) (header_common s) (header s).
Proof.
  unfold Session.delete, Session.pop, Session.set_workspace, getitem.
  monad_unfold.
  destruct (Session.search_by_uid (uid_of obj) s) as [[|[x i] r]|];
    cbn; auto.
  destruct (workspace s !! i); cbn; eauto.
Qed.

(** The directories made by [mkdir] do not change what the files hold. *)
Lemma mkdir_files (d : path) (fs : filesystem) (p : path) (c : unpickled) :
  (mkdir d fs).2 !! p = Some (File c) -> fs !! p = Some (File c).
Proof.
  unfold mkdir.
  assert (Hgen : forall (l : list path) (m : M filesystem unit),
    (forall fs0, (m fs0).2 !! p = Some (File c) -> fs0 !! p = Some (File c)) ->
    forall fs0,
      (fold_left (fun (m : M filesystem unit) (q : path) =>
         m;;
         fs ← get;
         match node_at fs q with
         | Some Dir => ret tt
         | Some (File _) =>
             if decide (q = d)
             then raise (FileExistsError (path_str q))
             else raise (NotADirectoryError d)
         | None => put (<[q := Dir]> fs)
         end) l m fs0).2 !! p = Some (File c) ->
      fs0 !! p = Some (File c)).
  { induction l as [|q l IH]; intros m Hm fs0; [apply Hm|].
    cbn [fold_left]. apply IH. clear fs0. intros fs0.
    monad_unfold. specialize (Hm fs0).
    destruct (m fs0) as [[[]|e] fs1]; cbn [snd] in *; [|exact Hm].
    destruct (node_at fs1 q) as [[c0|]|]; cbn [snd]; try exact Hm.
    - destruct (decide (q = d)); exact Hm.
    - unfold put. cbn [snd]. intros H. apply Hm. destruct (decide (q = p)) as [->|Hne].
      + rewrite lookup_insert_eq in H. discriminate.
      + now rewrite lookup_insert_ne in H by exact Hne. }
  apply Hgen. intros fs0 H. exact H.
Qed.

(** A file found after [dump] was there before or is the one dumped. *)
Lemma dump_files (q : path) (c0 : unpickled) (fs : filesystem)
  (p : path) (c : unpickled) :
  (dump q c0 fs).2 !! p = Some (File c) ->
  fs !! p = Some (File c) \/ c = c0.
Proof.
  unfold dump. monad_unfold.
  assert (Hins : (<[q := File c0]> fs) !! p = Some (File c) ->
                 fs !! p = Some (File c) \/ c = c0).
  { destruct (decide (q = p)) as [->|Hne].
    - rewrite lookup_insert_eq. intros [= ->]. now right.
    - rewrite lookup_insert_ne by exact Hne. now left. }
  destruct (node_at fs q) as [[c1|]|]; cbn [snd]; auto;
    destruct (node_at fs (parent q)) as [[c2|]|]; cbn [snd]; auto;
    destruct (existsb _ _); cbn [snd]; auto.
Qed.

(** [save_to_file], whether it returns or raises, leaves the workspace as it
    was, and a file on the disk afterwards was there before or holds the
    session's workspace. *)
Lemma save_to_file_state (now : Z) (filename : option string) (overwrite : bool)
  (w : world) :
  workspace (Session.save_to_file now filename overwrite w).2.1 = workspace w.1 /\
  forall p c,
    (Session.save_to_file now filename overwrite w).2.2 !! p = Some (File c) ->
    w.2 !! p = Some (File c) \/
    exists hc h, c = Saved hc h (workspace w.1).
Proof.
  destruct w as [s fs].
  unfold Session.save_to_file, Session.resolve, Session.header_getitem,
    Session.header_setitem.
  monad_unfold. cbn [fst snd].
  repeat case_step; cbn [workspace]; auto.
  all: split; [reflexivity|]; intros p0 c0 H0.
  all: try match goal with
    | E : dump ?q ?c ?fs0 = _ |- _ =>
        pose proof (dump_files q c fs0 p0 c0) as Hd; rewrite E in Hd;
        destruct (Hd H0) as [Hd' | ->]; [|eauto]; clear Hd
    end.
  all: try match goal with
    | E : mkdir ?d ?fs0 = _ |- _ =>
        pose proof (mkdir_files d fs0 p0) as Hm; rewrite E in Hm; eauto
    end.
Qed.

(** [load_file] leaves the session as it was or takes its three parts from a
    file of the disk; it does not write on the disk. *)
Lemma load_file_state (filename : option string) (overwrite : bool) (w : world) :
  (Session.load_file filename overwrite w).2.2 = w.2 /\
  ((Session.load_file filename overwrite w).2.1 = w.1 \/
   exists p hc h ws,
     w.2 !! p = Some (File (Saved hc h ws)) /\
     (Session.load_file filename overwrite w).2.1 = mkSession ws hc h).
Proof.
  destruct w as [s fs].
  unfold Session.load_file, Session.resolve, Session.header_getitem,
    Session.openable, load.
  monad_unfold. cbn [fst snd].
  repeat case_step; auto.
  all: repeat match goal with
    | H : (_, _) = (_, _) |- _ => injection H as ? ?; subst
    end; cbn [fst snd]; auto.
  all: split; [reflexivity|]; right.
  all: match goal with
    | H : node_at ?fs ?p = Some (File (Saved ?hc ?h ?ws)) |- _ =>
        exists p, hc, h, ws; split; [|reflexivity];
        destruct p; [discriminate | exact H]
    end.
Qed.

Lemma on_session_state {A} (m : M PyMecSession A) (w : world) :
  (on_session m w).2 = ((m w.1).2, w.2).
Proof.
  unfold on_session. now destruct (m w.1).
Qed.

(** One call keeps the uids distinct, when an object it appends has a uid
    that is not in the workspace. *)
Lemma exec_distinct (c : call) (w : world) :
  distinct w ->
  match c with
  | Append (VObject o) => uid_of o ∉ uids w.1
  | _ => True
  end ->
  distinct (exec c w).2.
Proof.
  intros [Hws Hfs] Hfresh. unfold distinct.
  destruct c as [obj|obj| |h|h| |now filename overwrite|filename overwrite];
    cbn [exec]; rewrite ?on_session_state; cbn [fst snd].
  - destruct obj as [|f|p|t|o]; try (split; [exact Hws | exact Hfs]).
    split; [|exact Hfs]. unfold uids.
    change (workspace (Session.append (VObject o) w.1).2)
      with (workspace w.1 ++ [o]).
    rewrite map_app. apply NoDup_app. split; [exact Hws|]. split.
    + intros u Hu Hu'. cbn in Hu'. apply list_elem_of_singleton in Hu'.
      subst u. now apply Hfresh.
    + cbn. apply NoDup_singleton.
  - split; [|exact Hfs].
    destruct (delete_state obj w.1) as [-> | [i ->]]; [exact Hws|].
    unfold uids. cbn. now apply NoDup_map_delete.
  - split; [|exact Hfs]. cbn. constructor.
  - split; [exact Hws | exact Hfs].
  - split; [exact Hws | exact Hfs].
  - split; [exact Hws | exact Hfs].
  - destruct (save_to_file_state now filename overwrite w) as [Hw Hd].
    split.
    + unfold uids. now rewrite Hw.
    + intros p hc h ws Hp. apply Hd in Hp as [Hp | (hc' & h' & [= _ _ ->])].
      * exact (Hfs _ _ _ _ Hp).
      * exact Hws.
  - destruct (load_file_state filename overwrite w) as [Hd Hs].
    rewrite Hd. split; [|exact Hfs].
    destruct Hs as [-> | (p & hc & h & ws & Hp & ->)]; [exact Hws|].
    exact (Hfs _ _ _ _ Hp).
Qed.

(** C2, amended: along every run of the public operations in which each
    object appended has a uid that the workspace does not hold at that
    moment, started from a session with distinct uids and a disk whose saved
    workspaces have distinct uids, the uids of the workspace stay pairwise
    distinct.  [append] itself adds the object whatever its uid. *)
Theorem uids_distinct_invariant (cs : list call) (w : world) :
  NoDup (uids w.1) ->
  disk_distinct w.2 ->
  appends_fresh cs w ->
  NoDup (uids (run cs w).1).
Proof.
  intros Hws Hfs Hfresh.
  assert (H : distinct (run cs w)); [|exact (proj1 H)].
  assert (Hw : distinct w) by (split; assumption). clear Hws Hfs.
  revert w Hw Hfresh. induction cs as [|c cs IH]; intros w Hw Hfresh.
  - exact Hw.
  - destruct Hfresh as [Hc Hcs]. cbn [run fold_left].
    apply IH; [|exact Hcs]. now apply exec_distinct.
Qed.

Lemma uids_distinct_invariant_witness :
  NoDup (uids (run
    [Append (VObject (OPyMecObject (mkPyMecObject "u1" "")));
     Append (VObject (OPyMecObject (mkPyMecObject "u2" "")));
     SaveToFile 3 (Some "a.pymec"%string) true;
     Delete (OPyMecObject (mkPyMecObject "u1" ""));
     Append (VObject (OPyMecObject (mkPyMecObject "u1" "")));
     WipeWorkspace;
     LoadFile None false]
    (Session.__init__, ∅)).1).
Proof.
  apply uids_distinct_invariant.
  - constructor.
  - intros p hc h ws Hp. cbn [snd] in Hp. rewrite lookup_empty in Hp.
    discriminate.
  - cbn [appends_fresh]. repeat split.
    all: vm_compute; intros H.
    all: repeat (apply elem_of_cons in H as [H | H]; [discriminate H|]).
    all: exact (proj1 (elem_of_nil _) H).
Defined.

(** ** Closed contours *)




(** * Binary64 arithmetic *)

(** ** Commutativity *)

Lemma SFadd_comm (x y : spec_float) : SF64add x y = SF64add y x.
Proof.
  unfold SF64add, SFadd.
  destruct x as [sx|sx| |sx mx ex], y as [sy|sy| |sy my ey];
    try reflexivity; try (destruct sx, sy; reflexivity).
  rewrite (Z.min_comm ey ex). f_equal. apply Z.add_comm.
Qed.

Lemma SFmul_comm (x y : spec_float) : SF64mul x y = SF64mul y x.
Proof.
  unfold SF64mul, SFmul.
  destruct x as [sx|sx| |sx mx ex], y as [sy|sy| |sy my ey];
    try reflexivity; try (destruct sx, sy; reflexivity).
  now rewrite (xorb_comm sy sx), (Pos.mul_comm my mx), (Z.add_comm ey ex).
Qed.

Lemma float_add_comm (x y : float) : (x + y = y + x)%float.
Proof.
  apply Prim2SF_inj. rewrite !FloatAxioms.add_spec. apply SFadd_comm.
Qed.

Lemma float_mul_comm (x y : float) : (x * y = y * x)%float.
Proof.
  apply Prim2SF_inj. rewrite !FloatAxioms.mul_spec. apply SFmul_comm.
Qed.

(** ** Equality *)

Lemma SFeqb_refl (x : spec_float) : x <> S754_nan -> SFeqb x x = true.
Proof.
  unfold SFeqb, SFcompare.
  destruct x as [s|s| |s m e]; try reflexivity; try congruence; intros _.
  - now destruct s.
  - rewrite Z.compare_refl.
    assert (H : Pos.compare_cont Eq m m = Eq) by apply Pos.compare_refl.
    destruct s; now rewrite H.
Qed.

Lemma is_nan_false (x : float) :
  is_nan x = false <-> Prim2SF x <> S754_nan.
Proof.
  unfold is_nan. rewrite FloatAxioms.eqb_spec. split.
  - intros H Hn. rewrite Hn in H. discriminate.
  - intros H. now rewrite (SFeqb_refl _ H).
Qed.

Lemma float_eqb_refl (x : float) : is_nan x = false -> (x =? x)%float = true.
Proof.
  unfold is_nan. now destruct (x =? x)%float.
Qed.

(** ** Rounding a value that needs none *)

Lemma pshl_Z (k : nat) (m : positive) :
  Z.pos (pshl k m) = Z.pos m * 2 ^ Z.of_nat k.
Proof.
  induction k as [|k IH].
  - cbn [pshl Nat.iter nat_rect]. change (Z.of_nat 0) with 0. lia.
  - change (pshl (S k) m) with (xO (pshl k m)).
    rewrite Pos2Z.inj_xO, IH, Nat2Z.inj_succ, Z.pow_succ_r by lia. lia.
Qed.

Lemma pshl_add (j k : nat) (m : positive) : pshl j (pshl k m) = pshl (j + k) m.
Proof.
  unfold pshl. now rewrite Nat.iter_add.
Qed.

Lemma digits2_pshl (k : nat) (m : positive) :
  Z.pos (digits2_pos (pshl k m)) = Z.pos (digits2_pos m) + Z.of_nat k.
Proof.
  induction k as [|k IH].
  - cbn [pshl Nat.iter nat_rect]. change (Z.of_nat 0) with 0. lia.
  - change (pshl (S k) m) with (xO (pshl k m)). cbn [digits2_pos].
    rewrite Pos2Z.inj_succ, IH. lia.
Qed.

Lemma iter_pos_nat {A} (f : A -> A) (p : positive) (x : A) :
  SpecFloat.iter_pos f p x = Nat.iter (Pos.to_nat p) f x.
Proof.
  revert x. induction p as [p IH|p IH|]; intros x; cbn [SpecFloat.iter_pos].
  - rewrite !IH, Pos2Nat.inj_xI.
    replace (S (2 * Pos.to_nat p)) with (Pos.to_nat p + (Pos.to_nat p + 1))%nat
      by lia.
    rewrite !Nat.iter_add. reflexivity.
  - rewrite !IH, Pos2Nat.inj_xO.
    replace (2 * Pos.to_nat p)%nat with (Pos.to_nat p + Pos.to_nat p)%nat by lia.
    now rewrite Nat.iter_add.
  - reflexivity.
Qed.

Lemma shr_1_pshl (k : nat) (m : positive) :
  Nat.iter k shr_1 {| shr_m := Z.pos (pshl k m); shr_r := false; shr_s := false |}
  = {| shr_m := Z.pos m; shr_r := false; shr_s := false |}.
Proof.
  induction k as [|k IH]; [reflexivity|].
  rewrite Nat.iter_succ_r. change (pshl (S k) m) with (xO (pshl k m)).
  cbn [shr_1 orb]. exact IH.
Qed.

Lemma shr_pshl (k : nat) (m : positive) (e : Z) :
  shr {| shr_m := Z.pos (pshl k m); shr_r := false; shr_s := false |} e (Z.of_nat k)
  = ({| shr_m := Z.pos m; shr_r := false; shr_s := false |}, e + Z.of_nat k).
Proof.
  destruct k as [|k].
  - cbn. now rewrite Z.add_0_r.
  - unfold shr. change (Z.of_nat (S k)) with (Z.pos (Pos.of_succ_nat k)).
    cbv iota beta. rewrite iter_pos_nat, SuccNat2Pos.id_succ, shr_1_pshl. reflexivity.
Qed.

Lemma bounded_inv (m : positive) (e : Z) :
  bounded prec emax m e = true ->
  fexp prec emax (Z.pos (digits2_pos m) + e) = e /\ e <= emax - prec.
Proof.
  unfold bounded, canonical_mantissa. rewrite andb_true_iff.
  intros [H1 H2]. split; [now apply Z.eqb_eq | now apply Z.leb_le].
Qed.

(** A mantissa [m * 2^k] at exponent [e - k], where [m] at exponent [e] is a
    float, is rounded to that float. *)
Lemma binary_round_aux_canonical (s : bool) (m : positive) (e : Z) (k : nat) :
  bounded prec emax m e = true ->
  binary_round_aux prec emax s (Z.pos (pshl k m)) (e - Z.of_nat k) loc_Exact
  = S754_finite s m e.
Proof.
  intros Hb. destruct (bounded_inv m e Hb) as [Hfexp Hle].
  unfold binary_round_aux, shr_fexp.
  cbn [Zdigits2 shr_record_of_loc].
  rewrite digits2_pshl.
  replace (Z.pos (digits2_pos m) + Z.of_nat k + (e - Z.of_nat k))
    with (Z.pos (digits2_pos m) + e) by lia.
  rewrite Hfexp.
  replace (e - (e - Z.of_nat k)) with (Z.of_nat k) by lia.
  rewrite shr_pshl.
  cbn [shr_m loc_of_shr_record round_nearest_even Zdigits2 shr_record_of_loc].
  replace (e - Z.of_nat k + Z.of_nat k) with e by lia.
  rewrite Hfexp, Z.sub_diag. cbn [shr shr_m].
  apply Z.leb_le in Hle. now rewrite Hle.
Qed.

(** ** Opposites *)

Lemma SFsim_refl (x : spec_float) : SFsim x x.
Proof. now left. Qed.

Lemma SFsim_sym (x y : spec_float) : SFsim x y -> SFsim y x.
Proof.
  intros [-> | (s & s' & -> & ->)]; [now left | right; eauto].
Qed.

Lemma SFsim_opp (x y : spec_float) : SFsim x y -> SFsim (SFopp x) (SFopp y).
Proof.
  intros [-> | (s & s' & -> & ->)]; [now left | right; cbn; eauto].
Qed.

Lemma SFsim_eqb (x y : spec_float) :
  SFsim x y -> x <> S754_nan -> SFeqb x y = true.
Proof.
  intros [<- | (s & s' & -> & ->)] Hn; [now apply SFeqb_refl | reflexivity].
Qed.

Lemma SFopp_involutive (x : spec_float) : SFopp (SFopp x) = x.
Proof.
  destruct x as [s|s| |s m e]; cbn; now rewrite ?negb_involutive.
Qed.

Lemma binary_round_opp (s : bool) (m : positive) (e : Z) :
  binary_round prec emax (negb s) m e = SFopp (binary_round prec emax s m e).
Proof.
  unfold binary_round.
  destruct (shl_align m e (fexp prec emax (Z.pos (digits2_pos m) + e))) as [mz ez].
  unfold binary_round_aux.
  destruct (shr_fexp prec emax (Z.pos mz) ez loc_Exact) as [mrs' e'].
  destruct (shr_fexp prec emax _ e' loc_Exact) as [mrs'' e''].
  destruct (shr_m mrs'') as [|p|p]; try reflexivity.
  now destruct (e'' <=? emax - prec).
Qed.

Lemma binary_normalize_opp (m e : Z) :
  SFsim (binary_normalize prec emax (- m) e false)
        (SFopp (binary_normalize prec emax m e false)).
Proof.
  destruct m as [|p|p]; cbn [Z.opp binary_normalize].
  - right. cbn. eauto.
  - left. apply (binary_round_opp false).
  - left. rewrite (binary_round_opp false). now rewrite SFopp_involutive.
Qed.

Lemma SFsub_add_opp (x y : spec_float) : SF64sub x y = SF64add x (SFopp y).
Proof.
  unfold SF64sub, SF64add, SFsub, SFadd.
  destruct x as [sx|sx| |sx mx ex], y as [sy|sy| |sy my ey]; cbn [SFopp];
    try reflexivity; destruct sx, sy; reflexivity.
Qed.

Lemma SFopp_add (x y : spec_float) :
  SFsim (SFopp (SF64add x y)) (SF64add (SFopp x) (SFopp y)).
Proof.
  unfold SF64add, SFadd.
  destruct x as [sx|sx| |sx mx ex], y as [sy|sy| |sy my ey]; cbn [SFopp];
    try (solve [apply SFsim_refl]);
    try (solve [destruct sx, sy; cbn; first [apply SFsim_refl | right; eauto]]).
  apply SFsim_sym.
  replace (cond_Zopp (negb sx) (Z.pos (fst (shl_align mx ex (Z.min ex ey)))) +
           cond_Zopp (negb sy) (Z.pos (fst (shl_align my ey (Z.min ex ey)))))
    with (- (cond_Zopp sx (Z.pos (fst (shl_align mx ex (Z.min ex ey)))) +
             cond_Zopp sy (Z.pos (fst (shl_align my ey (Z.min ex ey))))))
    by (destruct sx, sy; cbn [cond_Zopp negb]; lia).
  apply binary_normalize_opp.
Qed.

(** [y - x] is the opposite of [x - y], up to the sign of a zero. *)
Lemma SFsub_swap (x y : spec_float) :
  SFsim (SF64sub y x) (SFopp (SF64sub x y)).
Proof.
  rewrite !SFsub_add_opp, SFadd_comm. apply SFsim_sym.
  rewrite <- (SFopp_involutive y) at 2. apply SFopp_add.
Qed.

(** The product by [-1] is the opposite. *)
Lemma SFmul_m1 (x : spec_float) :
  valid_binary x = true ->
  SF64mul (S754_finite true 4503599627370496 (-52)) x = SFopp x.
Proof.
  destruct x as [s|s| |s m e]; try reflexivity.
  intros Hb. cbn [valid_binary SpecFloat.valid_binary] in Hb.
  unfold SF64mul, SFmul. cbn [xorb SFopp].
  change (4503599627370496 * m)%positive with (pshl 52 m).
  replace (-52 + e) with (e - Z.of_nat 52) by lia.
  rewrite (binary_round_aux_canonical _ m e 52 Hb).
  now destruct s.
Qed.

Lemma float_mul_m1 (x : float) : ((-1) * x = - x)%float.
Proof.
  apply Prim2SF_inj. rewrite FloatAxioms.mul_spec, FloatAxioms.opp_spec.
  change (Prim2SF (-1)%float) with (S754_finite true 4503599627370496 (-52)).
  apply SFmul_m1, Prim2SF_valid.
Qed.

(** One coordinate of a cross product against the opposite of the same
    coordinate of the product taken the other way round. *)
Lemma cross_coordinate_anticommutes (a1 a2 b1 b2 : float) :
  is_nan (a1 * b2 - a2 * b1)%float = false ->
  ((a1 * b2 - a2 * b1) =? ((-1) * (b1 * a2 - b2 * a1)))%float = true.
Proof.
  intros Hn. rewrite float_mul_m1, (float_mul_comm b1 a2), (float_mul_comm b2 a1).
  apply is_nan_false in Hn.
  rewrite FloatAxioms.eqb_spec, FloatAxioms.opp_spec.
  rewrite FloatAxioms.sub_spec in *.
  apply SFsim_eqb; [|exact Hn].
  apply SFsim_sym.
  rewrite <- (SFopp_involutive (SF64sub (Prim2SF (a1 * b2)) (Prim2SF (a2 * b1)))).
  apply SFsim_opp. rewrite FloatAxioms.sub_spec. apply SFsub_swap.
Qed.

(** ** Integers below [2^53] *)

Lemma digits2_pos_le (n : positive) : 2 ^ (Z.pos (digits2_pos n) - 1) <= Z.pos n.
Proof.
  induction n as [n IH|n IH|]; cbn [digits2_pos]; [| |cbn; lia].
  - rewrite Pos2Z.inj_succ. change (Z.pos n~1) with (2 * Z.pos n + 1).
    replace (Z.succ (Z.pos (digits2_pos n)) - 1)
      with (Z.succ (Z.pos (digits2_pos n) - 1)) by lia.
    rewrite Z.pow_succ_r by lia. lia.
  - rewrite Pos2Z.inj_succ. change (Z.pos n~0) with (2 * Z.pos n).
    replace (Z.succ (Z.pos (digits2_pos n)) - 1)
      with (Z.succ (Z.pos (digits2_pos n) - 1)) by lia.
    rewrite Z.pow_succ_r by lia. lia.
Qed.

Lemma digits2_pos_gt (n : positive) : Z.pos n < 2 ^ Z.pos (digits2_pos n).
Proof.
  induction n as [n IH|n IH|]; cbn [digits2_pos]; [| |cbn; lia].
  - rewrite Pos2Z.inj_succ, Z.pow_succ_r by lia.
    change (Z.pos n~1) with (2 * Z.pos n + 1). lia.
  - rewrite Pos2Z.inj_succ, Z.pow_succ_r by lia.
    change (Z.pos n~0) with (2 * Z.pos n). lia.
Qed.

Lemma digits2_pos_53 (n : positive) :
  Z.pos n < 2 ^ 53 -> Z.pos (digits2_pos n) <= 53.
Proof.
  intros Hn. destruct (Z_le_gt_dec (Z.pos (digits2_pos n)) 53) as [H|H]; [exact H|].
  pose proof (digits2_pos_le n) as Hle.
  assert (2 ^ 53 <= 2 ^ (Z.pos (digits2_pos n) - 1))
    by (apply Z.pow_le_mono_r; lia).
  lia.
Qed.

Lemma padding_Z (n : positive) :
  Z.pos n < 2 ^ 53 -> Z.of_nat (padding n) = 53 - Z.pos (digits2_pos n).
Proof.
  intros Hn. unfold padding. pose proof (digits2_pos_53 n Hn). lia.
Qed.

Lemma fexp_small (d : Z) : 0 < d -> fexp prec emax d = d - 53.
Proof.
  intros Hd. unfold fexp, SpecFloat.emin, prec, emax. lia.
Qed.

Lemma SF_int_bounded (n : positive) :
  Z.pos n < 2 ^ 53 ->
  bounded prec emax (pshl (padding n) n) (- Z.of_nat (padding n)) = true.
Proof.
  intros Hn. unfold bounded, canonical_mantissa.
  rewrite digits2_pshl.
  replace (Z.pos (digits2_pos n) + Z.of_nat (padding n) + - Z.of_nat (padding n))
    with (Z.pos (digits2_pos n)) by lia.
  rewrite fexp_small by lia. rewrite (padding_Z n Hn).
  apply andb_true_iff. split; [apply Z.eqb_eq; lia|].
  apply Z.leb_le. unfold emax, prec.
  pose proof (digits2_pos_53 n Hn). lia.
Qed.

Lemma shl_align_fst (m : positive) (e e' : Z) :
  e' <= e -> (shl_align m e e').1 = pshl (Z.to_nat (e - e')) m.
Proof.
  intros He. unfold shl_align.
  destruct (e' - e) as [|d|d] eqn:Hd.
  - replace (e - e') with 0 by lia. reflexivity.
  - lia.
  - cbn [fst]. rewrite Pos2Nat.inj_iter.
    replace (e - e') with (Z.pos d) by lia. reflexivity.
Qed.

(** The integer [n], written with [k] more low zero bits, rounds to the float
    that holds [n]. *)
Lemma binary_round_int (s : bool) (n : positive) (k : nat) :
  Z.pos n < 2 ^ 53 ->
  binary_round prec emax s (pshl k n) (- Z.of_nat k) = SF_int s n.
Proof.
  intros Hn. unfold binary_round, SF_int.
  rewrite digits2_pshl.
  replace (Z.pos (digits2_pos n) + Z.of_nat k + - Z.of_nat k)
    with (Z.pos (digits2_pos n)) by lia.
  rewrite fexp_small by lia.
  replace (Z.pos (digits2_pos n) - 53) with (- Z.of_nat (padding n))
    by (rewrite (padding_Z n Hn); lia).
  set (p := padding n).
  pose proof (SF_int_bounded n Hn) as Hb. fold p in Hb.
  unfold shl_align.
  destruct (- Z.of_nat p - - Z.of_nat k) as [|d|d] eqn:Hd.
  - assert (k = p) by lia. subst k.
    replace (- Z.of_nat p) with (- Z.of_nat p - Z.of_nat 0) at 1 by lia.
    apply (binary_round_aux_canonical s (pshl p n) (- Z.of_nat p) 0 Hb).
  - replace (pshl k n) with (pshl (k - p) (pshl p n))
      by (rewrite pshl_add; f_equal; lia).
    replace (- Z.of_nat k) with (- Z.of_nat p - Z.of_nat (k - p)) by lia.
    apply (binary_round_aux_canonical s (pshl p n) (- Z.of_nat p) (k - p) Hb).
  - rewrite Pos2Nat.inj_iter.
    change (nat_rect (fun _ => positive) (pshl k n) (fun _ => xO) (Pos.to_nat d))
      with (pshl (Pos.to_nat d) (pshl k n)).
    rewrite pshl_add. replace (Pos.to_nat d + k)%nat with p by lia.
    replace (- Z.of_nat p) with (- Z.of_nat p - Z.of_nat 0) at 1 by lia.
    apply (binary_round_aux_canonical s (pshl p n) (- Z.of_nat p) 0 Hb).
Qed.

Lemma SF_of_Z_pos (n : positive) :
  Z.pos n < 2 ^ 53 -> SF_of_Z (Z.pos n) = SF_int false n.
Proof.
  intros Hn. apply (binary_round_int false n 0 Hn).
Qed.

Lemma SF_of_Z_neg (n : positive) :
  Z.pos n < 2 ^ 53 -> SF_of_Z (Z.neg n) = SF_int true n.
Proof.
  intros Hn. apply (binary_round_int true n 0 Hn).
Qed.

(** [m * 2^k] at exponent [-k] is normalized to the float of [m]. *)
Lemma binary_normalize_int (m : Z) (k : nat) :
  Z.abs m < 2 ^ 53 ->
  binary_normalize prec emax (m * 2 ^ Z.of_nat k) (- Z.of_nat k) false = SF_of_Z m.
Proof.
  intros Hm. destruct m as [|n|n].
  - reflexivity.
  - replace (Z.pos n * 2 ^ Z.of_nat k) with (Z.pos (pshl k n)) by apply pshl_Z.
    cbn [binary_normalize]. rewrite (binary_round_int false n k Hm).
    symmetry. now apply SF_of_Z_pos.
  - replace (Z.neg n * 2 ^ Z.of_nat k) with (Z.neg (pshl k n))
      by (rewrite <- !Pos2Z.opp_pos, pshl_Z; lia).
    cbn [binary_normalize]. rewrite (binary_round_int true n k Hm).
    symmetry. now apply SF_of_Z_neg.
Qed.

Lemma holds_cases (z : Z) (x : spec_float) :
  Z.abs z < 2 ^ 53 ->
  holds z x ->
  (z = 0 /\ exists s, x = S754_zero s) \/
  (exists s n, z = cond_Zopp s (Z.pos n) /\ Z.pos n < 2 ^ 53 /\ x = SF_int s n).
Proof.
  intros Hz [-> | [-> ->]]; [|left; eauto].
  destruct z as [|n|n].
  - left. split; [reflexivity|]. now exists false.
  - right. exists false, n. repeat split; [exact Hz | now apply SF_of_Z_pos].
  - right. exists true, n. repeat split; [exact Hz | now apply SF_of_Z_neg].
Qed.

Lemma holds_zero (s : bool) : holds 0 (S754_zero s).
Proof.
  destruct s; [right | left]; auto.
Qed.

Lemma holds_SF_int (s : bool) (n : positive) :
  Z.pos n < 2 ^ 53 -> holds (cond_Zopp s (Z.pos n)) (SF_int s n).
Proof.
  intros Hn. left. destruct s; cbn [cond_Zopp].
  - symmetry. now apply SF_of_Z_neg.
  - symmetry. now apply SF_of_Z_pos.
Qed.

Lemma aligned_mantissa (n : positive) (k : nat) :
  (padding n <= k)%nat ->
  Z.pos (shl_align (pshl (padding n) n) (- Z.of_nat (padding n)) (- Z.of_nat k)).1
  = Z.pos n * 2 ^ Z.of_nat k.
Proof.
  intros Hk. rewrite shl_align_fst by lia. rewrite pshl_add, pshl_Z.
  do 2 f_equal. lia.
Qed.

Lemma SFadd_SF_int (sx sy : bool) (nx ny : positive) :
  Z.pos nx < 2 ^ 53 -> Z.pos ny < 2 ^ 53 ->
  Z.abs (cond_Zopp sx (Z.pos nx) + cond_Zopp sy (Z.pos ny)) < 2 ^ 53 ->
  SF64add (SF_int sx nx) (SF_int sy ny)
  = SF_of_Z (cond_Zopp sx (Z.pos nx) + cond_Zopp sy (Z.pos ny)).
Proof.
  intros Hx Hy Hxy. unfold SF64add, SFadd, SF_int. cbv zeta.
  set (k := Nat.max (padding nx) (padding ny)).
  replace (Z.min (- Z.of_nat (padding nx)) (- Z.of_nat (padding ny)))
    with (- Z.of_nat k) by (unfold k; lia).
  rewrite !aligned_mantissa by (unfold k; lia).
  replace (cond_Zopp sx (Z.pos nx * 2 ^ Z.of_nat k) +
           cond_Zopp sy (Z.pos ny * 2 ^ Z.of_nat k))
    with ((cond_Zopp sx (Z.pos nx) + cond_Zopp sy (Z.pos ny)) * 2 ^ Z.of_nat k)
    by (destruct sx, sy; cbn [cond_Zopp]; lia).
  now apply binary_normalize_int.
Qed.

(** Sums, opposites, differences and products of integers are exact as long
    as they stay below [2^53]. *)
Lemma SFadd_holds (x y : Z) (X Y : spec_float) :
  Z.abs x < 2 ^ 53 -> Z.abs y < 2 ^ 53 -> Z.abs (x + y) < 2 ^ 53 ->
  holds x X -> holds y Y -> holds (x + y) (SF64add X Y).
Proof.
  intros Hx Hy Hxy HX HY.
  destruct (holds_cases x X Hx HX) as [[-> [sx ->]] | (sx & nx & -> & Hnx & ->)];
    destruct (holds_cases y Y Hy HY) as [[-> [sy ->]] | (sy & ny & -> & Hny & ->)].
  - destruct sx, sy; apply holds_zero.
  - rewrite Z.add_0_l. now apply holds_SF_int.
  - rewrite Z.add_0_r. now apply holds_SF_int.
  - left. now apply SFadd_SF_int.
Qed.

Lemma SFopp_holds (x : Z) (X : spec_float) :
  Z.abs x < 2 ^ 53 -> holds x X -> holds (- x) (SFopp X).
Proof.
  intros Hx HX.
  destruct (holds_cases x X Hx HX) as [[-> [sx ->]] | (sx & nx & -> & Hnx & ->)].
  - apply holds_zero.
  - replace (- cond_Zopp sx (Z.pos nx)) with (cond_Zopp (negb sx) (Z.pos nx))
      by (destruct sx; cbn [cond_Zopp negb]; lia).
    now apply holds_SF_int.
Qed.

Lemma SFsub_holds (x y : Z) (X Y : spec_float) :
  Z.abs x < 2 ^ 53 -> Z.abs y < 2 ^ 53 -> Z.abs (x - y) < 2 ^ 53 ->
  holds x X -> holds y Y -> holds (x - y) (SF64sub X Y).
Proof.
  intros Hx Hy Hxy HX HY. rewrite SFsub_add_opp.
  apply SFadd_holds; try assumption; [lia|]. now apply SFopp_holds.
Qed.

Lemma digits2_pos_mul (n m : positive) :
  Z.pos (digits2_pos n) + Z.pos (digits2_pos m) - 1 <= Z.pos (digits2_pos (n * m)).
Proof.
  pose proof (digits2_pos_le n) as Hn. pose proof (digits2_pos_le m) as Hm.
  pose proof (digits2_pos_gt (n * m)) as Hnm.
  destruct (Z_le_gt_dec (Z.pos (digits2_pos n) + Z.pos (digits2_pos m) - 1)
              (Z.pos (digits2_pos (n * m)))) as [H|H]; [exact H|].
  assert (H1 : 2 ^ Z.pos (digits2_pos (n * m))
               <= 2 ^ (Z.pos (digits2_pos n) - 1 + (Z.pos (digits2_pos m) - 1)))
    by (apply Z.pow_le_mono_r; lia).
  rewrite Z.pow_add_r in H1 by lia.
  rewrite Pos2Z.inj_mul in Hnm.
  assert (2 ^ (Z.pos (digits2_pos n) - 1) * 2 ^ (Z.pos (digits2_pos m) - 1)
          <= Z.pos n * Z.pos m) by (apply Z.mul_le_mono_nonneg; lia).
  lia.
Qed.

Lemma SFmul_SF_int (sx sy : bool) (nx ny : positive) :
  Z.pos (nx * ny) < 2 ^ 53 ->
  SF64mul (SF_int sx nx) (SF_int sy ny) = SF_int (xorb sx sy) (nx * ny).
Proof.
  intros Hxy.
  assert (Hx : Z.pos nx < 2 ^ 53) by (rewrite Pos2Z.inj_mul in Hxy; nia).
  assert (Hy : Z.pos ny < 2 ^ 53) by (rewrite Pos2Z.inj_mul in Hxy; nia).
  unfold SF64mul, SFmul, SF_int.
  pose proof (digits2_pos_mul nx ny) as Hd.
  pose proof (padding_Z nx Hx) as Hpx. pose proof (padding_Z ny Hy) as Hpy.
  pose proof (padding_Z (nx * ny) Hxy) as Hp.
  set (px := padding nx) in *. set (py := padding ny) in *.
  set (p := padding (nx * ny)) in *.
  replace (pshl px nx * pshl py ny)%positive
    with (pshl (px + py - p) (pshl p (nx * ny))).
  - replace (- Z.of_nat px + - Z.of_nat py)
      with (- Z.of_nat p - Z.of_nat (px + py - p)) by lia.
    apply binary_round_aux_canonical. now apply SF_int_bounded.
  - apply Pos2Z.inj. rewrite pshl_add, Pos2Z.inj_mul, !pshl_Z, Pos2Z.inj_mul.
    replace (px + py - p + p)%nat with (px + py)%nat by lia.
    rewrite Nat2Z.inj_add, Z.pow_add_r by lia. lia.
Qed.

Lemma SFmul_holds (x y : Z) (X Y : spec_float) :
  Z.abs x < 2 ^ 53 -> Z.abs y < 2 ^ 53 -> Z.abs (x * y) < 2 ^ 53 ->
  holds x X -> holds y Y -> holds (x * y) (SF64mul X Y).
Proof.
  intros Hx Hy Hxy HX HY.
  destruct (holds_cases x X Hx HX) as [[-> [sx ->]] | (sx & nx & -> & Hnx & ->)];
    destruct (holds_cases y Y Hy HY) as [[-> [sy ->]] | (sy & ny & -> & Hny & ->)].
  - apply holds_zero.
  - rewrite Z.mul_0_l. apply holds_zero.
  - rewrite Z.mul_0_r. apply holds_zero.
  - assert (Hn : Z.pos (nx * ny) < 2 ^ 53)
      by (destruct sx, sy; cbn [cond_Zopp] in Hxy; lia).
    rewrite (SFmul_SF_int sx sy nx ny Hn).
    replace (cond_Zopp sx (Z.pos nx) * cond_Zopp sy (Z.pos ny))
      with (cond_Zopp (xorb sx sy) (Z.pos (nx * ny)))
      by (destruct sx, sy; cbn [cond_Zopp xorb]; lia).
    now apply holds_SF_int.
Qed.

(** Two floats that hold the same integer are equal. *)
Lemma holds_eqb (z : Z) (X Y : spec_float) :
  Z.abs z < 2 ^ 53 -> holds z X -> holds z Y -> SFeqb X Y = true.
Proof.
  intros Hz HX HY.
  destruct (holds_cases z X Hz HX) as [[Hz1 [sx ->]] | (sx & nx & Hzx & Hnx & ->)];
    destruct (holds_cases z Y Hz HY) as [[Hz2 [sy ->]] | (sy & ny & Hzy & Hny & ->)].
  - reflexivity.
  - destruct sy; cbn [cond_Zopp] in Hzy; lia.
  - destruct sx; cbn [cond_Zopp] in Hzx; lia.
  - assert (sx = sy /\ nx = ny) as [-> ->]
      by (destruct sx, sy; cbn [cond_Zopp] in *; split; congruence || lia).
    now apply SFeqb_refl.
Qed.

(** ** Floats that hold integers *)

Lemma SF_of_Z_valid (z : Z) :
  Z.abs z < 2 ^ 53 -> valid_binary (SF_of_Z z) = true.
Proof.
  intros Hz. destruct z as [|n|n].
  - reflexivity.
  - rewrite SF_of_Z_pos by exact Hz. now apply SF_int_bounded.
  - rewrite SF_of_Z_neg by exact Hz. now apply SF_int_bounded.
Qed.

Lemma float_of_Z_holds (z : Z) :
  Z.abs z < 2 ^ 53 -> float_holds z (float_of_Z z).
Proof.
  intros Hz. left. unfold float_of_Z.
  now rewrite Prim2SF_SF2Prim by now apply SF_of_Z_valid.
Qed.

(** [float(z)] does not raise on an integer below [2^53]. *)
Lemma py_float_int (z : Z) :
  Z.abs z < 2 ^ 53 -> py_float (PyInt z) = Return (float_of_Z z).
Proof.
  intros Hz. unfold py_float.
  replace (is_infinity (float_of_Z z)) with false; [reflexivity|].
  unfold is_infinity. rewrite FloatAxioms.eqb_spec, FloatAxioms.abs_spec.
  destruct (float_of_Z_holds z Hz) as [-> | [_ ->]]; [|reflexivity].
  destruct z as [|n|n].
  - reflexivity.
  - rewrite SF_of_Z_pos by exact Hz. reflexivity.
  - rewrite SF_of_Z_neg by exact Hz. reflexivity.
Qed.

Lemma float_add_holds (x y : Z) (fx fy : float) :
  Z.abs x < 2 ^ 53 -> Z.abs y < 2 ^ 53 -> Z.abs (x + y) < 2 ^ 53 ->
  float_holds x fx -> float_holds y fy -> float_holds (x + y) (fx + fy).
Proof.
  unfold float_holds. rewrite FloatAxioms.add_spec. apply SFadd_holds.
Qed.

Lemma float_sub_holds (x y : Z) (fx fy : float) :
  Z.abs x < 2 ^ 53 -> Z.abs y < 2 ^ 53 -> Z.abs (x - y) < 2 ^ 53 ->
  float_holds x fx -> float_holds y fy -> float_holds (x - y) (fx - fy).
Proof.
  unfold float_holds. rewrite FloatAxioms.sub_spec. apply SFsub_holds.
Qed.

Lemma float_mul_holds (x y : Z) (fx fy : float) :
  Z.abs x < 2 ^ 53 -> Z.abs y < 2 ^ 53 -> Z.abs (x * y) < 2 ^ 53 ->
  float_holds x fx -> float_holds y fy -> float_holds (x * y) (fx * fy).
Proof.
  unfold float_holds. rewrite FloatAxioms.mul_spec. apply SFmul_holds.
Qed.

Lemma float_holds_eqb (z : Z) (fx fy : float) :
  Z.abs z < 2 ^ 53 -> float_holds z fx -> float_holds z fy ->
  (fx =? fy)%float = true.
Proof.
  unfold float_holds. rewrite FloatAxioms.eqb_spec. apply holds_eqb.
Qed.

Lemma float_holds_zero : float_holds 0 0%float.
Proof. now left. Qed.

(** A vector built from small integers holds them. *)
Lemma init_integral (u : string) (zs : list Z) (name : string) :
  Forall (fun z => Z.abs z < 2 ^ 53) zs ->
  exists v, Vector.__init__ u (map PyInt zs) name = Return v /\ integral zs v.
Proof.
  intros Hzs. unfold Vector.__init__, integral.
  assert (H : exists cs, comprehension py_float (map PyInt zs) = Return cs /\
                         Forall2 float_holds zs cs).
  { induction Hzs as [|z zs Hz _ (cs & Hcs & Hall)].
    - exists []. split; [reflexivity | constructor].
    - exists (float_of_Z z :: cs). cbn [map comprehension].
      rewrite (py_float_int z Hz), Hcs. split; [reflexivity|].
      constructor; [now apply float_of_Z_holds | exact Hall]. }
  destruct H as (cs & -> & Hall). eexists. split; [reflexivity | exact Hall].
Qed.

(** ** Sums and differences of vectors *)

(** [sum] of a pair: the int [0] it starts from does not change the sum, up
    to the sign of a zero. *)
Lemma py_sum_comm (x y : float) : py_sum [x; y] = py_sum [y; x].
Proof.
  unfold py_sum. cbn [fold_left].
  apply Prim2SF_inj. rewrite !FloatAxioms.add_spec.
  change (Prim2SF 0%float) with (S754_zero false).
  rewrite (SFadd_comm (SF64add (S754_zero false) (Prim2SF y)) (Prim2SF x)).
  unfold SF64add, SFadd.
  destruct (Prim2SF x) as [sx|sx| |sx mx ex], (Prim2SF y) as [sy|sy| |sy my ey];
    try reflexivity; destruct sx; try destruct sy; reflexivity.
Qed.

Lemma py_sum_holds (x y : Z) (fx fy : float) :
  Z.abs x < 2 ^ 53 -> Z.abs y < 2 ^ 53 -> Z.abs (x + y) < 2 ^ 53 ->
  float_holds x fx -> float_holds y fy -> float_holds (x + y) (py_sum [fx; fy]).
Proof.
  intros Hx Hy Hxy Hfx Hfy. unfold py_sum. cbn [fold_left].
  apply float_add_holds; try assumption.
  change x with (0 + x). apply float_add_holds; try assumption; [cbn; lia|].
  apply float_holds_zero.
Qed.

Lemma zip_sum_comm (l1 l2 : list float) :
  map (fun x => py_sum [x.1; x.2]) (zip l1 l2)
  = map (fun x => py_sum [x.1; x.2]) (zip l2 l1).
Proof.
  revert l2. induction l1 as [|x l1 IH]; intros [|y l2];
    cbn [zip map fst snd]; try reflexivity.
  now rewrite py_sum_comm, IH.
Qed.

Lemma list_eq_refl (l : list float) :
  Forall (fun c => is_nan c = false) l -> list_eq l l = true.
Proof.
  induction 1 as [|c l Hc _ IH]; [reflexivity|]. cbn.
  now rewrite float_eqb_refl, IH.
Qed.

Lemma round_trip_coordinates (xs ys : list Z) (l1 l2 : list float) :
  Forall2 float_holds xs l1 ->
  Forall2 float_holds ys l2 ->
  Forall (fun z => Z.abs z < 2 ^ 52) xs ->
  Forall (fun z => Z.abs z < 2 ^ 52) ys ->
  List.length l1 = List.length l2 ->
  list_eq
    (map (fun x => (x.1 - x.2)%float)
       (zip (map (fun x => py_sum [x.1; x.2]) (zip l1 l2)) l2)) l1 = true.
Proof.
  intros H1. revert ys l2. induction H1 as [|x fx xs l1 Hx H1 IH];
    intros ys l2 H2 Hxs Hys Hlen.
  - destruct l2; [reflexivity | discriminate].
  - destruct H2 as [|y fy ys l2 Hy H2]; [discriminate|].
    apply Forall_cons_1 in Hxs as [Hxb Hxs].
    apply Forall_cons_1 in Hys as [Hyb Hys].
    cbn [zip map list_eq fst snd]. apply andb_true_iff. split.
    + apply (float_holds_eqb x); [lia | | exact Hx].
      replace x with (x + y - y) at 1 by lia.
      apply float_sub_holds; try lia; [|exact Hy].
      apply py_sum_holds; try lia; assumption.
    + apply (IH ys l2 H2 Hxs Hys). cbn in Hlen. lia.
Qed.

(** C6 fails on the code: the coordinates are floats and sums are rounded.
    With [a = Vector([1])] and [b = Vector([2**53])] the sum [a + b] is
    [[9007199254740992.0]], so [(a + b) - b] is [[0.0]], which is not [a].
    And with [a = Vector([inf])] and [b = Vector([-inf])] both sums are
    [[nan]], which are not equal. *)
Lemma add_sub_round_trip_fails :
  (a ← Vector.__init__ "a" [PyInt 1] "";
   b ← Vector.__init__ "b" [PyInt (2 ^ 53)] "";
   s ← Vector.__add__ "s" a b;
   d ← Vector.__sub__ "d" s b;
   Return (coordinates s, coordinates d, Vector.__eq__ d a))
  = Return ([9007199254740992%float], [0%float], false)
  /\
  (a ← Vector.__init__ "a" [PyFloat infinity] "";
   b ← Vector.__init__ "b" [PyFloat neg_infinity] "";
   s ← Vector.__add__ "s" a b;
   t ← Vector.__add__ "t" b a;
   Return (Vector.__eq__ s t))
  = Return false.
Proof.
  split; vm_compute; reflexivity.
Qed.

(** C6, amended: for vectors [a] and [b] of equal dimension the sums [a + b]
    and [b + a] and the difference [(a + b) - b] are computed; the two sums
    have the same coordinates, and [a + b == b + a] when no coordinate of the
    sum is NaN; [(a + b) - b == a] when the coordinates of [a] and [b] are
    integers of magnitude below [2^52], which the sums and differences
    compute exactly. *)
Theorem add_sub_laws (u1 u2 u3 : string) (a b : Vector) :
  Vector.dim a = Vector.dim b ->
  exists s t d,
    Vector.__add__ u1 a b = Return s /\
    Vector.__add__ u2 b a = Return t /\
    Vector.__sub__ u3 s b = Return d /\
    coordinates s = coordinates t /\
    (Forall (fun c => is_nan c = false) (coordinates s) ->
     Vector.__eq__ s t = true) /\
    (forall xs ys,
       integral xs a -> integral ys b ->
       Forall (fun z => Z.abs z < 2 ^ 52) xs ->
       Forall (fun z => Z.abs z < 2 ^ 52) ys ->
       Vector.__eq__ d a = true).
Proof.
  intros Hdim. unfold Vector.dim in Hdim.
  set (cs := map (fun x => py_sum [x.1; x.2]) (zip (coordinates a) (coordinates b))).
  assert (Hcs : List.length cs = List.length (coordinates b)).
  { unfold cs. rewrite length_map. clear cs. revert Hdim.
    generalize (coordinates b). induction (coordinates a) as [|x l IH];
      intros [|y l'] H; cbn in *; try congruence. f_equal. apply IH. lia. }
  exists (Vector.of_floats u1 cs),
         (Vector.of_floats u2
            (map (fun x => py_sum [x.1; x.2]) (zip (coordinates b) (coordinates a)))),
         (Vector.of_floats u3
            (map (fun x => (x.1 - x.2)%float) (zip cs (coordinates b)))).
  unfold Vector.__add__, Vector.__sub__, Vector.check_dim, Vector.dim.
  cbn [coordinates Vector.of_floats]. rewrite Hcs, <- Hdim, !Nat.eqb_refl.
  split; [reflexivity|]. split; [reflexivity|]. split; [reflexivity|].
  split; [apply zip_sum_comm|]. split.
  - intros Hnan. unfold Vector.__eq__. cbn [coordinates Vector.of_floats].
    rewrite <- zip_sum_comm. now apply list_eq_refl.
  - intros xs ys Ha Hb Hxs Hys. unfold Vector.__eq__.
    cbn [coordinates Vector.of_floats].
    now apply (round_trip_coordinates xs ys).
Qed.

Lemma add_sub_laws_witness :
  exists s t d,
    Vector.__add__ "s" (Vector.of_floats "a" [1; 2]%float)
      (Vector.of_floats "b" [3; 4]%float) = Return s /\
    Vector.__add__ "t" (Vector.of_floats "b" [3; 4]%float)
      (Vector.of_floats "a" [1; 2]%float) = Return t /\
    Vector.__sub__ "d" s (Vector.of_floats "b" [3; 4]%float) = Return d /\
    Vector.__eq__ s t = true /\
    Vector.__eq__ d (Vector.of_floats "a" [1; 2]%float) = true.
Proof.
  destruct (add_sub_laws "s" "t" "d" (Vector.of_floats "a" [1; 2]%float)
              (Vector.of_floats "b" [3; 4]%float) eq_refl)
    as (s & t & d & Hs & Ht & Hd & _ & Hcomm & Hround).
  exists s, t, d. repeat split; try assumption.
  - apply Hcomm. injection Hs as <-. repeat constructor.
  - apply (Hround [1; 2] [3; 4]).
    + repeat constructor.
    + repeat constructor.
    + repeat constructor; vm_compute; reflexivity.
    + repeat constructor; vm_compute; reflexivity.
Defined.

(** ** Cross products *)

(** The cross product of two vectors of dimension 3. *)
Lemma cross_product_3 (u : string) (a b : Vector) (a0 a1 a2 b0 b1 b2 : float) :
  coordinates a = [a0; a1; a2] ->
  coordinates b = [b0; b1; b2] ->
  Vector.cross_product u a b
  = Return (Vector.of_floats u
      [a1 * b2 - a2 * b1; a2 * b0 - a0 * b2; a0 * b1 - a1 * b0]%float).
Proof.
  intros Ha Hb. unfold Vector.cross_product, Vector.check_dim, Vector.dim.
  rewrite Ha, Hb. reflexivity.
Qed.

Lemma dim_3 (v : Vector) :
  Vector.dim v = 3%nat -> exists v0 v1 v2, coordinates v = [v0; v1; v2].
Proof.
  unfold Vector.dim. destruct (coordinates v) as [|v0 [|v1 [|v2 [|v3 l]]]];
    try discriminate. eauto.
Qed.

Lemma float_of_Z_m1 : float_of_Z (-1) = (-1)%float.
Proof. vm_compute. reflexivity. Qed.

(** [v * -1] on a vector of dimension 3. *)
Lemma mul_m1_3 (u : string) (v : Vector) (v0 v1 v2 : float) :
  coordinates v = [v0; v1; v2] ->
  Vector.__mul__ u v (PyInt (-1))
  = Return (Vector.of_floats u [(-1) * v0; (-1) * v1; (-1) * v2]%float).
Proof.
  intros Hv. unfold Vector.__mul__. rewrite Hv.
  cbn [comprehension]. rewrite py_float_int by (cbn; lia).
  rewrite float_of_Z_m1. reflexivity.
Qed.

(** ** Rounding depends on the value only *)

Lemma shr_nat (r : shr_record) (e n : Z) :
  0 <= n -> shr r e n = (Nat.iter (Z.to_nat n) shr_1 r, e + n).
Proof.
  intros Hn. unfold shr. destruct n as [|p|p]; [| |lia].
  - now rewrite Z.add_0_r.
  - now rewrite iter_pos_nat, Z2Nat.inj_pos.
Qed.

Lemma shl_align_nat (m : positive) (e e' : Z) :
  shl_align m e e'
  = if (e' <? e) then (pshl (Z.to_nat (e - e')) m, e') else (m, e).
Proof.
  unfold shl_align. destruct (Z.ltb_spec e' e) as [H|H].
  - destruct (e' - e) as [|d|d] eqn:Hd; try lia.
    rewrite Pos2Nat.inj_iter. replace (e - e') with (Z.pos d) by lia.
    reflexivity.
  - destruct (e' - e) as [|d|d] eqn:Hd; try lia; reflexivity.
Qed.

Lemma aligned_cases (m : positive) (e : Z) :
  let f := fexp prec emax (Z.pos (digits2_pos m) + e) in
  aligned m e
  = if (f <? e)
    then ({| shr_m := Z.pos (pshl (Z.to_nat (e - f)) m);
             shr_r := false; shr_s := false |}, f)
    else (Nat.iter (Z.to_nat (f - e)) shr_1
            {| shr_m := Z.pos m; shr_r := false; shr_s := false |}, f).
Proof.
  cbv zeta. unfold aligned. rewrite shl_align_nat.
  set (f := fexp prec emax (Z.pos (digits2_pos m) + e)).
  destruct (Z.ltb_spec f e) as [H|H].
  - unfold shr_fexp. cbn [Zdigits2 shr_record_of_loc].
    rewrite digits2_pshl.
    replace (Z.pos (digits2_pos m) + Z.of_nat (Z.to_nat (e - f)) + f)
      with (Z.pos (digits2_pos m) + e) by lia.
    fold f. rewrite Z.sub_diag. reflexivity.
  - unfold shr_fexp. cbn [Zdigits2 shr_record_of_loc]. fold f.
    rewrite shr_nat by lia. f_equal. lia.
Qed.

Lemma aligned_pshl (m : positive) (e : Z) (k : nat) :
  aligned (pshl k m) (e - Z.of_nat k) = aligned m e.
Proof.
  pose proof (aligned_cases (pshl k m) (e - Z.of_nat k)) as H1.
  pose proof (aligned_cases m e) as H2. cbv zeta in H1, H2.
  rewrite digits2_pshl in H1.
  replace (Z.pos (digits2_pos m) + Z.of_nat k + (e - Z.of_nat k))
    with (Z.pos (digits2_pos m) + e) in H1 by lia.
  rewrite H1, H2. clear H1 H2.
  generalize (fexp prec emax (Z.pos (digits2_pos m) + e)). intros f.
  destruct (Z.ltb_spec f (e - Z.of_nat k)) as [Ha|Ha];
    destruct (Z.ltb_spec f e) as [Hb|Hb]; try lia.
  - rewrite pshl_add.
    replace (Z.to_nat (e - Z.of_nat k - f) + k)%nat with (Z.to_nat (e - f)) by lia.
    reflexivity.
  - replace (pshl k m)
      with (pshl (Z.to_nat (f - (e - Z.of_nat k))) (pshl (Z.to_nat (e - f)) m))
      by (rewrite pshl_add; f_equal; lia).
    now rewrite shr_1_pshl.
  - replace (Z.to_nat (f - (e - Z.of_nat k))) with (Z.to_nat (f - e) + k)%nat
      by lia.
    now rewrite Nat.iter_add, shr_1_pshl.
Qed.

Lemma binary_round_aligned (s : bool) (m : positive) (e : Z) :
  binary_round prec emax s m e
  = let '(mrs', e') := aligned m e in
    let '(mrs'', e'') :=
      shr_fexp prec emax
        (round_nearest_even (shr_m mrs') (loc_of_shr_record mrs')) e' loc_Exact in
    match shr_m mrs'' with
    | Z0 => S754_zero s
    | Zpos m => if e'' <=? emax - prec then S754_finite s m e''
                else S754_infinity s
    | Zneg _ => S754_nan
    end.
Proof.
  unfold binary_round, aligned, binary_round_aux.
  now destruct (shl_align m e _) as [mz ez].
Qed.

(** A mantissa with [k] more low zero bits at an exponent lower by [k] is
    rounded to the same float. *)
Lemma binary_round_pshl (s : bool) (m : positive) (e : Z) (k : nat) :
  binary_round prec emax s (pshl k m) (e - Z.of_nat k)
  = binary_round prec emax s m e.
Proof.
  now rewrite !binary_round_aligned, aligned_pshl.
Qed.

(** ** Products of equal value *)

(** A finite float is a zero or a mantissa at an exponent of the format. *)
Lemma is_finite_cases (x : float) :
  is_finite x = true ->
  (exists s, Prim2SF x = S754_zero s) \/
  (exists s m e, Prim2SF x = S754_finite s m e /\
                 Z.max (Z.pos (digits2_pos m) + e - 53) (-1074) = e).
Proof.
  unfold is_finite, is_nan, is_infinity.
  rewrite !FloatAxioms.eqb_spec, FloatAxioms.abs_spec.
  change (Prim2SF infinity) with (S754_infinity false).
  pose proof (Prim2SF_valid x) as Hv.
  destruct (Prim2SF x) as [s|s| |s m e]; cbn; try discriminate; intros H.
  - left. eauto.
  - destruct s; discriminate H.
  - right. exists s, m, e. split; [reflexivity|].
    destruct (bounded_inv m e Hv) as [Hf _].
    unfold fexp, SpecFloat.emin, prec, emax in Hf. exact Hf.
Qed.

(** On a mantissa that needs no shift to the left, [binary_round_aux] is
    [binary_round]: so it is on the product of two mantissas of floats. *)
Lemma binary_round_aux_round (s : bool) (m : positive) (e : Z) :
  e <= fexp prec emax (Z.pos (digits2_pos m) + e) ->
  binary_round_aux prec emax s (Z.pos m) e loc_Exact
  = binary_round prec emax s m e.
Proof.
  intros He. unfold binary_round. rewrite shl_align_nat.
  now replace (fexp prec emax (Z.pos (digits2_pos m) + e) <? e) with false
    by (symmetry; apply Z.ltb_ge; exact He).
Qed.

Lemma product_needs_no_shift (m n : positive) (e f : Z) :
  Z.max (Z.pos (digits2_pos m) + e - 53) (-1074) = e ->
  Z.max (Z.pos (digits2_pos n) + f - 53) (-1074) = f ->
  e + f <= fexp prec emax (Z.pos (digits2_pos (m * n)) + (e + f)).
Proof.
  intros He Hf. pose proof (digits2_pos_mul m n) as Hd.
  unfold fexp, SpecFloat.emin, prec, emax. lia.
Qed.

Lemma pshl_of_mul (m n : positive) (k : Z) :
  0 <= k -> Z.pos m = Z.pos n * 2 ^ k -> m = pshl (Z.to_nat k) n.
Proof.
  intros Hk H. apply Pos2Z.inj. rewrite pshl_Z, Z2Nat.id by exact Hk. exact H.
Qed.

(** Two mantissas of one value at their exponents are rounded alike. *)
Lemma binary_round_value (s : bool) (m n : positive) (e f : Z) :
  0 <= e -> 0 <= f ->
  Z.pos m * 2 ^ e = Z.pos n * 2 ^ f ->
  forall d : Z,
    binary_round prec emax s m (e - d) = binary_round prec emax s n (f - d).
Proof.
  assert (Hgen : forall (m n : positive) (e f : Z),
    0 <= e <= f -> Z.pos m * 2 ^ e = Z.pos n * 2 ^ f ->
    forall d, binary_round prec emax s m (e - d)
              = binary_round prec emax s n (f - d)).
  { clear m n e f. intros m n e f He H d.
    assert (Hm : Z.pos m = Z.pos n * 2 ^ (f - e)).
    { replace f with (e + (f - e)) in H by lia.
      rewrite Z.pow_add_r in H by lia.
      apply (Z.mul_reg_r _ _ (2 ^ e)); [apply Z.pow_nonzero; lia|].
      rewrite H. ring. }
    apply pshl_of_mul in Hm; [|lia]. rewrite Hm.
    replace (e - d) with (f - d - Z.of_nat (Z.to_nat (f - e))) by lia.
    apply binary_round_pshl. }
  intros He Hf H d. destruct (Z_le_gt_dec e f) as [Hle|Hgt].
  - apply Hgen; [lia | exact H].
  - symmetry. apply Hgen; [lia | now symmetry].
Qed.

(** The products of two pairs of finite floats whose exact products are
    equal are the same float, or two zeros. *)
Lemma SFmul_units (x1 y1 x2 y2 : float) :
  is_finite x1 = true -> is_finite y1 = true ->
  is_finite x2 = true -> is_finite y2 = true ->
  units x1 * units y1 = units x2 * units y2 ->
  SFsim (Prim2SF (x1 * y1)) (Prim2SF (x2 * y2)).
Proof.
  intros Fx1 Fy1 Fx2 Fy2. unfold units. rewrite !FloatAxioms.mul_spec.
  destruct (is_finite_cases x1 Fx1) as [[s1 ->] | (s1 & m1 & e1 & -> & Ce1)];
    destruct (is_finite_cases y1 Fy1) as [[t1 ->] | (t1 & n1 & f1 & -> & Cf1)];
    destruct (is_finite_cases x2 Fx2) as [[s2 ->] | (s2 & m2 & e2 & -> & Ce2)];
    destruct (is_finite_cases y2 Fy2) as [[t2 ->] | (t2 & n2 & f2 & -> & Cf2)];
    cbn [SFunits SF64mul SFmul]; intros H;
    try (right; eexists _, _; split; reflexivity);
    try (assert (He1 : -1074 <= e1) by lia);
    try (assert (Hf1 : -1074 <= f1) by lia);
    try (assert (He2 : -1074 <= e2) by lia);
    try (assert (Hf2 : -1074 <= f2) by lia).
  all: try (exfalso;
    repeat match goal with
      | H : context [cond_Zopp ?s _] |- _ => destruct s; cbn [cond_Zopp] in H
      end;
    match goal with
    | H : _ = _ |- _ =>
        pose proof (Z.pow_pos_nonneg 2 (e1 + 1074) ltac:(lia) ltac:(lia));
        pose proof (Z.pow_pos_nonneg 2 (f1 + 1074) ltac:(lia) ltac:(lia));
        nia
    end).
  all: try (exfalso;
    repeat match goal with
      | H : context [cond_Zopp ?s _] |- _ => destruct s; cbn [cond_Zopp] in H
      end;
    match goal with
    | H : _ = _ |- _ =>
        pose proof (Z.pow_pos_nonneg 2 (e2 + 1074) ltac:(lia) ltac:(lia));
        pose proof (Z.pow_pos_nonneg 2 (f2 + 1074) ltac:(lia) ltac:(lia));
        nia
    end).
  left.
  pose proof (Z.pow_pos_nonneg 2 (e1 + 1074) ltac:(lia) ltac:(lia)) as P1.
  pose proof (Z.pow_pos_nonneg 2 (f1 + 1074) ltac:(lia) ltac:(lia)) as P2.
  pose proof (Z.pow_pos_nonneg 2 (e2 + 1074) ltac:(lia) ltac:(lia)) as P3.
  pose proof (Z.pow_pos_nonneg 2 (f2 + 1074) ltac:(lia) ltac:(lia)) as P4.
  assert (Hs : xorb s1 t1 = xorb s2 t2 /\
               (Z.pos m1 * 2 ^ (e1 + 1074)) * (Z.pos n1 * 2 ^ (f1 + 1074))
               = (Z.pos m2 * 2 ^ (e2 + 1074)) * (Z.pos n2 * 2 ^ (f2 + 1074))).
  { assert (HA : 0 < Z.pos m1 * 2 ^ (e1 + 1074)) by lia.
    assert (HB : 0 < Z.pos n1 * 2 ^ (f1 + 1074)) by lia.
    assert (HC : 0 < Z.pos m2 * 2 ^ (e2 + 1074)) by lia.
    assert (HD : 0 < Z.pos n2 * 2 ^ (f2 + 1074)) by lia.
    revert H HA HB HC HD.
    generalize (Z.pos m1 * 2 ^ (e1 + 1074)) (Z.pos n1 * 2 ^ (f1 + 1074))
      (Z.pos m2 * 2 ^ (e2 + 1074)) (Z.pos n2 * 2 ^ (f2 + 1074)).
    intros A B C D Heq HA HB HC HD.
    assert (HAB : 0 < A * B) by nia. assert (HCD : 0 < C * D) by nia.
    destruct s1, t1, s2, t2; cbn [cond_Zopp xorb] in Heq |- *;
      (split; [first [reflexivity | exfalso; nia] | nia]). }
  destruct Hs as [-> Hv].
  rewrite !binary_round_aux_round by now apply product_needs_no_shift.
  replace (e1 + f1) with (e1 + f1 + 2148 - 2148) by lia.
  replace (e2 + f2) with (e2 + f2 + 2148 - 2148) by lia.
  apply binary_round_value; [lia | lia |].
  replace (e1 + f1 + 2148) with ((e1 + 1074) + (f1 + 1074)) by lia.
  replace (e2 + f2 + 2148) with ((e2 + 1074) + (f2 + 1074)) by lia.
  rewrite (Z.pow_add_r 2 (e1 + 1074) (f1 + 1074)),
    (Z.pow_add_r 2 (e2 + 1074) (f2 + 1074)), !Pos2Z.inj_mul by lia.
  transitivity ((Z.pos m1 * 2 ^ (e1 + 1074)) * (Z.pos n1 * 2 ^ (f1 + 1074)));
    [ring|]. rewrite Hv. ring.
Qed.

(** The difference of two floats that are the same float, or two zeros,
    is a zero or a NaN. *)
Lemma SFsub_sim (X Y : spec_float) :
  SFsim X Y ->
  SF64sub X Y = S754_nan \/ exists s, SF64sub X Y = S754_zero s.
Proof.
  intros [<- | (s & s' & -> & ->)].
  - destruct X as [s|s| |s m e]; cbn.
    + right. destruct s; eauto.
    + left. now destruct s.
    + now left.
    + right. rewrite Z.sub_diag. cbn. eauto.
  - right. cbn. destruct s, s'; eauto.
Qed.

(** A coordinate of the cross product of parallel vectors: the two products
    have one value, their difference is a zero unless it is a NaN. *)
Lemma cross_coordinate_units (a1 a2 b1 b2 : float) :
  is_finite a1 = true -> is_finite a2 = true ->
  is_finite b1 = true -> is_finite b2 = true ->
  units a1 * units b2 = units a2 * units b1 ->
  is_nan (a1 * b2 - a2 * b1)%float = false ->
  ((a1 * b2 - a2 * b1) =? 0)%float = true.
Proof.
  intros Fa1 Fa2 Fb1 Fb2 Hu Hnan.
  apply is_nan_false in Hnan.
  rewrite FloatAxioms.eqb_spec. rewrite FloatAxioms.sub_spec in Hnan |- *.
  destruct (SFsub_sim _ _ (SFmul_units a1 b2 a2 b1 Fa1 Fb2 Fa2 Fb1 Hu))
    as [H | [s H]]; [contradiction|].
  rewrite H. reflexivity.
Qed.

(** Parallel vectors of dimension 3: the exact products that a coordinate
    of the cross product subtracts are equal. *)
Lemma parallel_units (k l x0 x1 y0 y1 : Z) :
  k <> 0 \/ l <> 0 ->
  k * x0 = l * y0 -> k * x1 = l * y1 ->
  x0 * y1 = x1 * y0.
Proof.
  intros [Hk | Hl] H0 H1.
  - apply (Z.mul_reg_l _ _ k Hk).
    transitivity ((k * x0) * y1); [ring|]. rewrite H0.
    transitivity ((k * x1) * y0); [rewrite H1; ring | ring].
  - apply (Z.mul_reg_l _ _ l Hl).
    transitivity (x0 * (l * y1)); [ring|]. rewrite <- H1.
    transitivity (x1 * (l * y0)); [rewrite <- H0; ring | ring].
Qed.

(** C7 fails on the code, on both counts.  With
    [c = Vector([2**600, 2**600, 0])], which is equal to [c * 1], the third
    coordinate of [c.cross_product(c)] is [inf - inf], a NaN, which equals
    neither [0.0] nor itself: [c.cross_product(c)] is not the zero vector
    though [c] is parallel to [c], and it is not equal to
    [c.cross_product(c) * -1]. *)
Lemma cross_product_laws_fail :
  (c ← Vector.__init__ "c" [PyInt (2 ^ 600); PyInt (2 ^ 600); PyInt 0] "";
   c1 ← Vector.__mul__ "c1" c (PyInt 1);
   p ← Vector.cross_product "p" c c;
   n ← Vector.__mul__ "n" p (PyInt (-1));
   z ← Vector.__init__ "z" [PyInt 0; PyInt 0; PyInt 0] "";
   Return (Vector.__eq__ c c1, Vector.__eq__ p z, Vector.__eq__ p n))
  = Return (true, false, false).
Proof.
  vm_compute. reflexivity.
Qed.

(** C7, amended: for vectors [a] and [b] of dimension 3 the cross products
    [a x b] and [b x a] and the product [(b x a) * -1] are computed; when no
    coordinate of [a x b] is NaN, [a x b == (b x a) * -1], and [a x b] is the
    zero vector whenever [a] and [b] are parallel. *)
Theorem cross_product_laws (u1 u2 u3 u4 : string) (a b : Vector) :
  Vector.dim a = 3%nat ->
  Vector.dim b = 3%nat ->
  exists p q n,
    Vector.cross_product u1 a b = Return p /\
    Vector.cross_product u2 b a = Return q /\
    Vector.__mul__ u3 q (PyInt (-1)) = Return n /\
    (Forall (fun c => is_nan c = false) (coordinates p) ->
     Vector.__eq__ p n = true) /\
    (parallel a b ->
     Forall (fun c => is_nan c = false) (coordinates p) ->
     Vector.__eq__ p (Vector.of_floats u4 [0; 0; 0]%float) = true).
Proof.
  intros Ha Hb.
  destruct (dim_3 a Ha) as (a0 & a1 & a2 & Hca).
  destruct (dim_3 b Hb) as (b0 & b1 & b2 & Hcb).
  exists (Vector.of_floats u1
            [a1 * b2 - a2 * b1; a2 * b0 - a0 * b2; a0 * b1 - a1 * b0]%float),
         (Vector.of_floats u2
            [b1 * a2 - b2 * a1; b2 * a0 - b0 * a2; b0 * a1 - b1 * a0]%float),
         (Vector.of_floats u3
            [(-1) * (b1 * a2 - b2 * a1); (-1) * (b2 * a0 - b0 * a2);
             (-1) * (b0 * a1 - b1 * a0)]%float).
  split; [exact (cross_product_3 u1 a b _ _ _ _ _ _ Hca Hcb)|].
  split; [exact (cross_product_3 u2 b a _ _ _ _ _ _ Hcb Hca)|].
  split; [now apply mul_m1_3|].
  unfold Vector.__eq__. cbn [coordinates Vector.of_floats list_eq].
  assert (Hcoords : Forall (fun c => is_nan c = false)
            [a1 * b2 - a2 * b1; a2 * b0 - a0 * b2; a0 * b1 - a1 * b0]%float ->
          is_nan (a1 * b2 - a2 * b1)%float = false /\
          is_nan (a2 * b0 - a0 * b2)%float = false /\
          is_nan (a0 * b1 - a1 * b0)%float = false).
  { intros Hnan.
    apply Forall_cons_1 in Hnan as [H0 Hnan].
    apply Forall_cons_1 in Hnan as [H1 Hnan].
    apply Forall_cons_1 in Hnan as [H2 _]. auto. }
  split.
  { intros Hnan. destruct (Hcoords Hnan) as (H0 & H1 & H2).
    now rewrite !cross_coordinate_anticommutes. }
  intros (Fa & Fb & k & l & Hkl & Hpar) Hnan.
  destruct (Hcoords Hnan) as (H0 & H1 & H2).
  rewrite Hca in Fa, Hpar. rewrite Hcb in Fb, Hpar.
  apply Forall_cons_1 in Fa as [Fa0 Fa]. apply Forall_cons_1 in Fa as [Fa1 Fa].
  apply Forall_cons_1 in Fa as [Fa2 _].
  apply Forall_cons_1 in Fb as [Fb0 Fb]. apply Forall_cons_1 in Fb as [Fb1 Fb].
  apply Forall_cons_1 in Fb as [Fb2 _].
  cbn [map] in Hpar. injection Hpar as P0 P1 P2.
  rewrite (cross_coordinate_units a1 a2 b1 b2); try assumption;
    [|exact (parallel_units k l _ _ _ _ Hkl P1 P2)].
  rewrite (cross_coordinate_units a2 a0 b2 b0); try assumption;
    [|exact (parallel_units k l _ _ _ _ Hkl P2 P0)].
  rewrite (cross_coordinate_units a0 a1 b0 b1); try assumption;
    [|exact (parallel_units k l _ _ _ _ Hkl P0 P1)].
  reflexivity.
Qed.

Lemma cross_product_laws_witness :
  let a := Vector.of_floats "a"
             [0x1.999999999999ap-4; 0x1.3333333333333p-2; 0x1.6666666666666p-1]%float in
  let b := Vector.of_floats "b"
             [0x1.999999999999ap-3; 0x1.3333333333333p-1; 0x1.6666666666666p+0]%float in
  parallel a b /\
  exists p q n,
    Vector.cross_product "p" a b = Return p /\
    Vector.cross_product "q" b a = Return q /\
    Vector.__mul__ "n" q (PyInt (-1)) = Return n /\
    Forall (fun c => is_nan c = false) (coordinates p) /\
    Vector.__eq__ p n = true /\
    Vector.__eq__ p (Vector.of_floats "z" [0; 0; 0]%float) = true.
Proof.
  cbv zeta.
  assert (Hpar : parallel
    (Vector.of_floats "a"
       [0x1.999999999999ap-4; 0x1.3333333333333p-2; 0x1.6666666666666p-1]%float)
    (Vector.of_floats "b"
       [0x1.999999999999ap-3; 0x1.3333333333333p-1; 0x1.6666666666666p+0]%float)).
  { split; [repeat constructor|]. split; [repeat constructor|].
    exists 2, 1. split; [left; discriminate|]. vm_compute. reflexivity. }
  split; [exact Hpar|].
  destruct (cross_product_laws "p" "q" "n" "z"
              (Vector.of_floats "a"
                 [0x1.999999999999ap-4; 0x1.3333333333333p-2;
                  0x1.6666666666666p-1]%float)
              (Vector.of_floats "b"
                 [0x1.999999999999ap-3; 0x1.3333333333333p-1;
                  0x1.6666666666666p+0]%float) eq_refl eq_refl)
    as (p & q & n & Hp & Hq & Hn & Hlaws).
  assert (Hnan : Forall (fun c => is_nan c = false) (coordinates p))
    by (injection Hp as <-; repeat constructor).
  exists p, q, n. repeat split; try assumption.
  - exact (proj1 Hlaws Hnan).
  - exact (proj2 Hlaws Hpar Hnan).
Defined.

(** * Further properties of the session *)

(** ** Searching by uid *)

(** A list splits at its first object of uid [u], or has none. *)
Lemma first_uid_split (u : string) (l : list Object) :
  (forall y, y ∈ l -> uid_of y <> u) \/
  exists l1 x l2,
    l = l1 ++ x :: l2 /\ uid_of x = u /\ (forall y, y ∈ l1 -> uid_of y <> u).
Proof.
  induction l as [|a l IH].
  - left. intros y Hy. inversion Hy.
  - destruct (decide (uid_of a = u)) as [Ha | Ha].
    + right. exists [], a, l. repeat split; [exact Ha|].
      intros y Hy. inversion Hy.
    + destruct IH as [IH | (l1 & x & l2 & -> & Hx & Hl1)].
      * left. intros y Hy. apply elem_of_cons in Hy as [-> | Hy]; auto.
      * right. exists (a :: l1), x, l2. repeat split; [exact Hx|].
        intros y Hy. apply elem_of_cons in Hy as [-> | Hy]; auto.
Qed.

(** X1: [search_by_uid] returns [None] exactly when no workspace object has the
    uid, and otherwise a list of one pair: the first workspace object that
    has the uid and its index. *)
Theorem search_by_uid_spec (u : string) (s : PyMecSession) :
  (Session.search_by_uid u s = None <->
   forall y, y ∈ workspace s -> uid_of y <> u) /\
  (forall r, Session.search_by_uid u s = Some r ->
     exists x i, r = [(x, i)]) /\
  (forall x i, Session.search_by_uid u s = Some [(x, i)] <->
     workspace s !! i = Some x /\ uid_of x = u /\
     forall j y, (j < i)%nat -> workspace s !! j = Some y -> uid_of y <> u).
Proof.
  unfold Session.search_by_uid, enumerate.
  destruct (first_uid_split u (workspace s))
    as [Habs | (l1 & x & l2 & Hws & Hx & Hl1)].
  - rewrite (search_uid_loop_absent u _ 0 Habs). split; [|split].
    + split; auto.
    + discriminate.
    + intros y i. split; [discriminate|].
      intros (Hi & Hy & _). exfalso. apply (Habs y); [|exact Hy].
      now apply list_elem_of_lookup_2 in Hi.
  - rewrite Hws, (search_uid_loop_found u l1 l2 x 0 Hx Hl1). cbn [Nat.add].
    split; [|split].
    + split; [discriminate|]. intros Habs. exfalso. apply (Habs x); [|exact Hx].
      apply elem_of_app. right. constructor.
    + intros r [= <-]. eauto.
    + intros y i. split.
      * intros [= <- <-]. split; [now apply list_lookup_middle|].
        split; [exact Hx|]. intros j z Hj Hz. apply Hl1.
        rewrite lookup_app_l in Hz by exact Hj.
        now apply list_elem_of_lookup_2 in Hz.
      * intros (Hi & Hy & Hfirst).
        destruct (Nat.lt_trichotomy i (List.length l1)) as [Hlt | [-> | Hgt]].
        -- exfalso. rewrite lookup_app_l in Hi by exact Hlt.
           apply (Hl1 y); [|exact Hy]. now apply list_elem_of_lookup_2 in Hi.
        -- rewrite list_lookup_middle in Hi by reflexivity.
           now injection Hi as <-.
        -- exfalso. apply (Hfirst (List.length l1) x Hgt); [|exact Hx].
           now apply list_lookup_middle.
Qed.

(** The session after [append] of an object. *)
Lemma append_state (o : Object) (s : PyMecSession) :
  Session.append (VObject o) s
  = (Return tt, mkSession (workspace s ++ [o]) (header_common s) (header s)).
Proof. reflexivity. Qed.

(** X2: after an object is appended, [search_by_uid] of its uid finds it at
    the last index when no earlier object has that uid; and every search that
    found something before the append finds the same object at the same
    index after it, so that an appended object whose uid is already there is
    never the one found. *)
Theorem append_search_by_uid (o : Object) (s : PyMecSession) :
  let s' := (Session.append (VObject o) s).2 in
  ((forall y, y ∈ workspace s -> uid_of y <> uid_of o) ->
   Session.search_by_uid (uid_of o) s'
   = Some [(o, List.length (workspace s))]) /\
  (forall u r, Session.search_by_uid u s = Some r ->
               Session.search_by_uid u s' = Some r).
Proof.
  cbv zeta. rewrite append_state. cbn [snd].
  unfold Session.search_by_uid, enumerate. cbn [workspace]. split.
  - intros Hfresh.
    now rewrite (search_uid_loop_found (uid_of o) (workspace s) [] o 0 eq_refl Hfresh).
  - intros u r.
    destruct (first_uid_split u (workspace s))
      as [Habs | (l1 & x & l2 & Hws & Hx & Hl1)].
    + now rewrite (search_uid_loop_absent u _ 0 Habs).
    + rewrite Hws, <- app_assoc, <- app_comm_cons.
      now rewrite !(search_uid_loop_found u l1 _ x 0 Hx Hl1).
Qed.

Lemma append_search_by_uid_witness :
  Session.search_by_uid "u2"
    (Session.append (VObject (OPyMecObject (mkPyMecObject "u2" "b")))
       (mkSession [OPyMecObject (mkPyMecObject "u1" "a")] ∅ ∅)).2
  = Some [(OPyMecObject (mkPyMecObject "u2" "b"), 1%nat)]
  /\
  Session.search_by_uid "u1"
    (Session.append (VObject (OPyMecObject (mkPyMecObject "u1" "again")))
       (mkSession [OPyMecObject (mkPyMecObject "u1" "a")] ∅ ∅)).2
  = Some [(OPyMecObject (mkPyMecObject "u1" "a"), 0%nat)].
Proof.
  split.
  - apply (proj1 (append_search_by_uid
             (OPyMecObject (mkPyMecObject "u2" "b"))
             (mkSession [OPyMecObject (mkPyMecObject "u1" "a")] ∅ ∅))).
    intros y Hy. apply list_elem_of_singleton in Hy. subst y. discriminate.
  - apply (proj2 (append_search_by_uid
             (OPyMecObject (mkPyMecObject "u1" "again"))
             (mkSession [OPyMecObject (mkPyMecObject "u1" "a")] ∅ ∅))).
    reflexivity.
Defined.

(** ** Deleting, then searching *)

Lemma NoDup_uids_middle (l1 l2 : list Object) (x : Object) :
  NoDup (map uid_of (l1 ++ x :: l2)) ->
  forall y, y ∈ l1 ++ l2 -> uid_of y <> uid_of x.
Proof.
  rewrite map_app. cbn [map]. intros Hnd y Hy Heq.
  apply NoDup_app in Hnd as (_ & Hdisj & Hnd2).
  apply NoDup_cons in Hnd2 as [Hx _].
  apply elem_of_app in Hy as [Hy | Hy].
  - apply (Hdisj (uid_of y)).
    + apply list_elem_of_In, in_map. now apply list_elem_of_In.
    + rewrite Heq. constructor.
  - apply Hx. rewrite <- Heq.
    apply list_elem_of_In, in_map. now apply list_elem_of_In.
Qed.

(** [delete] pops the first object that has the uid. *)
Lemma delete_found (s : PyMecSession) (obj : Object)
  (l1 l2 : list Object) (x : Object) :
  workspace s = l1 ++ x :: l2 ->
  uid_of x = uid_of obj ->
  (forall y, y ∈ l1 -> uid_of y <> uid_of obj) ->
  Session.delete obj s
  = (Return tt, mkSession (l1 ++ l2) (header_common s) (header s)).
Proof.
  intros Hws Hx Hl1.
  unfold Session.delete, Session.search_by_uid, enumerate.
  monad_unfold. rewrite Hws.
  rewrite (search_uid_loop_found _ l1 l2 x 0 Hx Hl1).
  unfold getitem, Session.pop, Session.set_workspace. monad_unfold.
  cbn. rewrite Hws, list_lookup_middle by reflexivity.
  now rewrite delete_middle.
Qed.

(** X3: in a workspace whose uids are pairwise distinct, [delete] of an object
    whose uid is in the workspace returns, shortens the workspace by one,
    leaves every object of another uid in it, and [search_by_uid] of the
    deleted uid then returns [None]. *)
Theorem delete_then_search (obj : Object) (s : PyMecSession) :
  NoDup (uids s) ->
  (exists x, x ∈ workspace s /\ uid_of x = uid_of obj) ->
  let out := Session.delete obj s in
  out.1 = Return tt /\
  S (List.length (workspace out.2)) = List.length (workspace s) /\
  Session.search_by_uid (uid_of obj) out.2 = None /\
  (forall y, y ∈ workspace s -> uid_of y <> uid_of obj -> y ∈ workspace out.2) /\
  header out.2 = header s /\ header_common out.2 = header_common s.
Proof.
  intros Hnd (x0 & Hx0 & Hu0). cbv zeta.
  destruct (first_uid_split (uid_of obj) (workspace s))
    as [Habs | (l1 & x & l2 & Hws & Hx & Hl1)].
  { exfalso. now apply (Habs x0). }
  rewrite (delete_found s obj l1 l2 x Hws Hx Hl1). cbn [fst snd workspace header header_common].
  split; [reflexivity|]. split.
  { rewrite Hws, !length_app. cbn [List.length]. lia. }
  split.
  { unfold Session.search_by_uid, enumerate. cbn [workspace].
    apply search_uid_loop_absent.
    unfold uids in Hnd. rewrite Hws in Hnd. rewrite <- Hx.
    now apply NoDup_uids_middle. }
  split; [|split; reflexivity].
  intros y Hy Hne. rewrite Hws in Hy.
  apply elem_of_app in Hy as [Hy | Hy]; apply elem_of_app; [now left|].
  apply elem_of_cons in Hy as [-> | Hy]; [congruence | now right].
Qed.

Lemma delete_then_search_witness :
  let s := mkSession [OPyMecObject (mkPyMecObject "u1" "to be deleted");
                      OPyMecObject (mkPyMecObject "u2" "");
                      OPyMecObject (mkPyMecObject "u3" "")] ∅ ∅ in
  let obj := OPyMecObject (mkPyMecObject "u1" "to be deleted") in
  let out := Session.delete obj s in
  out.1 = Return tt /\
  S (List.length (workspace out.2)) = List.length (workspace s) /\
  Session.search_by_uid (uid_of obj) out.2 = None /\
  (forall y, y ∈ workspace s -> uid_of y <> uid_of obj -> y ∈ workspace out.2) /\
  header out.2 = header s /\ header_common out.2 = header_common s.
Proof.
  apply (delete_then_search
           (OPyMecObject (mkPyMecObject "u1" "to be deleted"))
           (mkSession [OPyMecObject (mkPyMecObject "u1" "to be deleted");
                       OPyMecObject (mkPyMecObject "u2" "");
                       OPyMecObject (mkPyMecObject "u3" "")] ∅ ∅)).
  - vm_compute. repeat constructor; intros H;
      repeat (apply elem_of_cons in H as [H | H]; [discriminate H|]);
      exact (proj1 (elem_of_nil _) H).
  - eexists. split; [constructor | reflexivity].
Defined.

(** ** Directories *)

Lemma mkdir_unfold (d : path) :
  mkdir d = fold_left (mkdir_step d) (prefixes d) (ret tt).
Proof. reflexivity. Qed.

Lemma mkdir_step_cases (d : path) (m : M filesystem unit) (q : path)
  (fs0 : filesystem) :
  q <> [] ->
  let mid := m fs0 in
  let out := mkdir_step d m q fs0 in
  (mid.1 <> Return tt /\ out = mid) \/
  (mid.1 = Return tt /\ mid.2 !! q = Some Dir /\ out = (Return tt, mid.2)) \/
  (mid.1 = Return tt /\ mid.2 !! q = None /\
   out = (Return tt, <[q := Dir]> mid.2)) \/
  (mid.1 = Return tt /\ (exists c, mid.2 !! q = Some (File c)) /\
   out.1 <> Return tt /\ out.2 = mid.2).
Proof.
  intros Hq. cbv zeta. unfold mkdir_step. monad_unfold.
  destruct (m fs0) as [[[]|e] fs1]; cbn [fst snd].
  - destruct q as [|a q]; [congruence|]. cbn [node_at].
    destruct (fs1 !! (a :: q)) as [[c|]|] eqn:Hn.
    + right. right. right. split; [reflexivity|]. split; [eauto|].
      destruct (decide (a :: q = d)); cbn; split; auto; discriminate.
    + right. left. auto.
    + right. right. left. auto.
  - left. split; [discriminate | reflexivity].
Qed.

(** What a run of [mkdir] steps does to the disk. *)
Lemma mkdir_fold (d : path) (l : list path) (m : M filesystem unit)
  (fs0 : filesystem) :
  Forall (fun q => q <> []) l ->
  let mid := m fs0 in
  let out := fold_left (mkdir_step d) l m fs0 in
  (forall q, out.2 !! q = mid.2 !! q \/
             (mid.2 !! q = None /\ out.2 !! q = Some Dir /\ q ∈ l)) /\
  (out.1 = Return tt ->
   mid.1 = Return tt /\ forall q, q ∈ l -> out.2 !! q = Some Dir) /\
  (mid.1 = Return tt ->
   (forall q, q ∈ l -> mid.2 !! q = None \/ mid.2 !! q = Some Dir) ->
   out.1 = Return tt).
Proof.
  intros Hl. revert m. induction Hl as [|q l Hq Hl IH]; intros m; cbv zeta.
  - cbn [fold_left]. split; [auto|]. split; [|auto].
    intros H. split; [exact H|]. intros q Hq. inversion Hq.
  - cbn [fold_left]. specialize (IH (mkdir_step d m q)). cbv zeta in IH.
    destruct IH as (IH1 & IH2 & IH3).
    pose proof (mkdir_step_cases d m q fs0 Hq) as Hstep. cbv zeta in Hstep.
    set (out := fold_left (mkdir_step d) l (mkdir_step d m q) fs0) in *.
    set (mid' := mkdir_step d m q fs0) in *.
    set (mid := m fs0) in *.
    assert (Hmid' : forall r, mid'.2 !! r = mid.2 !! r \/
                              (mid.2 !! r = None /\ mid'.2 !! r = Some Dir /\ r = q)).
    { intros r.
      destruct Hstep as [[_ ->] | [(_ & _ & ->) | [(_ & Hn & ->) | (_ & _ & _ & ->)]]];
        cbn [snd]; auto.
      destruct (decide (q = r)) as [<- | Hne].
      - right. rewrite lookup_insert_eq. auto.
      - left. now rewrite lookup_insert_ne. }
    split; [|split].
    + intros r. destruct (IH1 r) as [H | (Hn & Hd & Hin)].
      * rewrite H. destruct (Hmid' r) as [H' | (Hn' & Hd' & ->)]; [now left|].
        right. repeat split; auto. constructor.
      * destruct (Hmid' r) as [H' | (Hn' & Hd' & ->)].
        -- right. rewrite <- H'. repeat split; auto. now constructor.
        -- congruence.
    + intros Hout. destruct (IH2 Hout) as [Hm' Hdirs].
      assert (Hm : mid.1 = Return tt /\ mid'.2 !! q = Some Dir).
      { destruct Hstep as [[Hne Heq] | [(Hm & Hd & Heq) | [(Hm & Hn & Heq) | (_ & _ & Hne & _)]]].
        - rewrite Heq in Hm'. contradiction.
        - rewrite Heq. auto.
        - rewrite Heq. cbn [snd]. rewrite lookup_insert_eq. auto.
        - contradiction. }
      destruct Hm as [Hm Hq']. split; [exact Hm|].
      intros r Hr. apply elem_of_cons in Hr as [-> | Hr]; [|now apply Hdirs].
      destruct (IH1 q) as [H | (Hn & _)]; congruence.
    + intros Hm Hall. apply IH3.
      * destruct (Hall q) as [Hn | Hd]; [constructor| |].
        -- destruct Hstep as [[Hne _] | [(_ & Hd & _) | [(_ & _ & ->) | (_ & [c Hc] & _)]]];
             try congruence. reflexivity.
        -- destruct Hstep as [[Hne _] | [(_ & _ & ->) | [(_ & Hn & _) | (_ & [c Hc] & _)]]];
             try congruence. reflexivity.
      * intros r Hr.
        destruct (Hmid' r) as [H | (_ & H & _)]; [|auto].
        rewrite H. apply Hall. now constructor.
Qed.

Lemma prefixes_nonempty (d : path) : Forall (fun q => q <> []) (prefixes d).
Proof.
  unfold prefixes. apply Forall_forall. intros q Hq.
  apply list_elem_of_In, in_map_iff in Hq as (n & <- & Hn).
  apply in_seq in Hn. destruct d as [|a d]; [cbn in Hn; lia|].
  destruct n as [|n]; [lia | discriminate].
Qed.

(** [mkdir], whether it returns or raises, only adds directories where
    nothing was. *)
Lemma mkdir_lookup (d : path) (fs : filesystem) (q : path) :
  (mkdir d fs).2 !! q = fs !! q \/
  (fs !! q = None /\ (mkdir d fs).2 !! q = Some Dir /\ q ∈ prefixes d).
Proof.
  rewrite mkdir_unfold.
  exact (proj1 (mkdir_fold d (prefixes d) (ret tt) fs (prefixes_nonempty d)) q).
Qed.

(** When [mkdir] returns, the directory and its ancestors are there. *)
Lemma mkdir_Return (d : path) (fs fs' : filesystem) (q : path) :
  mkdir d fs = (Return tt, fs') -> q ∈ prefixes d -> fs' !! q = Some Dir.
Proof.
  intros H Hq.
  destruct (mkdir_fold d (prefixes d) (ret tt) fs (prefixes_nonempty d))
    as (_ & H2 & _).
  rewrite <- mkdir_unfold, H in H2. now apply H2.
Qed.


(** ** Saving *)

Lemma prefixes_length (d q : path) :
  q ∈ prefixes d -> (List.length q <= List.length d)%nat.
Proof.
  unfold prefixes. intros Hq.
  apply list_elem_of_In, in_map_iff in Hq as (n & <- & Hn).
  rewrite length_take. lia.
Qed.

Lemma parent_length (p : path) :
  p <> [] -> S (List.length (parent p)) = List.length p.
Proof.
  intros Hp. unfold parent.
  destruct (exists_last Hp) as (l & a & ->).
  rewrite removelast_last, length_app. cbn. lia.
Qed.

Lemma not_prefix_of_parent (p : path) : p <> [] -> p ∉ prefixes (parent p).
Proof.
  intros Hp Hin. apply prefixes_length in Hin.
  pose proof (parent_length p Hp). lia.
Qed.



(** X4: without a [filename] argument and without a [filename] entry in the
    header, [save_to_file] raises KeyError and, when its guard lets it look
    for the file name, so does [load_file]; the session and the disk are
    left as they were. *)
Theorem missing_filename (s : PyMecSession) (fs : filesystem)
  (now : Z) (overwrite : bool) :
  header s !! "filename"%string = None ->
  Session.save_to_file now None overwrite (s, fs)
  = (Raise (KeyError "filename"), (s, fs)) /\
  (truth (workspace s) && negb overwrite = false ->
   Session.load_file None overwrite (s, fs)
   = (Raise (KeyError "filename"), (s, fs))).
Proof.
  intros Hh. split.
  - unfold Session.save_to_file, Session.resolve, Session.header_getitem.
    monad_unfold. cbn [fst snd]. now rewrite Hh.
  - intros Hg.
    unfold Session.load_file, Session.resolve, Session.header_getitem.
    monad_unfold. cbn [fst snd]. rewrite Hg. cbn [fst snd]. now rewrite Hh.
Qed.

Lemma missing_filename_witness :
  Session.save_to_file 1 None false
    (mkSession [OPyMecObject (mkPyMecObject "u1" "an object")] ∅ ∅, ∅)
  = (Raise (KeyError "filename"),
     (mkSession [OPyMecObject (mkPyMecObject "u1" "an object")] ∅ ∅, ∅)) /\
  Session.load_file None true
    (mkSession [OPyMecObject (mkPyMecObject "u1" "an object")] ∅ ∅, ∅)
  = (Raise (KeyError "filename"),
     (mkSession [OPyMecObject (mkPyMecObject "u1" "an object")] ∅ ∅, ∅)).
Proof.
  assert (H : header (mkSession [OPyMecObject (mkPyMecObject "u1" "an object")]
                        ∅ ∅) !! "filename"%string = None)
    by (vm_compute; reflexivity).
  split.
  - exact (proj1 (missing_filename _ ∅ 1 false H)).
  - exact (proj2 (missing_filename _ ∅ 1 true H) eq_refl).
Defined.

(** X5: a file name kept in the header as a string serves [load_file], which
    opens it, and not [save_to_file], which asks it whether it exists: the
    save raises AttributeError after it has written [savedate], and writes
    nothing on the disk. *)
Theorem string_filename_in_header (s : PyMecSession) (fs : filesystem)
  (now : Z) (overwrite : bool) (f : string) :
  header s !! "filename"%string = Some (VStr f) ->
  Session.save_to_file now None overwrite (s, fs)
  = (Raise (AttributeError "exists"),
     (mkSession (workspace s) (header_common s)
        (<["savedate"%string := VDatetime now]> (header s)), fs)) /\
  (forall hc h ws,
     truth (workspace s) && negb overwrite = false ->
     node_at fs (Path f) = Some (File (Saved hc h ws)) ->
     Session.load_file None overwrite (s, fs)
     = (Return tt, (mkSession ws hc h, fs))).
Proof.
  intros Hh. split.
  - unfold Session.save_to_file, Session.resolve, Session.header_getitem,
      Session.header_setitem.
    monad_unfold. cbn [fst snd]. rewrite Hh. cbn [fst snd workspace header_common header].
    now rewrite (insert_id (header s) _ _ Hh).
  - intros hc h ws Hg Hnode.
    unfold Session.load_file, Session.resolve, Session.header_getitem,
      Session.openable, load.
    monad_unfold. cbn [fst snd]. rewrite Hg. cbn [fst snd]. rewrite Hh.
    cbn [fst snd]. now rewrite Hnode.
Qed.

Lemma string_filename_in_header_witness :
  let s := mkSession [] ∅ {[ "filename"%string := VStr "a.pymec" ]} in
  let fs : filesystem :=
    {[ ["a.pymec"%string] :=
         File (Saved ∅ ∅ [OPyMecObject (mkPyMecObject "u1" "")]) ]} in
  Session.save_to_file 5 None true (s, fs)
  = (Raise (AttributeError "exists"),
     (mkSession [] ∅ (<["savedate"%string := VDatetime 5]>
                        {[ "filename"%string := VStr "a.pymec" ]}), fs)) /\
  Session.load_file None true (s, fs)
  = (Return tt, (mkSession [OPyMecObject (mkPyMecObject "u1" "")] ∅ ∅, fs)).
Proof.
  cbv zeta.
  assert (H : header (mkSession [] ∅ {[ "filename"%string := VStr "a.pymec" ]})
              !! "filename"%string = Some (VStr "a.pymec"))
    by (vm_compute; reflexivity).
  destruct (string_filename_in_header _
              {[ ["a.pymec"%string] :=
                   File (Saved ∅ ∅ [OPyMecObject (mkPyMecObject "u1" "")]) ]}
              5 true "a.pymec" H) as [Hsave Hload].
  split; [exact Hsave|]. apply Hload; vm_compute; reflexivity.
Defined.

(** What a [save_to_file] that returns has done: every fact the properties
    below need. *)
Lemma save_to_file_Return (s s' : PyMecSession) (fs fs' : filesystem)
  (now : Z) (filename : option string) (overwrite : bool) :
  Session.save_to_file now filename overwrite (s, fs) = (Return tt, (s', fs')) ->
  exists p,
    p <> [] /\
    s' = mkSession (workspace s) (header_common s)
           (<["savedate"%string := VDatetime now]>
              (<["filename"%string := VPath p]> (header s))) /\
    fs' !! p = Some (File (Saved (header_common s') (header s') (workspace s'))) /\
    (forall q, q ∈ prefixes (parent p) -> fs' !! q = Some Dir) /\
    (forall q, q <> p -> q ∉ prefixes (parent p) -> fs' !! q = fs !! q) /\
    (exists_ fs p && negb overwrite = false) /\
    match filename with
    | Some f => p = Path f
    | None => header s !! "filename"%string = Some (VPath p)
    end.
Proof.
  unfold Session.save_to_file. intros H.
  apply bind_Return in H as (v & [s1 fs1] & H1 & H).
  apply on_session_Return in H1 as [H1 Hfs1]. simpl in H1, Hfs1. subst fs1.
  apply resolve_Return in H1 as [-> Hv].
  apply bind_Return in H as ([] & [s2 fs2] & H2 & H).
  apply on_session_Return in H2 as [H2 Hfs2]. simpl in H2, Hfs2. subst fs2.
  apply bind_Return in H as ([] & [s3 fs3] & H3 & H).
  apply on_session_Return in H3 as [H3 Hfs3]. simpl in H3, Hfs3. subst fs3.
  unfold Session.header_setitem in H2, H3. monad_unfold.
  injection H2 as <-. injection H3 as <-.
  destruct v as [|f|p|t|o]; try discriminate.
  cbn [fst snd] in H.
  destruct (exists_ fs p && negb overwrite) eqn:Hex; [discriminate|].
  cbn [fst snd] in H.
  destruct (mkdir (parent p) fs) as [[[]|e] fs0] eqn:Hmk; [|discriminate].
  cbn [fst snd] in H.
  destruct (dump p _ fs0) as [[[]|e] fs4] eqn:Hdump; [|discriminate].
  injection H as <- <-. exists p.
  assert (Hp : p <> []).
  { intros ->. unfold dump in Hdump. monad_unfold. cbn [node_at] in Hdump.
    discriminate. }
  assert (Hfs4 : fs4 = <[p := File (Saved (header_common s) 
                    (<["savedate"%string := VDatetime now]>
                       (<["filename"%string := VPath p]> (header s)))
                    (workspace s))]> fs0).
  { unfold dump in Hdump. monad_unfold. cbn [workspace header header_common] in Hdump.
    destruct (node_at fs0 p) as [[c|]|]; try discriminate;
      destruct (node_at fs0 (parent p)) as [[c'|]|]; try discriminate;
      try (destruct (existsb _ _); discriminate);
      now injection Hdump as <-. }
  split; [exact Hp|]. split; [reflexivity|].
  cbn [workspace header header_common]. rewrite Hfs4.
  split; [apply lookup_insert_eq|]. split; [|split; [|split]].
  - intros q Hq. rewrite lookup_insert_ne.
    + exact (mkdir_Return _ _ _ _ Hmk Hq).
    + intros <-. now apply (not_prefix_of_parent p).
  - intros q Hqp Hq. rewrite lookup_insert_ne by congruence.
    pose proof (mkdir_lookup (parent p) fs q) as Hl. rewrite Hmk in Hl.
    cbn [snd] in Hl. destruct Hl as [Hl | (_ & _ & Hin)]; [exact Hl | contradiction].
  - exact Hex.
  - destruct filename; [now inversion Hv | exact Hv].
Qed.





(** ** Loading *)

(** X8: [load_file] reads the disk and never writes it, and a load that
    returns has replaced the whole session: the workspace, the header and
    the common header are the three parts of the file that was named, by the
    argument or by the header's [filename], and nothing of the previous
    session is kept, not even the common header. *)
Theorem load_file_replaces_session (filename : option string)
  (overwrite : bool) (w : world) :
  let out := Session.load_file filename overwrite w in
  out.2.2 = w.2 /\
  (out.1 = Return tt ->
   exists p hc h ws,
     w.2 !! p = Some (File (Saved hc h ws)) /\
     out.2.1 = mkSession ws hc h /\
     match filename with
     | Some f => p = Path f
     | None =>
         header w.1 !! "filename"%string = Some (VPath p) \/
         exists f, header w.1 !! "filename"%string = Some (VStr f) /\ p = Path f
     end).
Proof.
  destruct w as [s fs]. cbv zeta.
  unfold Session.load_file, Session.resolve, Session.header_getitem,
    Session.openable, load.
  monad_unfold. cbn [fst snd].
  destruct filename as [f|]; repeat case_step; cbn [fst snd];
    (split; [reflexivity|]); intros H; try discriminate H.
  all: match goal with
    | E : node_at ?fs ?p = Some (File (Saved ?hc ?h ?ws)) |- _ =>
        exists p, hc, h, ws; split; [destruct p; [discriminate | exact E]|];
        split; [reflexivity|]
    end.
  all: first [reflexivity | left; reflexivity | right; eexists; split; reflexivity].
Qed.

(** What [dump] leaves alone: a directory is never replaced by a file and
    nothing is removed. *)
Lemma dump_frame (p : path) (c : unpickled) (fs : filesystem) (q : path) :
  (fs !! q = Some Dir -> (dump p c fs).2 !! q = Some Dir) /\
  (is_Some (fs !! q) -> is_Some ((dump p c fs).2 !! q)).
Proof.
  unfold dump. monad_unfold.
  destruct (node_at fs p) as [[c1|]|] eqn:Hp; cbn [fst snd]; auto;
    destruct (node_at fs (parent p)) as [[c2|]|]; cbn [fst snd]; auto;
    try (destruct (existsb _ _); cbn [fst snd]; now auto).
  all: destruct (decide (p = q)) as [->|Hne];
    [|now rewrite lookup_insert_ne by exact Hne].
  all: rewrite lookup_insert_eq; split; [|eauto]; intros Hq.
  all: destruct q as [|a q']; [discriminate|]; cbn [node_at] in Hp; congruence.
Qed.

(** X9: what [save_to_file] never touches, whether it returns or raises.
    The workspace and the common header stay as they were and the header
    changes at most under the keys [filename] and [savedate]; on the disk no
    directory is removed or replaced and nothing that was there is
    removed. *)
Theorem save_to_file_frame (now : Z) (filename : option string)
  (overwrite : bool) (w : world) :
  let out := Session.save_to_file now filename overwrite w in
  workspace out.2.1 = workspace w.1 /\
  header_common out.2.1 = header_common w.1 /\
  (forall k : string, k <> "filename"%string -> k <> "savedate"%string ->
     header out.2.1 !! k = header w.1 !! k) /\
  (forall q, w.2 !! q = Some Dir -> out.2.2 !! q = Some Dir) /\
  (forall q, is_Some (w.2 !! q) -> is_Some (out.2.2 !! q)).
Proof.
  destruct w as [s fs]. cbv zeta.
  assert (Hhdr : forall (v : value) (k : string),
    k <> "filename"%string -> k <> "savedate"%string ->
    (<["savedate"%string := VDatetime now]>
       (<["filename"%string := v]> (header s))) !! k = header s !! k).
  { intros v k H1 H2. rewrite !lookup_insert_ne by congruence. reflexivity. }
  assert (Hmk : forall d q,
    (fs !! q = Some Dir -> (mkdir d fs).2 !! q = Some Dir) /\
    (is_Some (fs !! q) -> is_Some ((mkdir d fs).2 !! q))).
  { intros d q. destruct (mkdir_lookup d fs q) as [-> | (Hn & Hd & _)].
    - split; auto.
    - rewrite Hn, Hd. split; [discriminate | eauto]. }
  unfold Session.save_to_file, Session.resolve, Session.header_getitem,
    Session.header_setitem.
  monad_unfold. cbn [fst snd].
  repeat case_step; cbn [workspace header_common header fst snd];
    (split; [reflexivity|]); (split; [reflexivity|]);
    (split; [solve [auto]|]).
  all: try solve [split; auto].
  all: try match goal with
    | E : mkdir ?d ?fs0 = (_, ?f) |- _ =>
        pose proof (Hmk d) as Hm; rewrite E in Hm; cbn [fst snd] in Hm
    end.
  all: try solve [split; intros q; apply (Hm q)].
  all: match goal with
    | E : dump ?p ?c ?fs0 = _ |- _ =>
        pose proof (dump_frame p c fs0) as Hd; rewrite E in Hd;
        cbn [fst snd] in Hd
    end.
  all: split; intros q Hq;
    [exact (proj1 (Hd q) (proj1 (Hm q) Hq))
    | exact (proj2 (Hd q) (proj2 (Hm q) Hq))].
Qed.

(** X20: reloading what was saved.  After a [save_to_file] that returned,
    the session reloads its own file without naming it: [load_file()]
    raises FileExistsError while the workspace holds an object and
    [overwrite] is unset, and otherwise returns and puts the session back
    in the state in which the save left it, whatever the workspace held;
    in particular after [wipe_workspace]. *)
Theorem reload_after_save (s s1 : PyMecSession) (fs fs1 : filesystem)
  (now : Z) (filename : option string) (overwrite : bool) :
  Session.save_to_file now filename overwrite (s, fs) = (Return tt, (s1, fs1)) ->
  (forall (ws : list Object) (ov : bool),
     let s2 := mkSession ws (header_common s1) (header s1) in
     Session.load_file None ov (s2, fs1)
     = if truth ws && negb ov
       then (Raise (FileExistsError
                      "Workspace is not empty. Set overwrite to True to overwrite"),
             (s2, fs1))
       else (Return tt, (s1, fs1))) /\
  (on_session Session.wipe_workspace;; Session.load_file None false) (s1, fs1)
  = (Return tt, (s1, fs1)).
Proof.
  intros Hsave.
  apply save_to_file_Return in Hsave
    as (p & Hp & Hs1 & Hfile & _ & _ & _ & _).
  assert (Hname : header s1 !! "filename"%string = Some (VPath p)).
  { rewrite Hs1. cbn [header]. rewrite lookup_insert_ne by discriminate.
    apply lookup_insert_eq. }
  assert (Hnode : node_at fs1 p
                  = Some (File (Saved (header_common s1) (header s1) (workspace s1)))).
  { destruct p as [|a p']; [congruence | exact Hfile]. }
  assert (Hload : forall (ws : list Object) (ov : bool),
    Session.load_file None ov (mkSession ws (header_common s1) (header s1), fs1)
    = if truth ws && negb ov
      then (Raise (FileExistsError
                     "Workspace is not empty. Set overwrite to True to overwrite"),
            (mkSession ws (header_common s1) (header s1), fs1))
      else (Return tt, (s1, fs1))).
  { intros ws ov.
    unfold Session.load_file, Session.resolve, Session.header_getitem,
      Session.openable, load.
    monad_unfold. cbn [fst snd workspace header].
    destruct (truth ws && negb ov); [reflexivity|].
    cbn [fst snd workspace header]. rewrite Hname. cbn [fst snd]. rewrite Hnode. cbn [len Nat.eqb negb].
    now destruct s1. }
  split; [exact Hload|].
  pose proof (Hload [] false) as H. cbn [truth andb] in H.
  unfold Session.wipe_workspace, Session.set_workspace.
  monad_unfold. cbn [fst snd]. exact H.
Qed.

Lemma reload_after_save_witness :
  let out := Session.save_to_file 1 (Some "a.pymec"%string) false
               (mkSession [OPyMecObject (mkPyMecObject "u1" "")] ∅ ∅, ∅) in
  (forall (ws : list Object) (ov : bool),
     let s2 := mkSession ws (header_common out.2.1) (header out.2.1) in
     Session.load_file None ov (s2, out.2.2)
     = if truth ws && negb ov
       then (Raise (FileExistsError
                      "Workspace is not empty. Set overwrite to True to overwrite"),
             (s2, out.2.2))
       else (Return tt, out.2)) /\
  (on_session Session.wipe_workspace;; Session.load_file None false) out.2
  = (Return tt, out.2).
Proof.
  cbv zeta.
  apply (reload_after_save (mkSession [OPyMecObject (mkPyMecObject "u1" "")] ∅ ∅)
           _ ∅ _ 1 (Some "a.pymec"%string) false).
  vm_compute. reflexivity.
Defined.

(** * Further properties of vectors *)

(** ** Dimensions *)

Lemma length_zip_map {A B C} (f : A * B -> C) (l1 : list A) (l2 : list B) :
  List.length l1 = List.length l2 ->
  List.length (map f (zip l1 l2)) = List.length l1.
Proof.
  rewrite length_map. revert l2.
  induction l1 as [|x l1 IH]; intros [|y l2] H; cbn in *; try congruence.
  f_equal. apply IH. lia.
Qed.

(** X10: the dimension decides whether the operations on two vectors return.
    On vectors of one dimension the sum and the difference are vectors of
    that dimension; on vectors of different dimensions the sum, the
    difference and the cross product raise the ValueError of [check_dim];
    the cross product of vectors of one dimension other than 3 raises its
    own ValueError, and in dimension 3 it is a vector of dimension 3. *)
Theorem dimension_laws (u : string) (a b : Vector) :
  (Vector.dim a = Vector.dim b ->
   exists s d,
     Vector.__add__ u a b = Return s /\ Vector.__sub__ u a b = Return d /\
     Vector.dim s = Vector.dim a /\ Vector.dim d = Vector.dim a) /\
  (Vector.dim a <> Vector.dim b ->
   let e := ValueError "Vectors are not the same dimension" in
   Vector.__add__ u a b = Raise e /\ Vector.__sub__ u a b = Raise e /\
   Vector.cross_product u a b = Raise e) /\
  (Vector.dim a = Vector.dim b -> Vector.dim a <> 3%nat ->
   Vector.cross_product u a b
   = Raise (ValueError "Cross product doesn't exist for vector not indimension 3")) /\
  (Vector.dim a = 3%nat -> Vector.dim b = 3%nat ->
   exists p, Vector.cross_product u a b = Return p /\ Vector.dim p = 3%nat).
Proof.
  unfold Vector.__add__, Vector.__sub__, Vector.cross_product, Vector.check_dim.
  repeat split.
  - intros Hdim. apply Nat.eqb_eq in Hdim as Heq. rewrite Heq. cbn [negb].
    eexists _, _. split; [reflexivity|]. split; [reflexivity|].
    unfold Vector.dim in *. cbn [coordinates Vector.of_floats].
    split; now apply length_zip_map.
  - apply Nat.eqb_neq in H. now rewrite H.
  - apply Nat.eqb_neq in H. now rewrite H.
  - apply Nat.eqb_neq in H. now rewrite H.
  - intros Hdim H3. apply Nat.eqb_eq in Hdim. rewrite Hdim. cbn [negb].
    apply Nat.eqb_neq in H3. now rewrite H3.
  - intros Ha Hb.
    destruct (dim_3 a Ha) as (a0 & a1 & a2 & Hca).
    destruct (dim_3 b Hb) as (b0 & b1 & b2 & Hcb).
    eexists. split; [exact (cross_product_3 u a b _ _ _ _ _ _ Hca Hcb)|].
    reflexivity.
Qed.

(** ** Scaling *)

Lemma comprehension_map {A B} (f : A -> result B) (g : A -> B) (l : list A) :
  (forall x, f x = Return (g x)) -> comprehension f l = Return (map g l).
Proof.
  intros Hf. induction l as [|x l IH]; [reflexivity|].
  cbn [comprehension map]. rewrite Hf, IH. reflexivity.
Qed.

Lemma dividing_comprehension_map {A B} (f : A -> outcome B) (g : A -> B)
  (l : list A) :
  (forall x, f x = Value (g x)) -> dividing_comprehension f l = Value (map g l).
Proof.
  intros Hf. induction l as [|x l IH]; [reflexivity|].
  cbn [dividing_comprehension map]. rewrite Hf, IH. reflexivity.
Qed.

(** X11: scaling a vector by a number.  The empty vector is returned as it
    is by a product and by a quotient, whatever the number, zero and ints
    beyond the floats included.  On a vector that has coordinates, an int
    too large for a float raises OverflowError in both; otherwise the product
    returns the coordinates multiplied, from the left, by the number as a
    float, and the quotient raises ZeroDivisionError on a zero of either
    sign and returns the coordinates divided by the number on any other,
    a NaN included. *)
Theorem scaling_spec (u : string) (v : Vector) (num : number) :
  (coordinates v = [] ->
   Vector.__mul__ u v num = Return (Vector.of_floats u []) /\
   Vector.__truediv__ u v num = Value (Vector.of_floats u [])) /\
  (coordinates v <> [] ->
   forall e, py_float num = Raise e ->
     Vector.__mul__ u v num = Raise e /\
     Vector.__truediv__ u v num = Error e) /\
  (forall d, py_float num = Return d ->
     Vector.__mul__ u v num
     = Return (Vector.of_floats u (map (fun c => d * c)%float (coordinates v))) /\
     (coordinates v <> [] -> (d =? 0)%float = true ->
      Vector.__truediv__ u v num = ZeroDivisionError) /\
     ((d =? 0)%float = false ->
      Vector.__truediv__ u v num
      = Value (Vector.of_floats u (map (fun c => c / d)%float (coordinates v))))).
Proof.
  unfold Vector.__mul__, Vector.__truediv__, float_truediv.
  split; [|split].
  - intros ->. split; reflexivity.
  - intros Hne e He. destruct (coordinates v) as [|c l]; [congruence|].
    cbn [comprehension dividing_comprehension]. rewrite He. split; reflexivity.
  - intros d Hd. rewrite Hd. split; [|split].
    + now rewrite (comprehension_map _ (fun c => d * c)%float).
    + intros Hne Hz. destruct (coordinates v) as [|c l]; [congruence|].
      cbn [dividing_comprehension of_result]. unfold mbind, outcome_bind, obind.
      now rewrite Hz.
    + intros Hz.
      rewrite (dividing_comprehension_map _ (fun c => c / d)%float);
        [reflexivity|].
      intros x. cbn [of_result]. unfold mbind, outcome_bind, obind.
      now rewrite Hz.
Qed.

(** ** Exact quotients *)

Lemma digits2_pos_mul_le (n m : positive) :
  Z.pos (digits2_pos (n * m)) <= Z.pos (digits2_pos n) + Z.pos (digits2_pos m).
Proof.
  pose proof (digits2_pos_gt n) as Hn. pose proof (digits2_pos_gt m) as Hm.
  pose proof (digits2_pos_le (n * m)) as Hnm.
  destruct (Z_le_gt_dec (Z.pos (digits2_pos (n * m)))
              (Z.pos (digits2_pos n) + Z.pos (digits2_pos m))) as [H|H];
    [exact H|].
  assert (H1 : 2 ^ (Z.pos (digits2_pos n) + Z.pos (digits2_pos m))
               <= 2 ^ (Z.pos (digits2_pos (n * m)) - 1))
    by (apply Z.pow_le_mono_r; lia).
  rewrite Z.pow_add_r in H1 by lia.
  rewrite Pos2Z.inj_mul in Hnm.
  assert (Z.pos n * Z.pos m
          < 2 ^ Z.pos (digits2_pos n) * 2 ^ Z.pos (digits2_pos m))
    by (apply Z.mul_lt_mono_nonneg; lia).
  lia.
Qed.

(** The quotient of the float of [k * n] by the float of [n] is the float
    of [k]. *)
Lemma SFdiv_SF_int (sx sy : bool) (k ny : positive) :
  Z.pos (k * ny) < 2 ^ 53 ->
  SF64div (SF_int sx (k * ny)) (SF_int sy ny) = SF_int (xorb sx sy) k.
Proof.
  intros Hxy.
  assert (Hk : Z.pos k < 2 ^ 53) by (rewrite Pos2Z.inj_mul in Hxy; nia).
  assert (Hy : Z.pos ny < 2 ^ 53) by (rewrite Pos2Z.inj_mul in Hxy; nia).
  pose proof (digits2_pos_mul_le k ny) as Hd.
  pose proof (padding_Z (k * ny) Hxy) as Hpx. pose proof (padding_Z ny Hy) as Hpy.
  pose proof (padding_Z k Hk) as Hpk.
  pose proof (digits2_pos_53 _ Hxy) as Hdx. pose proof (digits2_pos_53 _ Hy) as Hdy.
  pose proof (digits2_pos_53 _ Hk) as Hdk.
  unfold SF64div, SFdiv, SF_int, SFdiv_core_binary, Zdigits2.
  rewrite !digits2_pshl.
  set (px := padding (k * ny)) in *. set (py := padding ny) in *.
  set (pk := padding k) in *.
  replace (Z.pos (digits2_pos (k * ny)) + Z.of_nat px + - Z.of_nat px
           - (Z.pos (digits2_pos ny) + Z.of_nat py + - Z.of_nat py))
    with (Z.of_nat py - Z.of_nat px) by lia.
  assert (Hfexp : fexp prec emax (Z.of_nat py - Z.of_nat px)
                  = Z.of_nat py - Z.of_nat px - 53)
    by (unfold fexp, SpecFloat.emin, prec, emax; lia).
  rewrite Hfexp.
  replace (Z.min (Z.of_nat py - Z.of_nat px - 53) (- Z.of_nat px - - Z.of_nat py))
    with (Z.of_nat py - Z.of_nat px - 53) by lia.
  replace (- Z.of_nat px - - Z.of_nat py - (Z.of_nat py - Z.of_nat px - 53))
    with 53 by lia.
  cbv iota beta.
  set (j := (px + 53 - py)%nat).
  assert (Hm' : Z.shiftl (Z.pos (pshl px (k * ny))) 53
                = Z.pos (pshl j k) * Z.pos (pshl py ny)).
  { rewrite Z.shiftl_mul_pow2 by lia. rewrite !pshl_Z, Pos2Z.inj_mul.
    assert (Hpow : 2 ^ Z.of_nat j * 2 ^ Z.of_nat py = 2 ^ Z.of_nat px * 2 ^ 53).
    { rewrite <- !Z.pow_add_r by lia. f_equal. unfold j. lia. }
    generalize dependent (2 ^ Z.of_nat j). generalize (2 ^ Z.of_nat py).
    generalize (2 ^ Z.of_nat px). generalize (2 ^ 53).
    intros a b c d Hpow.
    transitivity (Z.pos k * Z.pos ny * (d * c)); [rewrite Hpow|]; ring. }
  rewrite Hm'.
  assert (Hdiv : Z.div_eucl (Z.pos (pshl j k) * Z.pos (pshl py ny))
                   (Z.pos (pshl py ny)) = (Z.pos (pshl j k), 0)).
  { pose proof (Z.div_mul (Z.pos (pshl j k)) (Z.pos (pshl py ny))
                  ltac:(discriminate)) as Hq.
    pose proof (Z.mod_mul (Z.pos (pshl j k)) (Z.pos (pshl py ny))
                  ltac:(discriminate)) as Hr.
    unfold Z.div, Z.modulo in Hq, Hr.
    destruct (Z.div_eucl _ _) as [q r]. cbn [fst snd] in *. congruence. }
  rewrite Hdiv.
  assert (Hloc : new_location (Z.pos (pshl py ny)) 0 = loc_Exact).
  { unfold new_location, new_location_even, new_location_odd.
    now destruct (Z.even _). }
  rewrite Hloc.
  replace (pshl j k) with (pshl (j - pk) (pshl pk k))
    by (rewrite pshl_add; f_equal; unfold j; clearbody px py pk; clear - Hd Hpx Hpy Hpk Hdx Hdy Hdk; lia).
  replace (Z.of_nat py - Z.of_nat px - 53)
    with (- Z.of_nat pk - Z.of_nat (j - pk))
    by (unfold j; clearbody px py pk; clear - Hd Hpx Hpy Hpk Hdx Hdy Hdk; lia).
  apply binary_round_aux_canonical. now apply SF_int_bounded.
Qed.

Lemma SFdiv_holds (k y : Z) (X Y : spec_float) :
  Z.abs (k * y) < 2 ^ 53 -> Z.abs y < 2 ^ 53 -> y <> 0 ->
  holds (k * y) X -> holds y Y -> holds k (SF64div X Y).
Proof.
  intros Hxy Hy Hy0 HX HY.
  destruct (holds_cases _ X Hxy HX) as [[Hz [sx ->]] | (sx & nx & Hnx & Hbx & ->)];
    destruct (holds_cases y Y Hy HY) as [[-> [sy ->]] | (sy & ny & -> & Hny & ->)];
    try congruence.
  - assert (k = 0) as -> by (destruct sy; cbn [cond_Zopp] in *; nia).
    apply holds_zero.
  - destruct k as [|k|k].
    + destruct sx; cbn [cond_Zopp] in Hnx; lia.
    + assert (nx = (k * ny)%positive /\ sx = sy) as [-> ->]
        by (destruct sx, sy; cbn [cond_Zopp] in Hnx; split; lia || congruence).
      rewrite SFdiv_SF_int by exact Hbx. rewrite xorb_nilpotent.
      exact (holds_SF_int false k ltac:(rewrite Pos2Z.inj_mul in Hbx; nia)).
    + assert (nx = (k * ny)%positive /\ sx = negb sy) as [-> ->]
        by (destruct sx, sy; cbn [cond_Zopp negb] in *; split; lia || congruence).
      rewrite SFdiv_SF_int by exact Hbx.
      replace (xorb (negb sy) sy) with true by now destruct sy.
      exact (holds_SF_int true k ltac:(rewrite Pos2Z.inj_mul in Hbx; nia)).
Qed.

Lemma float_div_holds (k y : Z) (fx fy : float) :
  Z.abs (k * y) < 2 ^ 53 -> Z.abs y < 2 ^ 53 -> y <> 0 ->
  float_holds (k * y) fx -> float_holds y fy -> float_holds k (fx / fy).
Proof.
  unfold float_holds. rewrite FloatAxioms.div_spec. apply SFdiv_holds.
Qed.

(** A float that holds an integer other than zero is not a zero. *)
Lemma float_holds_nonzero (z : Z) (f : float) :
  Z.abs z < 2 ^ 53 -> z <> 0 -> float_holds z f -> (f =? 0)%float = false.
Proof.
  intros Hz Hz0 Hf. rewrite FloatAxioms.eqb_spec.
  destruct (holds_cases z _ Hz Hf) as [[-> _] | (s & n & _ & _ & ->)];
    [congruence|].
  unfold SF_int. now destruct s.
Qed.

(** ** Integer coordinates *)

Lemma zip_holds (P : Z -> Prop) (f : Z * Z -> Z) (g : float * float -> float)
  (xs ys : list Z) (l1 l2 : list float) :
  (forall x y fx fy, P x -> P y -> float_holds x fx -> float_holds y fy ->
                     float_holds (f (x, y)) (g (fx, fy))) ->
  Forall2 float_holds xs l1 -> Forall2 float_holds ys l2 ->
  Forall P xs -> Forall P ys ->
  Forall2 float_holds (map f (zip xs ys)) (map g (zip l1 l2)).
Proof.
  intros Hfg H1. revert ys l2.
  induction H1 as [|x fx xs l1 Hx _ IH]; intros ys l2 H2 Hxs Hys.
  - constructor.
  - destruct H2 as [|y fy ys l2 Hy H2]; [constructor|].
    apply Forall_cons in Hxs as [Px Hxs]. apply Forall_cons in Hys as [Py Hys].
    cbn [zip map]. constructor; [now apply Hfg | now apply IH].
Qed.

Lemma integral_length (zs : list Z) (v : Vector) :
  integral zs v -> Vector.dim v = List.length zs.
Proof.
  intros H. symmetry. exact (Forall2_length _ _ _ H).
Qed.

(** X13: on integer coordinates of magnitude below [2^52] the sum and the
    difference of two vectors of one dimension are exact: their coordinates
    hold the sums and the differences of the integers.  In dimension 3, on
    integers of magnitude below [2^26], the cross product is exact as
    well. *)
Theorem integer_arithmetic_exact (u : string) (a b : Vector) (xs ys : list Z) :
  integral xs a -> integral ys b ->
  List.length xs = List.length ys ->
  (Forall (fun z => Z.abs z < 2 ^ 52) xs ->
   Forall (fun z => Z.abs z < 2 ^ 52) ys ->
   exists s d,
     Vector.__add__ u a b = Return s /\
     integral (map (fun p => p.1 + p.2) (zip xs ys)) s /\
     Vector.__sub__ u a b = Return d /\
     integral (map (fun p => p.1 - p.2) (zip xs ys)) d) /\
  (forall x0 x1 x2 y0 y1 y2,
     xs = [x0; x1; x2] -> ys = [y0; y1; y2] ->
     Forall (fun z => Z.abs z < 2 ^ 26) xs ->
     Forall (fun z => Z.abs z < 2 ^ 26) ys ->
     exists p,
       Vector.cross_product u a b = Return p /\
       integral [x1 * y2 - x2 * y1; x2 * y0 - x0 * y2; x0 * y1 - x1 * y0] p).
Proof.
  intros Ha Hb Hlen. split.
  - intros Hxs Hys.
    assert (Hdim : Vector.dim a = Vector.dim b)
      by (rewrite (integral_length _ _ Ha), (integral_length _ _ Hb); exact Hlen).
    unfold Vector.__add__, Vector.__sub__, Vector.check_dim.
    apply Nat.eqb_eq in Hdim. rewrite Hdim. cbn [negb].
    eexists _, _. split; [reflexivity|]. split; [|split; [reflexivity|]].
    + unfold integral. cbn [coordinates Vector.of_floats].
      apply (zip_holds (fun z => Z.abs z < 2 ^ 52)); try assumption.
      intros x y fx fy Hx Hy Hfx Hfy. cbn [fst snd].
      apply py_sum_holds; try assumption; lia.
    + unfold integral. cbn [coordinates Vector.of_floats].
      apply (zip_holds (fun z => Z.abs z < 2 ^ 52)); try assumption.
      intros x y fx fy Hx Hy Hfx Hfy. cbn [fst snd].
      apply float_sub_holds; try assumption; lia.
  - intros x0 x1 x2 y0 y1 y2 -> -> Hxs Hys.
    unfold integral in Ha, Hb.
    pose proof (Forall2_length _ _ _ Ha) as La.
    pose proof (Forall2_length _ _ _ Hb) as Lb.
    destruct (coordinates a) as [|a0 [|a1 [|a2 [|a3 la]]]] eqn:Hca;
      try discriminate La.
    destruct (coordinates b) as [|b0 [|b1 [|b2 [|b3 lb]]]] eqn:Hcb;
      try discriminate Lb.
    apply Forall2_cons in Ha as [Ha0 Ha]. apply Forall2_cons in Ha as [Ha1 Ha].
    apply Forall2_cons in Ha as [Ha2 _].
    apply Forall2_cons in Hb as [Hb0 Hb]. apply Forall2_cons in Hb as [Hb1 Hb].
    apply Forall2_cons in Hb as [Hb2 _].
    apply Forall_cons in Hxs as [Hx0 Hxs]. apply Forall_cons in Hxs as [Hx1 Hxs].
    apply Forall_cons in Hxs as [Hx2 _].
    apply Forall_cons in Hys as [Hy0 Hys]. apply Forall_cons in Hys as [Hy1 Hys].
    apply Forall_cons in Hys as [Hy2 _].
    eexists. split; [exact (cross_product_3 u a b _ _ _ _ _ _ Hca Hcb)|].
    assert (Hprod : forall x y, Z.abs x < 2 ^ 26 -> Z.abs y < 2 ^ 26 ->
                                Z.abs (x * y) < 2 ^ 52).
    { intros x y Hx Hy. rewrite Z.abs_mul.
      change (2 ^ 52) with (2 ^ 26 * 2 ^ 26).
      apply Z.mul_lt_mono_nonneg; lia. }
    assert (Hcoord : forall x1 x2 y1 y2 f1 f2 g1 g2,
      Z.abs x1 < 2 ^ 26 -> Z.abs x2 < 2 ^ 26 ->
      Z.abs y1 < 2 ^ 26 -> Z.abs y2 < 2 ^ 26 ->
      float_holds x1 f1 -> float_holds x2 f2 ->
      float_holds y1 g1 -> float_holds y2 g2 ->
      float_holds (x1 * y2 - x2 * y1) (f1 * g2 - f2 * g1)).
    { intros z1 z2 w1 w2 f1 f2 g1 g2 Hz1 Hz2 Hw1 Hw2 Hf1 Hf2 Hg1 Hg2.
      pose proof (Hprod z1 w2 Hz1 Hw2). pose proof (Hprod z2 w1 Hz2 Hw1).
      apply float_sub_holds; try lia;
        apply float_mul_holds; try assumption; lia. }
    unfold integral. cbn [coordinates Vector.of_floats].
    repeat (apply Forall2_cons; split; [now apply Hcoord|]). constructor.
Qed.

Lemma integer_arithmetic_exact_witness :
  (exists s d,
     Vector.__add__ "s" (Vector.of_floats "a" [1; 2; 3]%float)
       (Vector.of_floats "b" [3; 4; 5]%float) = Return s /\
     integral [4; 6; 8] s /\
     Vector.__sub__ "s" (Vector.of_floats "a" [1; 2; 3]%float)
       (Vector.of_floats "b" [3; 4; 5]%float) = Return d /\
     integral [-2; -2; -2] d) /\
  exists p,
    Vector.cross_product "s" (Vector.of_floats "a" [1; 2; 3]%float)
      (Vector.of_floats "b" [3; 4; 5]%float) = Return p /\
    integral [-2; 4; -2] p.
Proof.
  destruct (integer_arithmetic_exact "s" (Vector.of_floats "a" [1; 2; 3]%float)
              (Vector.of_floats "b" [3; 4; 5]%float) [1; 2; 3] [3; 4; 5])
    as [Hsum Hcross].
  - repeat constructor.
  - repeat constructor.
  - reflexivity.
  - split.
    + apply Hsum; repeat constructor; vm_compute; reflexivity.
    + apply (Hcross 1 2 3 3 4 5); try reflexivity;
        repeat constructor; vm_compute; reflexivity.
Defined.

(** X12: on integer coordinates a product by an int is exact, and dividing
    it by the same int gives the vector back: for a vector [v] whose
    coordinates hold integers and an int [k] other than zero and of
    magnitude below [2^53], with the products below [2^53] in magnitude,
    [v * k] holds the products, [(v * k) / k] returns and is equal to [v]. *)
Theorem mul_truediv_round_trip (u1 u2 : string) (v : Vector) (zs : list Z)
  (k : Z) :
  integral zs v -> k <> 0 -> Z.abs k < 2 ^ 53 ->
  Forall (fun z => Z.abs (k * z) < 2 ^ 53) zs ->
  exists p q,
    Vector.__mul__ u1 v (PyInt k) = Return p /\
    integral (map (Z.mul k) zs) p /\
    Vector.__truediv__ u2 p (PyInt k) = Value q /\
    integral zs q /\
    Vector.__eq__ q v = true.
Proof.
  intros Hv Hk0 Hk Hzs.
  pose proof (py_float_int k Hk) as Hfk.
  pose proof (float_of_Z_holds k Hk) as Hhk.
  pose proof (float_holds_nonzero k _ Hk Hk0 Hhk) as Hnz.
  set (fk := float_of_Z k) in *.
  exists (Vector.of_floats u1 (map (fun c => fk * c)%float (coordinates v))),
    (Vector.of_floats u2
       (map (fun c => c / fk)%float (map (fun c => fk * c)%float (coordinates v)))).
  assert (Hz : forall z, Z.abs (k * z) < 2 ^ 53 -> Z.abs z < 2 ^ 53) by (intros; nia).
  unfold integral in *. cbn [coordinates Vector.of_floats].
  split; [|split; [|split; [|split]]].
  - unfold Vector.__mul__.
    now rewrite (comprehension_map _ (fun c => fk * c)%float)
      by (intros x; now rewrite Hfk).
  - clear - Hv Hzs Hz Hhk Hk. induction Hv as [|z f zs l Hf _ IH];
      [constructor|].
    apply Forall_cons in Hzs as [Hkz Hzs]. cbn [map].
    constructor; [|now apply IH].
    apply float_mul_holds; auto.
  - unfold Vector.__truediv__. cbn [coordinates Vector.of_floats].
    rewrite (dividing_comprehension_map _ (fun c => c / fk)%float);
      [reflexivity|].
    intros x. unfold float_truediv. rewrite Hfk. cbn [of_result].
    unfold mbind, outcome_bind, obind. now rewrite Hnz.
  - clear - Hv Hzs Hz Hhk Hk Hk0. induction Hv as [|z f zs l Hf _ IH];
      [constructor|].
    apply Forall_cons in Hzs as [Hkz Hzs]. cbn [map].
    constructor; [|now apply IH].
    apply (float_div_holds z k); try assumption.
    + now rewrite Z.mul_comm.
    + rewrite Z.mul_comm. apply float_mul_holds; auto.
  - unfold Vector.__eq__. cbn [coordinates Vector.of_floats].
    clear - Hv Hzs Hz Hhk Hk Hk0. induction Hv as [|z f zs l Hf _ IH];
      [reflexivity|].
    apply Forall_cons in Hzs as [Hkz Hzs]. cbn [map list_eq].
    rewrite IH by assumption. rewrite andb_true_r.
    apply (float_holds_eqb z); auto.
    apply (float_div_holds z k); try assumption.
    + now rewrite Z.mul_comm.
    + rewrite Z.mul_comm. apply float_mul_holds; auto.
Qed.

Lemma mul_truediv_round_trip_witness :
  exists p q,
    Vector.__mul__ "p" (Vector.of_floats "v" [1; 2; 3]%float) (PyInt 2) = Return p /\
    integral [2; 4; 6] p /\
    Vector.__truediv__ "q" p (PyInt 2) = Value q /\
    integral [1; 2; 3] q /\
    Vector.__eq__ q (Vector.of_floats "v" [1; 2; 3]%float) = true.
Proof.
  apply (mul_truediv_round_trip "p" "q" (Vector.of_floats "v" [1; 2; 3]%float)
           [1; 2; 3] 2).
  - repeat constructor.
  - discriminate.
  - reflexivity.
  - repeat constructor; vm_compute; reflexivity.
Defined.

(** ** Equality of vectors *)

(** Two floats are equal when neither is a NaN and they are the same float
    or two zeros. *)
Lemma SFeqb_true (x y : spec_float) :
  SFeqb x y = true <-> x <> S754_nan /\ SFsim x y.
Proof.
  split; [|intros [Hn Hs]; now apply SFsim_eqb].
  unfold SFeqb, SFcompare.
  destruct x as [s1|s1| |s1 m1 e1], y as [s2|s2| |s2 m2 e2];
    try discriminate; try (destruct s1; discriminate);
    try (destruct s2; discriminate).
  - intros _. split; [discriminate | right; eauto].
  - destruct s1, s2; try discriminate; intros _;
      (split; [discriminate | now left]).
  - destruct s1, s2; try discriminate;
      destruct (Z.compare_spec e1 e2) as [->| |]; try discriminate;
      destruct (Pos.compare_cont Eq m1 m2) eqn:Hm; try discriminate;
      apply Pos.compare_eq in Hm as ->; intros _;
      (split; [discriminate | now left]).
Qed.

Lemma float_eqb_sym (x y : float) : (x =? y)%float = (y =? x)%float.
Proof.
  rewrite !FloatAxioms.eqb_spec. apply eq_true_iff_eq.
  rewrite !SFeqb_true. split; intros [Hn Hs].
  - split; [|now apply SFsim_sym].
    destruct Hs as [<- | (s & s' & _ & ->)]; [exact Hn | discriminate].
  - split; [|now apply SFsim_sym].
    destruct Hs as [<- | (s & s' & _ & ->)]; [exact Hn | discriminate].
Qed.

Lemma float_eqb_trans (x y z : float) :
  (x =? y)%float = true -> (y =? z)%float = true -> (x =? z)%float = true.
Proof.
  rewrite !FloatAxioms.eqb_spec, !SFeqb_true.
  intros [Hx Hxy] [Hy Hyz]. split; [exact Hx|].
  destruct Hxy as [-> | (s & s' & -> & Hy')]; [exact Hyz|].
  destruct Hyz as [<- | (t & t' & _ & ->)]; right; eauto.
Qed.

(** X14: on vectors without a NaN coordinate, where the comparison of the
    floats decides [==] whether or not the two vectors share a float, [==] is
    an equivalence: a vector is equal to itself, [a == b] and [b == a] give
    the same answer, and equality is transitive; two equal vectors have the
    same dimension. *)
Theorem eq_laws (a b c : Vector) :
  Forall (fun x => is_nan x = false) (coordinates a) ->
  Forall (fun x => is_nan x = false) (coordinates b) ->
  Forall (fun x => is_nan x = false) (coordinates c) ->
  Vector.__eq__ a a = true /\
  Vector.__eq__ a b = Vector.__eq__ b a /\
  (Vector.__eq__ a b = true -> Vector.dim a = Vector.dim b) /\
  (Vector.__eq__ a b = true -> Vector.__eq__ b c = true ->
   Vector.__eq__ a c = true).
Proof.
  intros Ha _ _. split; [now apply list_eq_refl|].
  unfold Vector.__eq__, Vector.dim.
  generalize (coordinates a) (coordinates b) (coordinates c).
  clear a b c Ha. intros l1 l2 l3. split; [|split].
  - revert l2. induction l1 as [|x l1 IH]; intros [|y l2]; try reflexivity.
    cbn [list_eq]. now rewrite float_eqb_sym, IH.
  - revert l2. induction l1 as [|x l1 IH]; intros [|y l2]; try discriminate;
      [reflexivity|].
    cbn [list_eq length]. intros [_ H]%andb_true_iff. f_equal. now apply IH.
  - revert l2 l3.
    induction l1 as [|x l1 IH]; intros [|y l2] [|z l3]; try discriminate;
      [reflexivity|].
    cbn [list_eq]. intros [Hxy H12]%andb_true_iff [Hyz H23]%andb_true_iff.
    apply andb_true_iff. split; [now apply (float_eqb_trans x y z)|].
    now apply (IH l2 l3).
Qed.

Lemma eq_laws_witness :
  let a := Vector.of_floats "a" [1; 2]%float in
  let b := Vector.of_floats "b" [1; 2]%float in
  let c := Vector.of_floats "c" [1; 3]%float in
  Vector.__eq__ a a = true /\
  Vector.__eq__ a b = Vector.__eq__ b a /\
  (Vector.__eq__ a b = true -> Vector.dim a = Vector.dim b) /\
  (Vector.__eq__ a b = true -> Vector.__eq__ b c = true ->
   Vector.__eq__ a c = true).
Proof.
  cbv zeta.
  apply (eq_laws (Vector.of_floats "a" [1; 2]%float)
           (Vector.of_floats "b" [1; 2]%float)
           (Vector.of_floats "c" [1; 3]%float));
    repeat constructor.
Defined.

(** * Points, segments and parallelograms *)

(** ** Translating a point *)

(** The sum of a point and a vector of its dimension. *)
Lemma point_add_Return (uuid4 : nat -> string) (p : Point) (v : Vector) :
  Vector.dim (position p) = Vector.dim v ->
  Point.__add__ uuid4 p (VObject (OVector v))
  = Return (mkPoint (mkPyMecObject (uuid4 2%nat) "")
      (Vector.of_floats (uuid4 0%nat)
         (map (fun x => py_sum [x.1; x.2])
            (zip (coordinates (position p)) (coordinates v))))).
Proof.
  intros Hdim. apply Nat.eqb_eq in Hdim.
  unfold Point.__add__, Vector.__add__, Vector.check_dim. rewrite Hdim.
  reflexivity.
Qed.

(** X15: what [point + vect] does with its argument.  A value that is not a
    vector raises TypeError, a vector of another dimension than the point's
    position raises the ValueError of [check_dim], and a vector of that
    dimension gives a new point without a name, whose position has the same
    dimension; the call returns in no other case. *)
Theorem point_add_spec (uuid4 : nat -> string) (p : Point) (vect : value) :
  ((forall v, vect <> VObject (OVector v)) ->
   Point.__add__ uuid4 p vect = Raise (TypeError "can't add non-Vector to Point")) /\
  (forall v, vect = VObject (OVector v) ->
     Vector.dim (position p) <> Vector.dim v ->
     Point.__add__ uuid4 p vect
     = Raise (ValueError "Vectors are not the same dimension")) /\
  (forall v, vect = VObject (OVector v) ->
     Vector.dim (position p) = Vector.dim v ->
     exists q, Point.__add__ uuid4 p vect = Return q) /\
  (forall q, Point.__add__ uuid4 p vect = Return q ->
     name (point_object q) = ""%string /\
     Vector.dim (position q) = Vector.dim (position p) /\
     exists v, vect = VObject (OVector v) /\
               Vector.dim (position p) = Vector.dim v).
Proof.
  split; [|split; [|split]].
  - intros Hv. unfold Point.__add__.
    destruct vect as [| | | |[]]; try reflexivity. now destruct (Hv v).
  - intros v -> Hdim. apply Nat.eqb_neq in Hdim.
    unfold Point.__add__, Vector.__add__, Vector.check_dim. now rewrite Hdim.
  - intros v -> Hdim. rewrite (point_add_Return uuid4 p v Hdim). eauto.
  - intros q Hq.
    destruct vect as [| | | |[o|v|q'|s|c]]; try discriminate Hq.
    destruct (Nat.eq_dec (Vector.dim (position p)) (Vector.dim v)) as [Hdim|Hdim].
    + rewrite (point_add_Return uuid4 p v Hdim) in Hq. injection Hq as <-.
      cbn [point_object name position]. split; [reflexivity|].
      split; [|eauto].
      unfold Vector.dim in *. cbn [coordinates Vector.of_floats].
      now apply length_zip_map.
    + apply Nat.eqb_neq in Hdim.
      unfold Point.__add__, Vector.__add__, Vector.check_dim in Hq.
      now rewrite Hdim in Hq.
Qed.

(** Two lists of floats that hold the same integers are equal. *)
Lemma list_eq_holds (zs : list Z) (l l' : list float) :
  Forall (fun z => Z.abs z < 2 ^ 53) zs ->
  Forall2 float_holds zs l -> Forall2 float_holds zs l' ->
  list_eq l l' = true.
Proof.
  intros Hzs H. revert l'.
  induction H as [|z f zs l Hf _ IH]; intros l' H'.
  - now inversion H'.
  - inversion H' as [|? f' ? l'' Hf' H'' E1 E2]; subst.
    apply Forall_cons in Hzs as [Hz Hzs]. cbn [list_eq].
    rewrite (float_holds_eqb z f f' Hz Hf Hf'). now apply IH.
Qed.

Lemma add_then_sub_holds (xs zs : list Z) (l1 l2 : list float) :
  Forall2 float_holds xs l1 -> Forall2 float_holds zs l2 ->
  List.length xs = List.length zs ->
  Forall (fun z => Z.abs z < 2 ^ 52) xs ->
  Forall (fun z => Z.abs z < 2 ^ 52) zs ->
  Forall2 float_holds zs
    (map (fun x => (x.1 - x.2)%float)
       (zip (map (fun x => py_sum [x.1; x.2]) (zip l1 l2)) l1)).
Proof.
  intros H1. revert zs l2.
  induction H1 as [|x fx xs l1 Hx _ IH]; intros zs l2 H2 Hlen Hxs Hzs.
  - destruct H2; [constructor | discriminate].
  - destruct H2 as [|z fz zs l2 Hz H2]; [discriminate|].
    apply Forall_cons in Hxs as [Bx Hxs]. apply Forall_cons in Hzs as [Bz Hzs].
    cbn [zip map fst snd]. constructor.
    + replace z with (x + z - x) at 1 by lia.
      apply float_sub_holds; try lia; [|exact Hx].
      apply py_sum_holds; try assumption; lia.
    + apply IH; try assumption. cbn in Hlen. lia.
Qed.

Lemma sub_then_add_holds (xs ys : list Z) (l1 l2 : list float) :
  Forall2 float_holds xs l1 -> Forall2 float_holds ys l2 ->
  List.length xs = List.length ys ->
  Forall (fun z => Z.abs z < 2 ^ 52) xs ->
  Forall (fun z => Z.abs z < 2 ^ 52) ys ->
  Forall2 float_holds ys
    (map (fun x => py_sum [x.1; x.2])
       (zip l1 (map (fun x => (x.1 - x.2)%float) (zip l2 l1)))).
Proof.
  intros H1. revert ys l2.
  induction H1 as [|x fx xs l1 Hx _ IH]; intros ys l2 H2 Hlen Hxs Hys.
  - destruct H2; [constructor | discriminate].
  - destruct H2 as [|y fy ys l2 Hy H2]; [discriminate|].
    apply Forall_cons in Hxs as [Bx Hxs]. apply Forall_cons in Hys as [By Hys].
    cbn [zip map fst snd]. constructor.
    + replace y with (x + (y - x)) at 1 by lia.
      apply py_sum_holds; try lia; [exact Hx|].
      apply float_sub_holds; try assumption; lia.
    + apply IH; try assumption. cbn in Hlen. lia.
Qed.

(** X16: translations and differences of points undo each other on integer
    coordinates.  For points [p] and [q] and a vector [v] of one dimension,
    whose coordinates hold integers of magnitude below [2^52]: [p + v] is a
    point whose coordinates hold the sums, [(p + v) - p] is equal to [v],
    and [p + (q - p)] is a point at the position of [q]. *)
Theorem point_round_trips (uuid4 uuid4' : nat -> string) (u u' : string)
  (p q : Point) (v : Vector) (xs ys zs : list Z) :
  integral xs (position p) -> integral ys (position q) -> integral zs v ->
  List.length xs = List.length ys -> List.length xs = List.length zs ->
  Forall (fun z => Z.abs z < 2 ^ 52) xs ->
  Forall (fun z => Z.abs z < 2 ^ 52) ys ->
  Forall (fun z => Z.abs z < 2 ^ 52) zs ->
  (exists t d,
     Point.__add__ uuid4 p (VObject (OVector v)) = Return t /\
     integral (map (fun c => c.1 + c.2) (zip xs zs)) (position t) /\
     Point.__sub__ u t p = Return d /\
     Vector.__eq__ d v = true) /\
  (exists d t,
     Point.__sub__ u' q p = Return d /\
     integral (map (fun c => c.1 - c.2) (zip ys xs)) d /\
     Point.__add__ uuid4' p (VObject (OVector d)) = Return t /\
     Vector.__eq__ (position t) (position q) = true).
Proof.
  intros Hp Hq Hv Lxy Lxz Hxs Hys Hzs.
  pose proof (integral_length _ _ Hp) as Dp.
  pose proof (integral_length _ _ Hq) as Dq.
  pose proof (integral_length _ _ Hv) as Dv.
  unfold integral, Vector.dim in *.
  set (cp := coordinates (position p)) in *.
  set (cq := coordinates (position q)) in *.
  set (cv := coordinates v) in *.
  assert (Hsum : forall x y fx fy, Z.abs x < 2 ^ 52 -> Z.abs y < 2 ^ 52 ->
    float_holds x fx -> float_holds y fy ->
    float_holds ((x, y).1 + (x, y).2) (py_sum [(fx, fy).1; (fx, fy).2]))
    by (intros; cbn [fst snd]; apply py_sum_holds; try assumption; lia).
  assert (Hsub : forall x y fx fy, Z.abs x < 2 ^ 52 -> Z.abs y < 2 ^ 52 ->
    float_holds x fx -> float_holds y fy ->
    float_holds ((x, y).1 - (x, y).2) ((fx, fy).1 - (fx, fy).2)%float)
    by (intros; cbn [fst snd]; apply float_sub_holds; try assumption; lia).
  assert (H53 : forall l, Forall (fun z => Z.abs z < 2 ^ 52) l ->
                          Forall (fun z => Z.abs z < 2 ^ 53) l)
    by (intros l Hl; eapply Forall_impl; [exact Hl | cbv beta; intros; lia]).
  split.
  - eexists _, _.
    split; [apply point_add_Return; unfold Vector.dim; fold cp cv; lia|].
    cbn [position coordinates Vector.of_floats]. fold cp cv.
    split; [now apply (zip_holds (fun z => Z.abs z < 2 ^ 52))|].
    unfold Point.__sub__, Vector.__sub__, Vector.check_dim, Vector.dim.
    cbn [position coordinates Vector.of_floats]. fold cp.
    rewrite length_zip_map by lia.
    rewrite Nat.eqb_refl. cbn [negb]. split; [reflexivity|].
    unfold Vector.__eq__. cbn [coordinates Vector.of_floats]. fold cv.
    apply (list_eq_holds zs); [now apply H53 | | exact Hv].
    now apply (add_then_sub_holds xs).
  - eexists _, _.
    unfold Point.__sub__, Vector.__sub__, Vector.check_dim, Vector.dim.
    fold cp cq. replace (List.length cq =? List.length cp)%nat with true
      by (symmetry; apply Nat.eqb_eq; lia).
    cbn [negb]. split; [reflexivity|].
    cbn [coordinates Vector.of_floats].
    split; [now apply (zip_holds (fun z => Z.abs z < 2 ^ 52))|].
    split.
    + apply point_add_Return. unfold Vector.dim.
      cbn [coordinates Vector.of_floats]. fold cp.
      rewrite length_zip_map by lia. lia.
    + unfold Vector.__eq__. cbn [position coordinates Vector.of_floats].
      fold cp cq.
      apply (list_eq_holds ys); [now apply H53 | | exact Hq].
      now apply (sub_then_add_holds xs).
Qed.

Lemma point_round_trips_witness :
  let p := mkPoint (mkPyMecObject "p" "") (Vector.of_floats "vp" [1; 2; 3]%float) in
  let q := mkPoint (mkPyMecObject "q" "") (Vector.of_floats "vq" [3; 4; 5]%float) in
  let v := Vector.of_floats "v" [2; 2; 2]%float in
  (exists t d,
     Point.__add__ (fun _ => "t"%string) p (VObject (OVector v)) = Return t /\
     integral [3; 4; 5] (position t) /\
     Point.__sub__ "d" t p = Return d /\
     Vector.__eq__ d v = true) /\
  (exists d t,
     Point.__sub__ "d" q p = Return d /\
     integral [2; 2; 2] d /\
     Point.__add__ (fun _ => "t"%string) p (VObject (OVector d)) = Return t /\
     Vector.__eq__ (position t) (position q) = true).
Proof.
  cbv zeta.
  apply (point_round_trips (fun _ => "t"%string) (fun _ => "t"%string) "d" "d"
           (mkPoint (mkPyMecObject "p" "") (Vector.of_floats "vp" [1; 2; 3]%float))
           (mkPoint (mkPyMecObject "q" "") (Vector.of_floats "vq" [3; 4; 5]%float))
           (Vector.of_floats "v" [2; 2; 2]%float)
           [1; 2; 3] [3; 4; 5] [2; 2; 2]);
    try reflexivity; repeat constructor; vm_compute; reflexivity.
Defined.

(** ** The midpoint of a segment *)

(** Halving a vector: the divisor 2 is neither zero nor too large. *)
Lemma truediv_2 (u : string) (v : Vector) :
  Vector.__truediv__ u v (PyInt 2)
  = Value (Vector.of_floats u
      (map (fun c => c / float_of_Z 2)%float (coordinates v))).
Proof.
  unfold Vector.__truediv__.
  now rewrite (dividing_comprehension_map _ (fun c => c / float_of_Z 2)%float).
Qed.

(** The midpoint of a segment between points of one dimension. *)
Lemma midpoint_Value (uuid4 : nat -> string) (s : Segment) :
  Vector.dim (position (start s)) = Vector.dim (position (end_ s)) ->
  Segment.midpoint uuid4 s
  = Value (mkPoint (mkPyMecObject (uuid4 4%nat) "")
      (Vector.of_floats (uuid4 2%nat)
         (map (fun x => py_sum [x.1; x.2])
            (zip (coordinates (position (start s)))
               (map (fun c => c / float_of_Z 2)%float
                  (map (fun x => (x.1 - x.2)%float)
                     (zip (coordinates (position (end_ s)))
                        (coordinates (position (start s)))))))))).
Proof.
  intros Hdim. unfold Segment.midpoint, Point.__sub__, Vector.__sub__,
    Vector.check_dim.
  rewrite <- Hdim, Nat.eqb_refl. cbn [negb].
  cbn [of_result mbind result_bind rbind outcome_bind obind].
  rewrite truediv_2. unfold mbind, outcome_bind, obind.
  rewrite point_add_Return; [reflexivity|].
  unfold Vector.dim in *. cbn [coordinates Vector.of_floats].
  rewrite length_map, length_zip_map by congruence. congruence.
Qed.

Lemma midpoint_holds (xs ys : list Z) (l1 l2 : list float) :
  Forall2 float_holds xs l1 -> Forall2 float_holds ys l2 ->
  List.length xs = List.length ys ->
  Forall (fun z => Z.abs z < 2 ^ 52) xs ->
  Forall (fun z => Z.abs z < 2 ^ 52) ys ->
  Forall (fun c => Z.even (c.2 - c.1) = true) (zip xs ys) ->
  Forall2 float_holds (map (fun c => (c.1 + c.2) / 2) (zip xs ys))
    (map (fun x => py_sum [x.1; x.2])
       (zip l1 (map (fun c => c / float_of_Z 2)%float
                  (map (fun x => (x.1 - x.2)%float) (zip l2 l1))))).
Proof.
  intros H1. revert ys l2.
  induction H1 as [|x fx xs l1 Hx _ IH]; intros ys l2 H2 Hlen Hxs Hys Hev.
  - destruct H2; [constructor | discriminate].
  - destruct H2 as [|y fy ys l2 Hy H2]; [discriminate|].
    apply Forall_cons in Hxs as [Bx Hxs]. apply Forall_cons in Hys as [By Hys].
    cbn [zip] in Hev. apply Forall_cons in Hev as [Ev Hev].
    cbn [zip map fst snd] in *. constructor.
    + apply Z.even_spec in Ev as [k Hk].
      replace ((x + y) / 2) with (x + k)
        by (replace (x + y) with ((x + k) * 2) by lia;
            now rewrite Z.div_mul by discriminate).
      apply py_sum_holds; try lia; [exact Hx|].
      apply (float_div_holds k 2); try lia.
      * replace (k * 2) with (y - x) by lia.
        apply float_sub_holds; try assumption; lia.
      * apply float_of_Z_holds. reflexivity.
    + apply IH; try assumption. cbn in Hlen. lia.
Qed.

(** X17: the midpoint of a segment.  [midpoint] never raises
    ZeroDivisionError; it raises the ValueError of [check_dim] when the two
    end points differ in dimension, and otherwise returns a point of that
    dimension.  When the coordinates of the end points hold integers of
    magnitude below [2^52] whose differences are even, the coordinates of
    the midpoint hold the exact means. *)
Theorem midpoint_spec (uuid4 : nat -> string) (s : Segment) :
  Segment.midpoint uuid4 s <> ZeroDivisionError /\
  (Vector.dim (position (start s)) <> Vector.dim (position (end_ s)) ->
   Segment.midpoint uuid4 s
   = Error (ValueError "Vectors are not the same dimension")) /\
  (Vector.dim (position (start s)) = Vector.dim (position (end_ s)) ->
   exists m,
     Segment.midpoint uuid4 s = Value m /\
     Vector.dim (position m) = Vector.dim (position (start s)) /\
     forall xs ys,
       integral xs (position (start s)) -> integral ys (position (end_ s)) ->
       Forall (fun z => Z.abs z < 2 ^ 52) xs ->
       Forall (fun z => Z.abs z < 2 ^ 52) ys ->
       Forall (fun c => Z.even (c.2 - c.1) = true) (zip xs ys) ->
       integral (map (fun c => (c.1 + c.2) / 2) (zip xs ys)) (position m)).
Proof.
  assert (Hraise : Vector.dim (position (start s)) <> Vector.dim (position (end_ s)) ->
    Segment.midpoint uuid4 s
    = Error (ValueError "Vectors are not the same dimension")).
  { intros Hdim. unfold Segment.midpoint, Point.__sub__, Vector.__sub__,
      Vector.check_dim.
    replace (Vector.dim (position (end_ s)) =? Vector.dim (position (start s)))%nat
      with false by (symmetry; apply Nat.eqb_neq; congruence).
    reflexivity. }
  split; [|split; [exact Hraise|]].
  - destruct (Nat.eq_dec (Vector.dim (position (start s)))
                (Vector.dim (position (end_ s)))) as [Hdim|Hdim].
    + now rewrite (midpoint_Value uuid4 s Hdim).
    + now rewrite (Hraise Hdim).
  - intros Hdim. eexists. split; [exact (midpoint_Value uuid4 s Hdim)|].
    cbn [position]. unfold Vector.dim in *. cbn [coordinates Vector.of_floats].
    split.
    + rewrite length_zip_map; [reflexivity|].
      rewrite length_map, length_zip_map by congruence. congruence.
    + intros xs ys Hs He Hxs Hys Hev. unfold integral in *.
      cbn [coordinates Vector.of_floats].
      apply midpoint_holds; try assumption.
      rewrite (Forall2_length _ _ _ Hs), (Forall2_length _ _ _ He). exact Hdim.
Qed.

(** ** Parallelograms *)

(** The contour built on a corner and two vectors of its dimension. *)
Lemma parallelogram_Return (uuid4 : nat -> string) (p : Point)
  (v1 v2 : Vector) (name : string) :
  Vector.dim (position p) = Vector.dim v1 ->
  Vector.dim (position p) = Vector.dim v2 ->
  let add := fun l1 l2 : list float =>
    map (fun x => py_sum [x.1; x.2]) (zip l1 l2) in
  let point := fun (k : nat) (cs : list float) =>
    mkPoint (mkPyMecObject (uuid4 (k + 2)%nat) "")
      (Vector.of_floats (uuid4 k) cs) in
  let segment := fun (k : nat) (a b : Point) =>
    mkSegment (mkPyMecObject (uuid4 k) "") a b in
  let c_2 := point 5%nat (add (coordinates (position p)) (coordinates v1)) in
  let c_3 := point 11%nat
    (add (add (coordinates (position p)) (coordinates v1)) (coordinates v2)) in
  let c_4 := point 14%nat (add (coordinates (position p)) (coordinates v2)) in
  parallelogram uuid4 (Some p) (Some v1) (Some v2) name
  = Return (mkContour (mkPyMecObject (uuid4 4%nat) name)
      [segment 21%nat p c_2; segment 26%nat c_2 c_3;
       segment 31%nat c_3 c_4; segment 36%nat c_4 p]).
Proof.
  intros H1 H2. cbv zeta. unfold parallelogram.
  unfold mbind, result_bind. cbn [rbind].
  rewrite !(point_add_Return _ p v1 H1), (point_add_Return _ p v2 H2).
  cbn [rbind]. rewrite point_add_Return.
  - reflexivity.
  - unfold Vector.dim in *. cbn [position coordinates Vector.of_floats].
    rewrite length_zip_map by exact H1. exact H2.
Qed.

(** X18: the factory returns a closed chain of four segments, or raises.
    On a corner and two vectors of one dimension it returns a contour of
    the given name whose four segments start at the corner and end there,
    each one starting at the very point where the one before ends, and
    whose corners have the dimension of the arguments; when a vector
    differs from the corner in dimension it raises the ValueError of
    [check_dim]; and without arguments it returns four segments on points
    of dimension 0. *)
Theorem parallelogram_spec (uuid4 : nat -> string) (p : Point)
  (v1 v2 : Vector) (name : string) :
  (Vector.dim (position p) = Vector.dim v1 ->
   Vector.dim (position p) = Vector.dim v2 ->
   exists c c_2 c_3 c_4 s_1 s_2 s_3 s_4,
     parallelogram uuid4 (Some p) (Some v1) (Some v2) name = Return c /\
     name_of (OContour c) = name /\
     segments c = [s_1; s_2; s_3; s_4] /\
     (start s_1 = p /\ end_ s_1 = c_2) /\ (start s_2 = c_2 /\ end_ s_2 = c_3) /\
     (start s_3 = c_3 /\ end_ s_3 = c_4) /\ (start s_4 = c_4 /\ end_ s_4 = p) /\
     Forall (fun q => Vector.dim (position q) = Vector.dim (position p))
       [c_2; c_3; c_4]) /\
  (Vector.dim (position p) <> Vector.dim v1 \/
   Vector.dim (position p) <> Vector.dim v2 ->
   parallelogram uuid4 (Some p) (Some v1) (Some v2) name
   = Raise (ValueError "Vectors are not the same dimension")) /\
  (exists c s_1 s_2 s_3 s_4,
     parallelogram uuid4 None None None name = Return c /\
     segments c = [s_1; s_2; s_3; s_4] /\
     Forall (fun s => Vector.dim (position (start s)) = 0%nat /\
                      Vector.dim (position (end_ s)) = 0%nat)
       (segments c)).
Proof.
  split; [|split].
  - intros H1 H2. pose proof (parallelogram_Return uuid4 p v1 v2 name H1 H2) as H.
    cbv zeta in H. eexists _, _, _, _, _, _, _, _.
    split; [exact H|]. cbn [contour_object segments start end_].
    split; [reflexivity|]. split; [reflexivity|].
    do 4 (split; [split; reflexivity|]).
    unfold Vector.dim in *. cbn [position coordinates Vector.of_floats].
    assert (H12 : List.length (map (fun x : float * float => py_sum [x.1; x.2])
                                 (zip (coordinates (position p)) (coordinates v1)))
                  = List.length (coordinates (position p)))
      by now apply length_zip_map.
    repeat (apply Forall_cons; split); try apply Forall_nil_2;
      cbn [start end_ position coordinates Vector.of_floats].
    + exact H12.
    + rewrite length_zip_map; congruence.
    + now apply length_zip_map.
  - intros Hdim. unfold parallelogram. unfold mbind, result_bind. cbn [rbind].
    destruct (Nat.eq_dec (Vector.dim (position p)) (Vector.dim v1)) as [H1|H1].
    + destruct Hdim as [Hdim|H2]; [contradiction|].
      rewrite !(point_add_Return _ p v1 H1). cbn [rbind].
      apply Nat.eqb_neq in H2. unfold Vector.dim in *.
      unfold Point.__add__ at 1, Vector.__add__, Vector.check_dim, Vector.dim.
      cbn [position coordinates Vector.of_floats].
      rewrite length_zip_map by exact H1. now rewrite H2.
    + apply Nat.eqb_neq in H1.
      unfold Point.__add__ at 1, Vector.__add__, Vector.check_dim.
      now rewrite H1.
  - eexists _, _, _, _, _. split; [reflexivity|]. split; [reflexivity|].
    repeat constructor.
Qed.

Lemma opposite_side_holds (xs ys zs : list Z) (l1 l2 l3 : list float) :
  Forall2 float_holds xs l1 -> Forall2 float_holds ys l2 ->
  Forall2 float_holds zs l3 ->
  List.length xs = List.length ys -> List.length xs = List.length zs ->
  Forall (fun z => Z.abs z < 2 ^ 50) xs ->
  Forall (fun z => Z.abs z < 2 ^ 50) ys ->
  Forall (fun z => Z.abs z < 2 ^ 50) zs ->
  Forall2 float_holds ys
    (map (fun x => (x.1 - x.2)%float)
       (zip (map (fun x => py_sum [x.1; x.2])
               (zip (map (fun x => py_sum [x.1; x.2]) (zip l1 l2)) l3))
            (map (fun x => py_sum [x.1; x.2]) (zip l1 l3)))).
Proof.
  intros H1. revert ys zs l2 l3.
  induction H1 as [|x fx xs l1 Hx _ IH];
    intros ys zs l2 l3 H2 H3 L2 L3 Hxs Hys Hzs.
  - destruct H2; [constructor | discriminate].
  - destruct H2 as [|y fy ys l2 Hy H2]; [discriminate|].
    destruct H3 as [|z fz zs l3 Hz H3]; [discriminate|].
    apply Forall_cons in Hxs as [Bx Hxs]. apply Forall_cons in Hys as [By Hys].
    apply Forall_cons in Hzs as [Bz Hzs].
    cbn [zip map fst snd]. constructor.
    + replace y with (x + y + z - (x + z)) at 1 by lia.
      apply float_sub_holds; try lia.
      * apply py_sum_holds; try lia; [|exact Hz].
        apply py_sum_holds; try assumption; lia.
      * apply py_sum_holds; try assumption; lia.
    + apply (IH ys zs); try assumption; cbn in L2, L3; lia.
Qed.

Lemma Forall_sums (b : Z) (xs ys : list Z) :
  Forall (fun z => Z.abs z < b) xs -> Forall (fun z => Z.abs z < b) ys ->
  Forall (fun z => Z.abs z < 2 * b) (map (fun c => c.1 + c.2) (zip xs ys)).
Proof.
  intros Hxs. revert ys. induction Hxs as [|x xs Hx _ IH]; intros ys Hys.
  - constructor.
  - destruct Hys as [|y ys Hy Hys]; [constructor|].
    cbn [zip map fst snd]. constructor; [lia | now apply IH].
Qed.

Lemma Forall_bound_le (b b' : Z) (xs : list Z) :
  b <= b' -> Forall (fun z => Z.abs z < b) xs -> Forall (fun z => Z.abs z < b') xs.
Proof.
  intros Hb Hxs. eapply Forall_impl; [exact Hxs|]. cbv beta. intros; lia.
Qed.

(** X19: a parallelogram on integer coordinates.  For a corner and two
    vectors of one dimension whose coordinates hold integers of magnitude
    below [2^50], the corners of the contour hold the exact sums, and
    opposite sides are equal vectors: the side from the corner is equal to
    [vect_1] and to the side facing it, taken in the same direction, and
    the next side is equal to [vect_2] and to the side facing it. *)
Theorem parallelogram_sides (uuid4 : nat -> string) (u1 u2 u3 u4 : string)
  (p : Point) (v1 v2 : Vector) (name : string) (xs ys zs : list Z) :
  integral xs (position p) -> integral ys v1 -> integral zs v2 ->
  List.length xs = List.length ys -> List.length xs = List.length zs ->
  Forall (fun z => Z.abs z < 2 ^ 50) xs ->
  Forall (fun z => Z.abs z < 2 ^ 50) ys ->
  Forall (fun z => Z.abs z < 2 ^ 50) zs ->
  exists c s_1 s_2 s_3 s_4 a1 a3 a2 a4,
    parallelogram uuid4 (Some p) (Some v1) (Some v2) name = Return c /\
    segments c = [s_1; s_2; s_3; s_4] /\
    integral (map (fun c => c.1 + c.2) (zip xs ys)) (position (end_ s_1)) /\
    integral (map (fun c => c.1 + c.2)
                (zip (map (fun c => c.1 + c.2) (zip xs ys)) zs))
      (position (end_ s_2)) /\
    integral (map (fun c => c.1 + c.2) (zip xs zs)) (position (end_ s_3)) /\
    Point.__sub__ u1 (end_ s_1) (start s_1) = Return a1 /\
    Point.__sub__ u3 (start s_3) (end_ s_3) = Return a3 /\
    Vector.__eq__ a1 v1 = true /\ Vector.__eq__ a1 a3 = true /\
    Point.__sub__ u2 (end_ s_2) (start s_2) = Return a2 /\
    Point.__sub__ u4 (start s_4) (end_ s_4) = Return a4 /\
    Vector.__eq__ a2 v2 = true /\ Vector.__eq__ a2 a4 = true.
Proof.
  intros Hp Hv1 Hv2 L1 L2 Hxs Hys Hzs.
  pose proof (integral_length _ _ Hp) as Dp.
  pose proof (integral_length _ _ Hv1) as D1.
  pose proof (integral_length _ _ Hv2) as D2.
  assert (E1 : Vector.dim (position p) = Vector.dim v1) by congruence.
  assert (E2 : Vector.dim (position p) = Vector.dim v2) by congruence.
  pose proof (parallelogram_Return uuid4 p v1 v2 name E1 E2) as H.
  cbv zeta in H.
  unfold integral, Vector.dim in *.
  set (cp := coordinates (position p)) in *.
  set (c1 := coordinates v1) in *. set (c2 := coordinates v2) in *.
  set (add := fun x : float * float => py_sum [x.1; x.2]) in *.
  assert (Hsum : forall x y fx fy, Z.abs x < 2 ^ 52 -> Z.abs y < 2 ^ 52 ->
    float_holds x fx -> float_holds y fy ->
    float_holds ((x, y).1 + (x, y).2) (add (fx, fy)))
    by (intros; unfold add; cbn [fst snd]; apply py_sum_holds;
        try assumption; lia).
  pose proof (Forall_bound_le (2 ^ 50) (2 ^ 52) xs ltac:(lia) Hxs) as Bx.
  pose proof (Forall_bound_le (2 ^ 50) (2 ^ 52) ys ltac:(lia) Hys) as By.
  pose proof (Forall_bound_le (2 ^ 50) (2 ^ 52) zs ltac:(lia) Hzs) as Bz.
  pose proof (Forall_bound_le (2 * 2 ^ 50) (2 ^ 52) _ ltac:(lia)
                (Forall_sums _ xs ys Hxs Hys))
    as Bxy.
  pose proof (Forall_bound_le (2 ^ 50) (2 ^ 53) ys ltac:(lia) Hys) as By53.
  pose proof (Forall_bound_le (2 ^ 50) (2 ^ 53) zs ltac:(lia) Hzs) as Bz53.
  assert (H12 : Forall2 float_holds (map (fun c => c.1 + c.2) (zip xs ys))
                  (map add (zip cp c1)))
    by now apply (zip_holds (fun z => Z.abs z < 2 ^ 52)).
  assert (L12 : List.length (map add (zip cp c1)) = List.length cp)
    by (apply length_zip_map; lia).
  assert (L13 : List.length (map add (zip cp c2)) = List.length cp)
    by (apply length_zip_map; lia).
  assert (L123 : List.length (map add (zip (map add (zip cp c1)) c2))
                 = List.length cp)
    by (rewrite length_zip_map; lia).
  assert (Hsub : forall (u : string) (a b : Point) (la lb : list float),
    coordinates (position a) = la -> coordinates (position b) = lb ->
    List.length la = List.length lb ->
    Point.__sub__ u a b
    = Return (Vector.of_floats u (map (fun x => (x.1 - x.2)%float) (zip la lb)))).
  { intros u a b la lb <- <- Hl. apply Nat.eqb_eq in Hl.
    unfold Point.__sub__, Vector.__sub__, Vector.check_dim, Vector.dim.
    now rewrite Hl. }
  eexists _, _, _, _, _, _, _, _, _.
  split; [exact H|]. split; [reflexivity|].
  cbn [start end_ position coordinates Vector.of_floats].
  split; [exact H12|].
  split; [now apply (zip_holds (fun z => Z.abs z < 2 ^ 52))|].
  split; [now apply (zip_holds (fun z => Z.abs z < 2 ^ 52))|].
  split; [apply (Hsub u1 _ _ _ cp eq_refl eq_refl);
          cbn [position coordinates Vector.of_floats]; lia|].
  split; [apply (Hsub u3 _ _ _ _ eq_refl eq_refl);
          cbn [position coordinates Vector.of_floats]; lia|].
  unfold Vector.__eq__. cbn [coordinates Vector.of_floats]. fold c1 c2.
  assert (Ha1 : Forall2 float_holds ys
                  (map (fun x => (x.1 - x.2)%float) (zip (map add (zip cp c1)) cp)))
    by now apply (add_then_sub_holds xs).
  split; [exact (list_eq_holds ys _ _ By53 Ha1 Hv1)|].
  split; [apply (list_eq_holds ys _ _ By53 Ha1);
          now apply (opposite_side_holds xs ys zs)|].
  split; [apply (Hsub u2 _ _ _ _ eq_refl eq_refl);
          cbn [position coordinates Vector.of_floats]; lia|].
  split; [apply (Hsub u4 _ _ _ cp eq_refl eq_refl);
          cbn [position coordinates Vector.of_floats]; lia|].
  cbn [coordinates Vector.of_floats].
  assert (Ha2 : Forall2 float_holds zs
                  (map (fun x => (x.1 - x.2)%float)
                     (zip (map add (zip (map add (zip cp c1)) c2))
                        (map add (zip cp c1))))).
  { apply (add_then_sub_holds (map (fun c => c.1 + c.2) (zip xs ys)));
      try assumption.
    rewrite length_zip_map by exact L1. exact L2. }
  split; [exact (list_eq_holds zs _ _ Bz53 Ha2 Hv2)|].
  apply (list_eq_holds zs _ _ Bz53 Ha2).
  now apply (add_then_sub_holds xs).
Qed.

Lemma parallelogram_sides_witness :
  let p := mkPoint (mkPyMecObject "p" "") (Vector.of_floats "vp" [0; 1; 1]%float) in
  let v1 := Vector.of_floats "v1" [0; 0; 1]%float in
  let v2 := Vector.of_floats "v2" [0; 1; 0]%float in
  exists c s_1 s_2 s_3 s_4 a1 a3 a2 a4,
    parallelogram (fun _ => "u"%string) (Some p) (Some v1) (Some v2) "" = Return c /\
    segments c = [s_1; s_2; s_3; s_4] /\
    integral [0; 1; 2] (position (end_ s_1)) /\
    integral [0; 2; 2] (position (end_ s_2)) /\
    integral [0; 2; 1] (position (end_ s_3)) /\
    Point.__sub__ "a" (end_ s_1) (start s_1) = Return a1 /\
    Point.__sub__ "a" (start s_3) (end_ s_3) = Return a3 /\
    Vector.__eq__ a1 v1 = true /\ Vector.__eq__ a1 a3 = true /\
    Point.__sub__ "a" (end_ s_2) (start s_2) = Return a2 /\
    Point.__sub__ "a" (start s_4) (end_ s_4) = Return a4 /\
    Vector.__eq__ a2 v2 = true /\ Vector.__eq__ a2 a4 = true.
Proof.
  cbv zeta.
  apply (parallelogram_sides (fun _ => "u"%string) "a" "a" "a" "a"
           (mkPoint (mkPyMecObject "p" "") (Vector.of_floats "vp" [0; 1; 1]%float))
           (Vector.of_floats "v1" [0; 0; 1]%float)
           (Vector.of_floats "v2" [0; 1; 0]%float) ""
           [0; 1; 1] [0; 0; 1] [0; 1; 0]);
    try reflexivity; repeat constructor; vm_compute; reflexivity.
Defined.

(** * The repository's unit tests on the model

    The assertions of [tests/test_geometry.py] about the functions embedded
    above, evaluated. *)

Example test_add :
  (v_1 ← Vector.__init__ "1" [PyInt 1; PyInt 2] "";
   v_2 ← Vector.__init__ "2" [PyInt 3; PyInt 4] "";
   v_3 ← Vector.__add__ "3" v_1 v_2;
   Return (coordinates v_3)) = Return [4; 6]%float
  /\
  (v_1 ← Vector.__init__ "1" [PyInt 1; PyInt 2] "";
   v_4 ← Vector.__init__ "4" [PyInt 1; PyInt 2; PyInt 3] "";
   Vector.__add__ "5" v_1 v_4)
  = Raise (ValueError "Vectors are not the same dimension").
Proof. split; vm_compute; reflexivity. Qed.

Example test_sub :
  (v_1 ← Vector.__init__ "1" [PyInt 1; PyInt 2] "";
   v_2 ← Vector.__init__ "2" [PyInt 3; PyInt 4] "";
   v_3 ← Vector.__sub__ "3" v_1 v_2;
   Return (coordinates v_3)) = Return [-2; -2]%float.
Proof. vm_compute. reflexivity. Qed.

Example test_mul :
  (v_1 ← Vector.__init__ "1" [PyInt 1; PyInt 2; PyInt 3] "";
   v_2 ← Vector.__mul__ "2" v_1 (PyInt 2);
   Return (coordinates v_2)) = Return [2; 4; 6]%float.
Proof. vm_compute. reflexivity. Qed.

Example test_eq :
  (v_1 ← Vector.__init__ "1" [PyInt 1; PyInt 2] "";
   v_2 ← Vector.__init__ "2" [PyInt 1; PyInt 2] "";
   v_3 ← Vector.__init__ "3" [PyInt 1; PyInt 3] "";
   v_4 ← Vector.__init__ "4" [PyInt 1; PyInt 2; PyInt 3] "";
   Return (Vector.__eq__ v_1 v_2, Vector.__eq__ v_1 v_3, Vector.__eq__ v_1 v_4))
  = Return (true, false, false).
Proof. vm_compute. reflexivity. Qed.

Example test_cross_product :
  (a_1 ← Vector.__init__ "1" [PyInt 2; PyInt 0; PyInt 0] "";
   a_2 ← Vector.__init__ "2" [PyInt 0; PyInt 2; PyInt 0] "";
   a_3 ← Vector.cross_product "3" a_1 a_2;
   a_3_check ← Vector.__init__ "4" [PyInt 0; PyInt 0; PyInt 4] "";
   b_1 ← Vector.__init__ "5" [PyInt 1; PyInt 2; PyInt 0] "";
   b_2 ← Vector.__init__ "6" [PyInt 2; PyInt 4; PyInt 0] "";
   b_3 ← Vector.cross_product "7" b_1 b_2;
   b_3_check ← Vector.__init__ "8" [PyInt 0; PyInt 0; PyInt 0] "";
   Return (Vector.__eq__ a_3 a_3_check, Vector.__eq__ b_3 b_3_check))
  = Return (true, true)
  /\
  (a_1 ← Vector.__init__ "1" [PyInt 2; PyInt 0; PyInt 0] "";
   c_1 ← Vector.__init__ "9" [PyInt 1; PyInt 2; PyInt 3; PyInt 4] "";
   Vector.cross_product "10" c_1 a_1)
  = Raise (ValueError "Vectors are not the same dimension").
Proof. split; vm_compute; reflexivity. Qed.

Example test_delete :
  let elem := OPyMecObject (mkPyMecObject "0" "to be deleted") in
  let others := map (fun u => OPyMecObject (mkPyMecObject u ""))
                  ["1"; "2"; "3"; "4"; "5"]%string in
  let session := run (map (fun o => Append (VObject o)) (elem :: others))
                   (Session.__init__, ∅) in
  let after := (Session.delete elem session.1).2 in
  List.length (workspace after) = (List.length (workspace session.1) - 1)%nat
  /\ Session.search_by_uid (uid_of elem) after = None.
Proof. vm_compute. split; reflexivity. Qed.

Example test_save_load_file :
  let filename := Some "tests/test_save_load.pymec"%string in
  let disk : filesystem :=
    {[ ["tests"%string] := Dir;
       ["tests"; "test_save_load.pymec"]%string := File (Saved ∅ ∅ []) ]} in
  let obj := OPyMecObject (mkPyMecObject "0" "an object") in
  let session := (Session.append (VObject obj) Session.__init__).2 in
  let r1 := Session.save_to_file 1 None false (session, disk) in
  let r2 := Session.save_to_file 2 filename false r1.2 in
  let r3 := Session.save_to_file 3 filename true r2.2 in
  let r4 := Session.load_file None false r3.2 in
  let r5 := Session.load_file None false (Session.__init__, r4.2.2) in
  let r6 := Session.load_file filename false (Session.__init__, r5.2.2) in
  let r7 := Session.load_file None true (r4.2.1, r6.2.2) in
  r1.1 = Raise (KeyError "filename") /\
  r2.1 = Raise (FileExistsError
    "File 'tests/test_save_load.pymec' already exist. Set overwrite to True to overwrite") /\
  r3.1 = Return tt /\
  r4.1 = Raise (FileExistsError
    "Workspace is not empty. Set overwrite to True to overwrite") /\
  r5.1 = Raise (KeyError "filename") /\
  r6.1 = Return tt /\
  uids r6.2.1 = uids r3.2.1 /\
  r7.1 = Return tt.
Proof. vm_compute. repeat split; reflexivity. Qed.

Example test_is_closed :
  let point := fun (u : string) cs =>
    mkPoint (mkPyMecObject u "") (Vector.of_floats u cs) in
  let p_1 := point "p1"%string [0; 1; 1]%float in
  let p_2 := point "p2"%string [0; 1; 2]%float in
  let p_3 := point "p3"%string [0; 2; 2]%float in
  let p_4 := point "p4"%string [0; 2; 1]%float in
  let s_1 := mkSegment (mkPyMecObject "s1" "") p_1 p_2 in
  let s_2 := mkSegment (mkPyMecObject "s2" "") p_2 p_3 in
  let s_3 := mkSegment (mkPyMecObject "s3" "") p_3 p_4 in
  let s_4 := mkSegment (mkPyMecObject "s4" "") p_4 p_1 in
  let c_1 := Contour.add_segment
               (Contour.add_segment
                  (Contour.add_segment (Contour.__init__ "c1" "") s_1) s_2) s_3 in
  Contour.is_closed c_1 = false /\
  Contour.is_closed (Contour.add_segment c_1 s_4) = true.
Proof. vm_compute. split; reflexivity. Qed.

Example test_truediv :
  (v_1 ← of_result (Vector.__init__ "1" [PyInt 2; PyInt 4; PyInt 6] "");
   v_2 ← Vector.__truediv__ "2" v_1 (PyInt 2);
   Value (coordinates v_2)) = Value [1; 2; 3]%float.
Proof. vm_compute. reflexivity. Qed.

Example test_point_add :
  let uuid4 := fun k : nat => String (ascii_of_nat (48 + k)) "" in
  (v ← Vector.__init__ "a" [PyInt 1; PyInt 2; PyInt 3] "";
   p_1 ← Point.__init__ uuid4 (VObject (OVector v)) "";
   w ← Vector.__init__ "b" [PyInt 3; PyInt 4; PyInt 5] "";
   p_2 ← Point.__init__ uuid4 (VObject (OVector w)) "";
   Point.__add__ uuid4 p_1 (VObject (OPoint p_2)))
  = Raise (TypeError "can't add non-Vector to Point")
  /\
  (v ← Vector.__init__ "a" [PyInt 1; PyInt 2; PyInt 3] "";
   p_1 ← Point.__init__ uuid4 (VObject (OVector v)) "";
   w ← Vector.__init__ "b" [PyInt 3; PyInt 4; PyInt 5] "";
   p_2 ← Point.__init__ uuid4 (VObject (OVector w)) "";
   v_1 ← Vector.__init__ "c" [PyInt 2; PyInt 2; PyInt 2] "";
   p_3 ← Point.__add__ uuid4 p_1 (VObject (OVector v_1));
   Return (Vector.__eq__ (position p_2) (position p_3)))
  = Return true.
Proof. split; vm_compute; reflexivity. Qed.

Example test_point_sub :
  let uuid4 := fun k : nat => String (ascii_of_nat (48 + k)) "" in
  (v ← Vector.__init__ "a" [PyInt 1; PyInt 2; PyInt 3] "";
   p_1 ← Point.__init__ uuid4 (VObject (OVector v)) "";
   w ← Vector.__init__ "b" [PyInt 3; PyInt 4; PyInt 5] "";
   p_2 ← Point.__init__ uuid4 (VObject (OVector w)) "";
   v_1 ← Vector.__init__ "c" [PyInt 2; PyInt 2; PyInt 2] "";
   v_2 ← Point.__sub__ "d" p_2 p_1;
   Return (list_eq (coordinates v_1) (coordinates v_2)))
  = Return true.
Proof. vm_compute. reflexivity. Qed.

Example test_midpoint :
  let uuid4 := fun k : nat => String (ascii_of_nat (48 + k)) "" in
  (p_1 ← of_result (v ← Vector.__init__ "a" [PyInt 1; PyInt 2; PyInt 3] "";
                    Point.__init__ uuid4 (VObject (OVector v)) "");
   p_2 ← of_result (v ← Vector.__init__ "b" [PyInt 3; PyInt 4; PyInt 5] "";
                    Point.__init__ uuid4 (VObject (OVector v)) "");
   s_1 ← of_result (Segment.__init__ uuid4 (Some p_1) (Some p_2) "");
   p_mid ← Segment.midpoint uuid4 s_1;
   p_3 ← of_result (v ← Vector.__init__ "c" [PyInt 2; PyInt 3; PyInt 4] "";
                    Point.__init__ uuid4 (VObject (OVector v)) "");
   Value (Vector.__eq__ (position p_mid) (position p_3)))
  = Value true.
Proof. vm_compute. reflexivity. Qed.

Example test_parallelogram :
  let uuid4 := fun k : nat => String (ascii_of_nat (48 + k)) "" in
  (v ← Vector.__init__ "a" [PyInt 0; PyInt 1; PyInt 1] "";
   corner ← Point.__init__ uuid4 (VObject (OVector v)) "";
   vect_1 ← Vector.__init__ "b" [PyInt 0; PyInt 0; PyInt 1] "";
   vect_2 ← Vector.__init__ "c" [PyInt 0; PyInt 1; PyInt 0] "";
   c_2 ← parallelogram uuid4 (Some corner) (Some vect_1) (Some vect_2) "";
   Return (map (fun s => (coordinates (position (start s)),
                          coordinates (position (end_ s)))) (segments c_2)))
  = Return [([0; 1; 1], [0; 1; 2]); ([0; 1; 2], [0; 2; 2]);
            ([0; 2; 2], [0; 2; 1]); ([0; 2; 1], [0; 1; 1])]%float.
Proof. vm_compute. reflexivity. Qed.
